(** * Tenant OpenSearch provisioning service

    A shallow embedding of the service (index.js, services/sqsService.js,
    services/databaseService.js, services/opensearchService.js and
    config/database.js) together with the properties of its queue consumer,
    orchestrator, provisioning client and tenant record store.

    The JavaScript is embedded function by function.  Asynchronous functions
    become computations in a state-and-exception monad over an explicit
    [World]; every call that leaves the process (PostgreSQL, OpenSearch
    Serverless, SQS, timers, the logger) is emitted as an [Event]. *)

From Stdlib Require Import String Ascii List Bool Arith NArith ZArith Lia DecimalString.
Import ListNotations.
Local Open Scope list_scope.
Local Open Scope string_scope.
Set Warnings "-register-all".

(* ================================================================== *)
(** ** JavaScript values, errors and completions *)
(* ================================================================== *)

(** A thrown JavaScript error: the code only ever reads [error.name] and
    [error.message] (stack traces and SDK metadata are read for logging
    alone and are not represented). *)
Module JsError.
Record t : Type := mk { name : string; message : string }.
End JsError.

(** [new Error(msg)] *)
Definition Error (msg : string) : JsError.t := JsError.mk "Error" msg.
Definition TypeError (msg : string) : JsError.t := JsError.mk "TypeError" msg.
Definition SyntaxError (msg : string) : JsError.t := JsError.mk "SyntaxError" msg.

(** The outcome of evaluating a JavaScript expression or statement. *)
Inductive Completion (A : Type) : Type :=
| Normal (a : A)
| Throw (e : JsError.t).
Arguments Normal {A} a.
Arguments Throw {A} e.

(** Values that [JSON.parse] can produce, plus [undefined] (the value of
    an absent property).  Numbers are IEEE doubles in JavaScript; their
    type is a parameter, see [JsRuntime].  Objects are association lists
    read at their first binding for a key. *)
Inductive JsValue (num : Type) : Type :=
| JUndefined
| JNull
| JBool (b : bool)
| JNum (n : num)
| JStr (s : string)
| JArr (elems : list (JsValue num))
| JObj (props : list (string * JsValue num)).
Arguments JUndefined {num}.
Arguments JNull {num}.
Arguments JBool {num} b.
Arguments JNum {num} n.
Arguments JStr {num} s.
Arguments JArr {num} elems.
Arguments JObj {num} props.

(** The parts of the JavaScript runtime that the service relies on and
    that are not part of the repository: the number type with its
    conversions, and [JSON.parse]. *)
Class JsRuntime (num : Type) : Type := {
  Number_ToBoolean : num -> bool;
  Number_ToString : num -> string;
  Number_of_nat : nat -> num;
  JSON_parse : string -> Completion (JsValue num)
}.

Definition nat_to_string (n : nat) : string :=
  NilZero.string_of_uint (Nat.to_uint n).

Section Values.
Context {num : Type} `{JsRuntime num}.

(** ToBoolean: what [!x] and [if (x)] observe. *)
Definition ToBoolean (v : JsValue num) : bool :=
  match v with
  | JUndefined | JNull => false
  | JBool b => b
  | JNum n => Number_ToBoolean n
  | JStr s => negb (s =? "")
  | JArr _ | JObj _ => true
  end.

(** [typeof v] *)
Definition typeof (v : JsValue num) : string :=
  match v with
  | JUndefined => "undefined"
  | JNull | JArr _ | JObj _ => "object"
  | JBool _ => "boolean"
  | JNum _ => "number"
  | JStr _ => "string"
  end.

Fixpoint lookup_prop (props : list (string * JsValue num)) (key : string)
  : option (JsValue num) :=
  match props with
  | [] => None
  | (k, v) :: rest => if k =? key then Some v else lookup_prop rest key
  end.

(** [v[key]] and [v.key] for the property names this program reads
    (tenant_id, tenant_slug, timestamp): none of them exists on an array,
    a string, a number, a boolean or on their prototypes, so only an
    object's own properties can answer; reading a property of [null] or
    [undefined] throws. *)
Definition Get (v : JsValue num) (key : string) : Completion (JsValue num) :=
  match v with
  | JUndefined | JNull =>
      Throw (TypeError ("Cannot read properties of " ++
                        (match v with JNull => "null" | _ => "undefined" end) ++
                        " (reading '" ++ key ++ "')"))
  | JObj props =>
      match lookup_prop props key with
      | Some x => Normal x
      | None => Normal JUndefined
      end
  | _ => Normal JUndefined
  end.

(** ToString, as applied by [RegExp.prototype.test] and by template
    literals.  An array joins its elements with commas ([null] and
    [undefined] elements print as the empty string).  An object parsed
    from JSON prints as [[object Object]] through [Object.prototype],
    unless it has an own [toString] property: that property is then a
    JSON value, hence not callable, and the conversion throws. *)
Fixpoint ToString (v : JsValue num) : Completion string :=
  match v with
  | JUndefined => Normal "undefined"
  | JNull => Normal "null"
  | JBool b => Normal (if b then "true" else "false")
  | JNum n => Normal (Number_ToString n)
  | JStr s => Normal s
  | JArr elems =>
      (fix join (l : list (JsValue num)) : Completion string :=
         match l with
         | [] => Normal ""
         | x :: rest =>
             let first :=
               match x with
               | JUndefined | JNull => Normal ""
               | _ => ToString x
               end in
             match first with
             | Throw e => Throw e
             | Normal s =>
                 match rest with
                 | [] => Normal s
                 | _ :: _ =>
                     match join rest with
                     | Throw e => Throw e
                     | Normal r => Normal (s ++ "," ++ r)
                     end
                 end
             end
         end) elems
  | JObj props =>
      match lookup_prop props "toString" with
      | Some _ => Throw (TypeError "Cannot convert object to primitive value")
      | None => Normal "[object Object]"
      end
  end.

End Values.

(* ================================================================== *)
(** ** The two regular expressions of sqsService.js *)
(* ================================================================== *)

(** Both patterns are anchored sequences of bounded repetitions of a
    character class; [Atom] is one such repetition [cls{rmin,rmax}].
    Strings are sequences of bytes here and of UTF-16 units in
    JavaScript; the classes below contain ASCII only, so a string with
    any other character fails in both readings. *)
Record Atom : Type := mkAtom { cls : ascii -> bool; rmin : nat; rmax : nat }.

Definition in_range (lo hi : nat) (c : ascii) : bool :=
  (lo <=? nat_of_ascii c)%nat && (nat_of_ascii c <=? hi)%nat.

(** [0-9] *)
Definition digit (c : ascii) : bool := in_range 48 57 c.
(** [a-z] *)
Definition lower (c : ascii) : bool := in_range 97 122 c.
(** [[0-9a-f]] under the [i] flag *)
Definition hex_i (c : ascii) : bool :=
  digit c || in_range 97 102 c || in_range 65 70 c.
(** [[a-z0-9]] *)
Definition lower_alnum (c : ascii) : bool := lower c || digit c.
(** [[a-z0-9-]] *)
Definition lower_alnum_dash (c : ascii) : bool :=
  lower c || digit c || (nat_of_ascii c =? 45)%nat.
(** the literal [-] *)
Definition dash (c : ascii) : bool := (nat_of_ascii c =? 45)%nat.

(** One atom of an anchored match, by backtracking on the number of
    characters it takes: after [cnt] characters of atom [a], either [a]
    is complete and the rest of the pattern matches the rest of the
    string ([continue]), or [a] takes one more character. *)
Fixpoint consume (a : Atom) (continue : string -> bool) (cnt : nat) (s : string)
  : bool :=
  if (if (rmin a <=? cnt)%nat then continue s else false) then true
  else
    match s with
    | EmptyString => false
    | String c s' =>
        if (cnt <? rmax a)%nat && cls a c then consume a continue (S cnt) s'
        else false
    end.

(** Anchored match ([^...$], no [m] flag) of a whole string. *)
Fixpoint regex_match (r : list Atom) : string -> bool :=
  match r with
  | [] => fun s => match s with EmptyString => true | String _ _ => false end
  | a :: r' => consume a (regex_match r') 0
  end.

Definition times (c : ascii -> bool) (n : nat) : Atom := mkAtom c n n.

(** [/^[0-9a-f]{8}-[0-9a-f]{4}-[0-9a-f]{4}-[0-9a-f]{4}-[0-9a-f]{12}$/i] *)
Definition uuidRegex : list Atom :=
  [ times hex_i 8; times dash 1; times hex_i 4; times dash 1;
    times hex_i 4; times dash 1; times hex_i 4; times dash 1;
    times hex_i 12 ].

(** [/^[a-z0-9][a-z0-9-]{1,62}[a-z0-9]$/] *)
Definition slugRegex : list Atom :=
  [ times lower_alnum 1; mkAtom lower_alnum_dash 1 62; times lower_alnum 1 ].

Section RegexTest.
Context {num : Type} `{JsRuntime num}.

(** [regex.test(v)]: the argument is converted with ToString first. *)
Definition test (r : list Atom) (v : JsValue num) : Completion bool :=
  match ToString v with
  | Throw e => Throw e
  | Normal s => Normal (regex_match r s)
  end.

End RegexTest.

(* ================================================================== *)
(** ** Data: tenant rows, queue messages, collections, commands *)
(* ================================================================== *)

(** A row of [public.accreda_tenants].  Nullable text columns are
    [option string] ([None] is SQL NULL, read as [null]). *)
Module Tenant.
Record t : Type := mk {
  id : string;
  slug : string;
  name : string;
  status : option string;
  opensearch_arn : option string;
  opensearch_status : option string;
  updated_at : nat
}.
End Tenant.

(** A message as delivered by SQS. *)
Module SqsMessage.
Record t : Type := mk {
  MessageId : string;
  ReceiptHandle : string;
  Body : string
}.
End SqsMessage.

(** A collection as reported by OpenSearch Serverless. *)
Module Collection.
Record t : Type := mk {
  name : string;
  status : string;
  arn : string;
  collectionEndpoint : option string
}.
End Collection.

(** What [createCollection] returns. *)
Module Created.
Record t : Type := mk {
  arn : string;
  endpoint : option string;
  name : string;
  status : string
}.
End Created.

(** What [validateTenantForProvisioning] returns. *)
Module Validation.
Record t : Type := mk { isValid : bool; message : string }.
End Validation.

Inductive Level : Type := Debug | Info | Warn | Err.

Section Commands.
Context {num : Type}.

(** The SQL statements the service sends, with their parameters:
    - [SelectTenant id]: SELECT id, slug, name, status, opensearch_arn,
      opensearch_status FROM public.accreda_tenants WHERE id = $1
    - [UpdateTenantOpenSearch arn status id]: UPDATE ... SET
      opensearch_arn = $1, opensearch_status = $2, updated_at = NOW()
      WHERE id = $3 RETURNING ...
    - [UpdateOpenSearchStatus status id]: UPDATE ... SET
      opensearch_status = $1, updated_at = NOW() WHERE id = $2 *)
Inductive SqlStmt : Type :=
| SelectTenant (id : JsValue num)
| Begin
| Commit
| Rollback
| UpdateTenantOpenSearch (arn : string) (status : string) (id : JsValue num)
| UpdateOpenSearchStatus (status : string) (id : JsValue num).

(** Commands of @aws-sdk/client-opensearchserverless.  [policy] is the
    document handed to [JSON.stringify]. *)
Inductive AossCommand : Type :=
| CreateSecurityPolicyCommand
    (name type : string) (policy : JsValue num) (description : string)
| CreateAccessPolicyCommand
    (name type : string) (policy : JsValue num) (description : string)
| CreateCollectionCommand
    (name type description : string) (tags : list (string * JsValue num))
| BatchGetCollectionCommand (names : list string).

(** Commands of @aws-sdk/client-sqs (the queue URL is a constant). *)
Inductive SqsCommand : Type :=
| ReceiveMessageCommand
    (MaxNumberOfMessages WaitTimeSeconds VisibilityTimeout : nat)
| DeleteMessageCommand (ReceiptHandle : string).

(** The fields of an OpenSearch Serverless response that the code reads. *)
Record AossResponse : Type := mkAossResponse {
  createCollectionDetail : option Collection.t;
  collectionDetails : option (list Collection.t)
}.

(** Everything the process does that is visible from outside, in order.
    [Log] is a call of the logger with its metadata object; values the
    model does not represent (stack traces, SDK [$metadata], raw SDK
    responses) are left out of the metadata. *)
Inductive Event : Type :=
| Log (level : Level) (text : string) (meta : list (string * JsValue num))
| PgConnect
| PgQuery (stmt : SqlStmt)
| PgRelease
| AossSend (cmd : AossCommand)
| SqsSend (cmd : SqsCommand)
| Sleep (ms : N).

(** The environment: how the outside answers the [n]-th outbound call.
    PostgreSQL and SQS have a state of their own in [World]; the
    environment only decides whether a call to them fails.  OpenSearch
    Serverless is answered by the environment alone. *)
Record Env : Type := mkEnv {
  pg_fault : nat -> option JsError.t;
  aoss_reply : nat -> AossCommand -> Completion AossResponse;
  sqs_fault : nat -> option JsError.t
}.

End Commands.
Arguments SqlStmt : clear implicits.
Arguments AossCommand : clear implicits.
Arguments Event : clear implicits.
Arguments Env : clear implicits.

(** The state the service acts on. *)
Record World : Type := mkWorld {
  pool : bool;
    (** config/database.js: the module variable [pool] is not null *)
  tenants : list Tenant.t;
    (** committed rows of public.accreda_tenants *)
  txn : option (list Tenant.t);
    (** the rows as the checked-out client sees them inside its open
        transaction, if it has one *)
  queue : list SqsMessage.t;
    (** messages held by the queue, oldest first *)
  isPolling : bool;
    (** sqsService.js: [this.isPolling] *)
  clock : nat
    (** outbound calls made so far; indexes the environment's answers and
        serves as NOW() *)
}.

Definition set_pool (b : bool) (w : World) : World :=
  mkWorld b (tenants w) (txn w) (queue w) (isPolling w) (clock w).
Definition set_tenants (rows : list Tenant.t) (w : World) : World :=
  mkWorld (pool w) rows (txn w) (queue w) (isPolling w) (clock w).
Definition set_txn (t : option (list Tenant.t)) (w : World) : World :=
  mkWorld (pool w) (tenants w) t (queue w) (isPolling w) (clock w).
Definition set_queue (q : list SqsMessage.t) (w : World) : World :=
  mkWorld (pool w) (tenants w) (txn w) q (isPolling w) (clock w).
Definition set_isPolling (b : bool) (w : World) : World :=
  mkWorld (pool w) (tenants w) (txn w) (queue w) b (clock w).
Definition set_clock (n : nat) (w : World) : World :=
  mkWorld (pool w) (tenants w) (txn w) (queue w) (isPolling w) n.

(* ================================================================== *)
(** ** The monad of asynchronous functions *)
(* ================================================================== *)

Section Monad.
Context {num : Type}.

(** One run of a computation: how it completed, the state it left and
    the events it emitted. *)
Record Run (A : Type) : Type := mkRun {
  result : Completion A;
  final : World;
  emitted : list (Event num)
}.
Arguments mkRun {A} _ _ _.
Arguments result {A} _.
Arguments final {A} _.
Arguments emitted {A} _.

Definition M (A : Type) : Type := World -> Run A.

Definition ret {A} (a : A) : M A := fun w => mkRun (Normal a) w [].

Definition throw {A} (e : JsError.t) : M A := fun w => mkRun (Throw e) w [].

Definition bind {A B} (m : M A) (k : A -> M B) : M B :=
  fun w =>
    match m w with
    | mkRun (Throw e) w1 evs1 => mkRun (Throw e) w1 evs1
    | mkRun (Normal a) w1 evs1 =>
        match k a w1 with
        | mkRun r w2 evs2 => mkRun r w2 (evs1 ++ evs2)%list
        end
    end.

(** [try { m } catch (error) { h error }] *)
Definition try_catch {A} (m : M A) (h : JsError.t -> M A) : M A :=
  fun w =>
    match m w with
    | mkRun (Normal a) w1 evs1 => mkRun (Normal a) w1 evs1
    | mkRun (Throw e) w1 evs1 =>
        match h e w1 with
        | mkRun r w2 evs2 => mkRun r w2 (evs1 ++ evs2)%list
        end
    end.

(** [try { m } finally { f }]: [f] always runs; if it throws, its error
    replaces the completion of [m]. *)
Definition try_finally {A} (m : M A) (f : M unit) : M A :=
  fun w =>
    match m w with
    | mkRun r w1 evs1 =>
        match f w1 with
        | mkRun (Throw e) w2 evs2 => mkRun (Throw e) w2 (evs1 ++ evs2)%list
        | mkRun (Normal _) w2 evs2 => mkRun r w2 (evs1 ++ evs2)%list
        end
    end.

(** Lift a pure completion (a conversion that may throw). *)
Definition lift {A} (c : Completion A) : M A :=
  match c with
  | Normal a => ret a
  | Throw e => throw e
  end.

Definition emit (ev : Event num) : M unit :=
  fun w => mkRun (Normal tt) w [ev].

Definition get_world : M World := fun w => mkRun (Normal w) w [].

Definition modify (f : World -> World) : M unit :=
  fun w => mkRun (Normal tt) (f w) [].

(** The index of the next outbound call. *)
Definition tick : M nat :=
  fun w => mkRun (Normal (clock w)) (set_clock (S (clock w)) w) [].

End Monad.
Arguments mkRun {num A} _ _ _.
Arguments result {num A} _.
Arguments final {num A} _.
Arguments emitted {num A} _.
Arguments M : clear implicits.

Declare Scope js_scope.
Delimit Scope js_scope with js.
Notation "x <- c1 ;; c2" := (bind c1 (fun x => c2))
  (at level 61, c1 at next level, right associativity) : js_scope.
Notation "c1 ;; c2" := (bind c1 (fun _ => c2))
  (at level 61, right associativity) : js_scope.
Local Open Scope js_scope.

(* ================================================================== *)
(** ** The service *)
(* ================================================================== *)

Section Service.
Context {num : Type} `{JsRuntime num}.
Variable env : Env num.

Local Abbreviation M := (M num).
Local Abbreviation JsValue := (JsValue num).

(** *** utils/logger.js and timers *)

Definition logger_debug (text : string) (meta : list (string * JsValue)) : M unit :=
  emit (Log Debug text meta).
Definition logger_info (text : string) (meta : list (string * JsValue)) : M unit :=
  emit (Log Info text meta).
Definition logger_warn (text : string) (meta : list (string * JsValue)) : M unit :=
  emit (Log Warn text meta).
Definition logger_error (text : string) (meta : list (string * JsValue)) : M unit :=
  emit (Log Err text meta).

(** [await new Promise(resolve => setTimeout(resolve, ms))] *)
Definition delay (ms : N) : M unit := emit (Sleep ms).

(** A nullable text column as a JavaScript value, and inside a template
    literal. *)
Definition js_text (o : option string) : JsValue :=
  match o with Some s => JStr s | None => JNull end.
Definition js_opt (o : option string) : JsValue :=
  match o with Some s => JStr s | None => JUndefined end.
Definition text_in_template (o : option string) : string :=
  match o with Some s => s | None => "null" end.
Definition text_truthy (o : option string) : bool :=
  match o with Some s => negb (s =? "") | None => false end.
Definition text_is (o : option string) (lit : string) : bool :=
  match o with Some s => s =? lit | None => false end.

(** *** PostgreSQL as seen through the pg client *)

(** [id = $1]: the parameter is compared with the stored identifier as
    text; a parameter that is not a string equals no identifier. *)
Definition pg_eq (param : JsValue) (id : string) : bool :=
  match param with
  | JStr s => s =? id
  | _ => false
  end.

(** The rows a statement reads and where it writes: inside a
    transaction the client's own view, otherwise the committed table. *)
Definition visible (w : World) : list Tenant.t :=
  match txn w with Some rows => rows | None => tenants w end.
Definition store (rows : list Tenant.t) (w : World) : World :=
  match txn w with
  | Some _ => set_txn (Some rows) w
  | None => set_tenants rows w
  end.

Definition set_opensearch (arn : string) (status : string) (now : nat)
  (r : Tenant.t) : Tenant.t :=
  Tenant.mk (Tenant.id r) (Tenant.slug r) (Tenant.name r) (Tenant.status r)
            (Some arn) (Some status) now.
Definition set_opensearch_status (status : string) (now : nat)
  (r : Tenant.t) : Tenant.t :=
  Tenant.mk (Tenant.id r) (Tenant.slug r) (Tenant.name r) (Tenant.status r)
            (Tenant.opensearch_arn r) (Some status) now.

(** The effect of a statement that the server accepts; the result is
    [result.rows]. *)
Definition run_sql (stmt : SqlStmt num) : M (list Tenant.t) :=
  fun w =>
    match stmt with
    | SelectTenant id =>
        mkRun (Normal (filter (fun r => pg_eq id (Tenant.id r)) (visible w))) w []
    | Begin => mkRun (Normal []) (set_txn (Some (visible w)) w) []
    | Commit =>
        mkRun (Normal [])
              (match txn w with
               | Some rows => set_txn None (set_tenants rows w)
               | None => w
               end) []
    | Rollback => mkRun (Normal []) (set_txn None w) []
    | UpdateTenantOpenSearch arn status id =>
        let rows :=
          map (fun r => if pg_eq id (Tenant.id r)
                        then set_opensearch arn status (clock w) r else r)
              (visible w) in
        mkRun (Normal (filter (fun r => pg_eq id (Tenant.id r)) rows))
              (store rows w) []
    | UpdateOpenSearchStatus status id =>
        let rows :=
          map (fun r => if pg_eq id (Tenant.id r)
                        then set_opensearch_status status (clock w) r else r)
              (visible w) in
        mkRun (Normal []) (store rows w) []
    end.

(** The error [getFreshToken] raises when the signer fails with
    [message]. *)
Definition token_generation_failed (message : string) : JsError.t :=
  Error ("RDS IAM token generation failed: " ++ message).

Fixpoint after_prefix (prefix text : string) : option string :=
  match prefix, text with
  | EmptyString, _ => Some text
  | String a prefix', String b text' =>
      if Ascii.eqb a b then after_prefix prefix' text' else None
  | String _ _, EmptyString => None
  end.

(** The environment answers [pool.connect()] as a whole: [pg_fault]
    holds the error that call ends with, whichever of its two steps has
    failed.  The signer has failed exactly when that error is one that
    [getFreshToken] raises; [signer_message] reads the signer's message
    back from it. *)
Definition signer_message (e : JsError.t) : option string :=
  if JsError.name e =? "Error"
  then after_prefix "RDS IAM token generation failed: " (JsError.message e)
  else None.

(** [await signer.getAuthToken()]; of the error it raises only the
    message is ever read. *)
Definition signer_getAuthToken (n : nat) : M unit :=
  match pg_fault env n with
  | Some e =>
      match signer_message e with
      | Some message => throw (Error message)
      | None => ret tt
      end
  | None => ret tt
  end.

(** [getFreshToken()]; the token itself is not represented. *)
Definition getFreshToken (n : nat) : M unit :=
  try_catch
    (signer_getAuthToken n ;;
     logger_debug "Generated fresh RDS IAM token" [])
    (fun error =>
       logger_error "Failed to generate RDS IAM token"
         [("error", JStr (JsError.message error))] ;;
       throw (token_generation_failed (JsError.message error))).

(** [originalConnect()], the pool's own [connect]. *)
Definition originalConnect (n : nat) : M unit :=
  match pg_fault env n with
  | Some e => throw e
  | None => ret tt
  end.

(** [pool.connect()] as [initializeDatabase] overrides it: a fresh IAM
    token, then the pool's own [connect].  It is one outbound call,
    [PgConnect]. *)
Definition pool_connect : M unit :=
  n <- tick ;;
  emit PgConnect ;;
  getFreshToken n ;;
  originalConnect n.

(** [client.query(text, params)]: a statement that raises has no effect
    on the store. *)
Definition client_query (stmt : SqlStmt num) : M (list Tenant.t) :=
  n <- tick ;;
  emit (PgQuery stmt) ;;
  match pg_fault env n with
  | Some e => throw e
  | None => run_sql stmt
  end.

(** [client.release()]: a transaction still open on the connection is
    never committed. *)
Definition client_release : M unit :=
  emit PgRelease ;;
  modify (set_txn None).

(** *** config/database.js *)

Definition pool_not_initialized : JsError.t :=
  Error "Database pool not initialized. Call initializeDatabase() first.".

Definition query (stmt : SqlStmt num) : M (list Tenant.t) :=
  w <- get_world ;;
  if negb (pool w) then throw pool_not_initialized
  else
    pool_connect ;;
    try_finally (client_query stmt) client_release.

Definition getClient : M unit :=
  w <- get_world ;;
  if negb (pool w) then throw pool_not_initialized
  else pool_connect.

(** *** services/databaseService.js *)

Definition getTenant (tenantId : JsValue) : M (option Tenant.t) :=
  try_catch
    (logger_debug "Fetching tenant from database" [("tenantId", tenantId)] ;;
     rows <- query (SelectTenant tenantId) ;;
     match rows with
     | [] =>
         logger_warn "Tenant not found" [("tenantId", tenantId)] ;;
         ret None
     | row :: _ => ret (Some row)
     end)
    (fun error =>
       logger_error "Failed to fetch tenant"
         [("tenantId", tenantId); ("error", JStr (JsError.message error))] ;;
       throw error).

Definition validateTenantForProvisioning (tenant : option Tenant.t)
  : M Validation.t :=
  match tenant with
  | None => ret (Validation.mk false "Tenant not found")
  | Some tenant =>
      if negb (text_is (Tenant.status tenant) "active") then
        ret (Validation.mk false
               ("Tenant status is '" ++ text_in_template (Tenant.status tenant)
                ++ "', expected 'active'"))
      else if text_truthy (Tenant.opensearch_arn tenant) then
        logger_warn "Tenant already has OpenSearch collection"
          [("tenantId", JStr (Tenant.id tenant));
           ("existingArn", js_text (Tenant.opensearch_arn tenant))] ;;
        ret (Validation.mk false "Tenant already has an OpenSearch collection")
      else if text_is (Tenant.opensearch_status tenant) "ready" then
        ret (Validation.mk false "Tenant OpenSearch status is already ready")
      else
        ret (Validation.mk true "Tenant is valid for provisioning")
  end.

Definition tenant_not_found_or_update_failed : JsError.t :=
  Error "Tenant not found or update failed".

Definition updateTenantOpenSearch
  (tenantId : JsValue) (opensearchArn : string) (status : string)
  : M Tenant.t :=
  getClient ;;
  try_finally
    (try_catch
       (logger_info "Updating tenant OpenSearch configuration"
          [("tenantId", tenantId); ("opensearchArn", JStr opensearchArn);
           ("status", JStr status)] ;;
        client_query Begin ;;
        updateResult <-
          client_query (UpdateTenantOpenSearch opensearchArn status tenantId) ;;
        match updateResult with
        | [] =>
            client_query Rollback ;;
            throw tenant_not_found_or_update_failed
        | updatedTenant :: _ =>
            client_query Commit ;;
            logger_info "Tenant OpenSearch configuration updated successfully"
              [("tenantId", JStr (Tenant.id updatedTenant));
               ("tenantSlug", JStr (Tenant.slug updatedTenant));
               ("opensearchArn", js_text (Tenant.opensearch_arn updatedTenant));
               ("opensearchStatus",
                js_text (Tenant.opensearch_status updatedTenant))] ;;
            ret updatedTenant
        end)
       (fun error =>
          client_query Rollback ;;
          logger_error "Failed to update tenant OpenSearch configuration"
            [("tenantId", tenantId); ("error", JStr (JsError.message error))] ;;
          throw error))
    client_release.

Definition markTenantOpenSearchFailed
  (tenantId : JsValue) (errorMessage : string) : M unit :=
  try_catch
    (logger_warn "Marking tenant OpenSearch as failed"
       [("tenantId", tenantId); ("errorMessage", JStr errorMessage)] ;;
     query (UpdateOpenSearchStatus "failed" tenantId) ;;
     logger_info "Tenant OpenSearch status marked as failed"
       [("tenantId", tenantId)])
    (fun error =>
       logger_error "Failed to mark tenant OpenSearch as failed"
         [("tenantId", tenantId); ("error", JStr (JsError.message error))]).

(** *** services/opensearchService.js *)

Definition accountId : string := "625867133463".

(** [this.client.send(command)] of the OpenSearch Serverless client. *)
Definition aoss_client_send (cmd : AossCommand num) : M AossResponse :=
  n <- tick ;;
  emit (AossSend cmd) ;;
  lift (aoss_reply env n cmd).

Definition getCollectionName (tenantSlug : string) : string :=
  "accreda-" ++ tenantSlug.

Definition collection_rule (resourceType : string) (collectionName : string)
  : JsValue :=
  JObj [("ResourceType", JStr resourceType);
        ("Resource", JArr [JStr ("collection/" ++ collectionName)])].

Definition encryptionPolicy (collectionName : string) : JsValue :=
  JObj [("Rules", JArr [collection_rule "collection" collectionName]);
        ("AWSOwnedKey", JBool true)].

Definition networkPolicy (collectionName : string) : JsValue :=
  JArr [JObj [("Rules", JArr [collection_rule "collection" collectionName;
                              collection_rule "dashboard" collectionName]);
              ("AllowFromPublic", JBool true)]].

Definition dataAccessPolicy (collectionName : string) : JsValue :=
  JArr [JObj
    [("Rules", JArr
       [JObj [("ResourceType", JStr "collection");
              ("Resource", JArr [JStr ("collection/" ++ collectionName)]);
              ("Permission", JArr [JStr "aoss:CreateCollectionItems";
                                   JStr "aoss:DeleteCollectionItems";
                                   JStr "aoss:UpdateCollectionItems";
                                   JStr "aoss:DescribeCollectionItems"])];
        JObj [("ResourceType", JStr "index");
              ("Resource", JArr [JStr ("index/" ++ collectionName ++ "/*")]);
              ("Permission", JArr [JStr "aoss:CreateIndex";
                                   JStr "aoss:DeleteIndex";
                                   JStr "aoss:UpdateIndex";
                                   JStr "aoss:DescribeIndex";
                                   JStr "aoss:ReadDocument";
                                   JStr "aoss:WriteDocument"])]]);
     ("Principal", JArr [JStr ("arn:aws:iam::" ++ accountId ++ ":root")])]].

Definition createEncryptionPolicy (collectionName : string) : M unit :=
  try_catch
    (let policyName := collectionName ++ "-encryption" in
     aoss_client_send
       (CreateSecurityPolicyCommand policyName "encryption"
          (encryptionPolicy collectionName)
          ("Encryption policy for tenant collection " ++ collectionName)) ;;
     logger_info "Created encryption policy"
       [("policyName", JStr policyName);
        ("collectionName", JStr collectionName)])
    (fun error =>
       if JsError.name error =? "ConflictException" then
         logger_info "Encryption policy already exists"
           [("collectionName", JStr collectionName)]
       else throw error).

Definition createNetworkPolicy (collectionName : string) : M unit :=
  let policyName := collectionName ++ "-network" in
  try_catch
    (logger_info "Creating network policy with structure"
       [("collectionName", JStr collectionName);
        ("policyName", JStr policyName);
        ("policy", networkPolicy collectionName)] ;;
     logger_info "Sending CreateSecurityPolicyCommand"
       [("collectionName", JStr collectionName);
        ("policyName", JStr policyName);
        ("commandType", JStr "network")] ;;
     aoss_client_send
       (CreateSecurityPolicyCommand policyName "network"
          (networkPolicy collectionName)
          ("Network policy for tenant collection " ++ collectionName)) ;;
     logger_info "Network policy command response"
       [("collectionName", JStr collectionName);
        ("policyName", JStr policyName)] ;;
     logger_info "Created network policy"
       [("policyName", JStr policyName);
        ("collectionName", JStr collectionName)])
    (fun error =>
       if JsError.name error =? "ConflictException" then
         logger_info "Network policy already exists"
           [("collectionName", JStr collectionName)]
       else
         logger_error "Failed to create network policy"
           [("collectionName", JStr collectionName);
            ("policyName", JStr policyName);
            ("error", JStr (JsError.message error));
            ("errorName", JStr (JsError.name error))] ;;
         throw error).

Definition createDataAccessPolicy (collectionName : string) (tenantId : JsValue)
  : M unit :=
  let policyName := collectionName ++ "-access" in
  try_catch
    (tenantIdText <- lift (ToString tenantId) ;;
     aoss_client_send
       (CreateAccessPolicyCommand policyName "data"
          (dataAccessPolicy collectionName)
          ("Data access policy for tenant " ++ tenantIdText ++
           " collection " ++ collectionName)) ;;
     logger_info "Created data access policy"
       [("policyName", JStr policyName);
        ("collectionName", JStr collectionName);
        ("tenantId", tenantId)])
    (fun error =>
       if JsError.name error =? "ConflictException" then
         logger_info "Data access policy already exists"
           [("collectionName", JStr collectionName)]
       else
         logger_error "Failed to create data access policy"
           [("collectionName", JStr collectionName);
            ("policyName", JStr policyName);
            ("tenantId", tenantId);
            ("error", JStr (JsError.message error));
            ("errorName", JStr (JsError.name error))] ;;
         throw error).

Definition collection_creation_failed (collectionName : string) : JsError.t :=
  Error ("Collection creation failed: " ++ collectionName).

Definition did_not_become_active (maxAttempts : nat) : JsError.t :=
  Error ("Collection did not become active after " ++
         nat_to_string maxAttempts ++ " attempts").

(** The body of the [for] loop of [waitForCollectionActive] at one value
    of [attempt]: [Some collection] is [return collection], [None] is the
    end of the iteration. *)
Definition pollAttempt (collectionName : string) (maxAttempts attempt : nat)
  : M (option Collection.t) :=
  try_catch
    (response <- aoss_client_send (BatchGetCollectionCommand [collectionName]) ;;
     returned <-
       match collectionDetails response with
       | Some (collection :: _) =>
           logger_debug "Collection status check"
             [("collectionName", JStr collectionName);
              ("status", JStr (Collection.status collection));
              ("attempt", JNum (Number_of_nat attempt))] ;;
           if Collection.status collection =? "ACTIVE" then
             logger_info "Collection is now active"
               [("collectionName", JStr collectionName);
                ("arn", JStr (Collection.arn collection));
                ("endpoint", js_opt (Collection.collectionEndpoint collection))] ;;
             ret (Some collection)
           else if Collection.status collection =? "FAILED" then
             throw (collection_creation_failed collectionName)
           else ret None
       | _ => ret None
       end ;;
     match returned with
     | Some collection => ret (Some collection)
     | None => delay 30000%N ;; ret None
     end)
    (fun error =>
       logger_error "Error checking collection status"
         [("collectionName", JStr collectionName);
          ("attempt", JNum (Number_of_nat attempt));
          ("error", JStr (JsError.message error))] ;;
       if (attempt =? maxAttempts)%nat then
         throw (did_not_become_active maxAttempts)
       else
         delay 30000%N ;; ret None).

(** [for (let attempt = 1; attempt <= maxAttempts; attempt++)] over the
    values [attempt] still has to take, and the [throw] after the loop. *)
Fixpoint pollAttempts (collectionName : string) (maxAttempts : nat)
  (attempts : list nat) : M Collection.t :=
  match attempts with
  | [] => throw (did_not_become_active maxAttempts)
  | attempt :: later =>
      returned <- pollAttempt collectionName maxAttempts attempt ;;
      match returned with
      | Some collection => ret collection
      | None => pollAttempts collectionName maxAttempts later
      end
  end.

Definition waitForCollectionActive (collectionName : string) (maxAttempts : nat)
  : M Collection.t :=
  logger_info "Waiting for collection to become active"
    [("collectionName", JStr collectionName)] ;;
  pollAttempts collectionName maxAttempts (seq 1 maxAttempts).

(** The default value of the parameter [maxAttempts]. *)
Definition default_maxAttempts : nat := 60.

Definition createCollection (tenantId : JsValue) (tenantSlug : string)
  : M Created.t :=
  let collectionName := getCollectionName tenantSlug in
  logger_info "Creating OpenSearch collection"
    [("tenantId", tenantId); ("tenantSlug", JStr tenantSlug);
     ("collectionName", JStr collectionName)] ;;
  try_catch
    (logger_info "Creating encryption policy"
       [("collectionName", JStr collectionName)] ;;
     createEncryptionPolicy collectionName ;;
     logger_info "Encryption policy created successfully"
       [("collectionName", JStr collectionName)] ;;
     logger_info "Creating network policy"
       [("collectionName", JStr collectionName)] ;;
     try_catch
       (createNetworkPolicy collectionName ;;
        logger_info "Network policy created successfully"
          [("collectionName", JStr collectionName)])
       (fun networkError =>
          logger_error "Network policy creation failed in main flow"
            [("collectionName", JStr collectionName);
             ("error", JStr (JsError.message networkError));
             ("errorName", JStr (JsError.name networkError))] ;;
          throw networkError) ;;
     logger_info "Initiating collection creation"
       [("collectionName", JStr collectionName)] ;;
     tenantIdText <- lift (ToString tenantId) ;;
     createResponse <-
       aoss_client_send
         (CreateCollectionCommand collectionName "SEARCH"
            ("OpenSearch collection for tenant " ++ tenantSlug ++ " (" ++
             tenantIdText ++ ") - configured for Bedrock knowledge base")
            [("TenantId", tenantId);
             ("TenantSlug", JStr tenantSlug);
             ("Service", JStr "Accreda");
             ("ManagedBy", JStr "tenant-opensearch-service");
             ("BedrockCompatible", JStr "true")]) ;;
     detail <-
       match createCollectionDetail createResponse with
       | Some detail => ret detail
       | None =>
           throw (TypeError
                    "Cannot read properties of undefined (reading 'status')")
       end ;;
     logger_info "Collection creation initiated"
       [("collectionName", JStr collectionName);
        ("status", JStr (Collection.status detail))] ;;
     logger_info "Creating data access policy"
       [("collectionName", JStr collectionName)] ;;
     createDataAccessPolicy collectionName tenantId ;;
     logger_info "Data access policy created successfully"
       [("collectionName", JStr collectionName)] ;;
     logger_info "Waiting for collection to become active"
       [("collectionName", JStr collectionName)] ;;
     collection <- waitForCollectionActive collectionName default_maxAttempts ;;
     logger_info "OpenSearch collection created successfully"
       [("tenantId", tenantId);
        ("collectionName", JStr collectionName);
        ("arn", JStr (Collection.arn collection));
        ("endpoint", js_opt (Collection.collectionEndpoint collection))] ;;
     ret (Created.mk (Collection.arn collection)
                     (Collection.collectionEndpoint collection)
                     collectionName
                     (Collection.status collection)))
    (fun error =>
       logger_error "Failed to create OpenSearch collection"
         [("tenantId", tenantId); ("tenantSlug", JStr tenantSlug);
          ("collectionName", JStr collectionName);
          ("error", JStr (JsError.message error));
          ("errorName", JStr (JsError.name error))] ;;
       throw error).

(** *** services/sqsService.js *)

(** [this.client.send(new ReceiveMessageCommand(...))]: the queue is
    FIFO; the answer holds at most [MaxNumberOfMessages] messages, oldest
    first, and they stay in the queue until they are deleted.  The result
    is [response.Messages], empty when the field is absent. *)
Definition sqs_receive (MaxNumberOfMessages WaitTimeSeconds VisibilityTimeout : nat)
  : M (list SqsMessage.t) :=
  n <- tick ;;
  emit (SqsSend (ReceiveMessageCommand MaxNumberOfMessages WaitTimeSeconds
                   VisibilityTimeout)) ;;
  match sqs_fault env n with
  | Some e => throw e
  | None => w <- get_world ;; ret (firstn MaxNumberOfMessages (queue w))
  end.

(** [this.client.send(new DeleteMessageCommand(...))] *)
Definition sqs_delete (receiptHandle : string) : M unit :=
  n <- tick ;;
  emit (SqsSend (DeleteMessageCommand receiptHandle)) ;;
  match sqs_fault env n with
  | Some e => throw e
  | None =>
      modify (fun w =>
        set_queue
          (filter (fun m => negb (SqsMessage.ReceiptHandle m =? receiptHandle))
                  (queue w)) w)
  end.

(** The [for (const field of requiredFields)] loop of [validateMessage]:
    [false] is its [return false]. *)
Fixpoint checkRequiredFields (messageBody : JsValue) (fields : list string)
  : M bool :=
  match fields with
  | [] => ret true
  | field :: rest =>
      value <- lift (Get messageBody field) ;;
      if negb (ToBoolean value) then
        logger_warn ("Invalid message body: missing field '" ++ field ++ "'") [] ;;
        ret false
      else checkRequiredFields messageBody rest
  end.

Definition requiredFields : list string :=
  ["tenant_id"; "tenant_slug"; "timestamp"].

Definition validateMessage (messageBody : JsValue) : M bool :=
  if negb (ToBoolean messageBody) || negb (typeof messageBody =? "object") then
    logger_warn "Invalid message body: not an object" [] ;;
    ret false
  else
    present <- checkRequiredFields messageBody requiredFields ;;
    if negb present then ret false
    else
      tenant_id <- lift (Get messageBody "tenant_id") ;;
      isUuid <- lift (test uuidRegex tenant_id) ;;
      if negb isUuid then
        logger_warn "Invalid tenant_id format" [("tenant_id", tenant_id)] ;;
        ret false
      else
        tenant_slug <- lift (Get messageBody "tenant_slug") ;;
        isSlug <- lift (test slugRegex tenant_slug) ;;
        if negb isSlug then
          logger_warn "Invalid tenant_slug format" [("tenant_slug", tenant_slug)] ;;
          ret false
        else ret true.

Definition receiveMessages : M (list SqsMessage.t) :=
  try_catch
    (messages <- sqs_receive 1 20 300 ;;
     match messages with
     | [] => ret []
     | _ :: _ =>
         logger_info ("Received " ++ nat_to_string (length messages) ++
                      " message(s) from SQS") [] ;;
         ret messages
     end)
    (fun error =>
       logger_error "Failed to receive messages from SQS"
         [("error", JStr (JsError.message error))] ;;
       throw error).

Definition deleteMessage (receiptHandle : string) : M unit :=
  try_catch
    (sqs_delete receiptHandle ;;
     logger_info "Message deleted from SQS queue" [])
    (fun error =>
       logger_error "Failed to delete message from SQS"
         [("error", JStr (JsError.message error))] ;;
       throw error).

(** The body of [for (const message of messages)] in [startPolling]:
    the [try] with its [continue], and the [catch] that only logs. *)
Definition processMessage (messageHandler : JsValue -> M unit)
  (message : SqsMessage.t) : M unit :=
  try_catch
    (messageBody <- lift (JSON_parse (SqsMessage.Body message)) ;;
     tenant_id <- lift (Get messageBody "tenant_id") ;;
     tenant_slug <- lift (Get messageBody "tenant_slug") ;;
     logger_info "Processing SQS message"
       [("messageId", JStr (SqsMessage.MessageId message));
        ("tenant_id", tenant_id); ("tenant_slug", tenant_slug)] ;;
     valid <- validateMessage messageBody ;;
     if negb valid then
       logger_error "Invalid message structure, deleting message"
         [("messageId", JStr (SqsMessage.MessageId message))] ;;
       deleteMessage (SqsMessage.ReceiptHandle message)
     else
       messageHandler messageBody ;;
       deleteMessage (SqsMessage.ReceiptHandle message) ;;
       tenant_id <- lift (Get messageBody "tenant_id") ;;
       logger_info "Message processed successfully"
         [("messageId", JStr (SqsMessage.MessageId message));
          ("tenant_id", tenant_id)])
    (fun error =>
       logger_error "Error processing message"
         [("messageId", JStr (SqsMessage.MessageId message));
          ("error", JStr (JsError.message error))]).

Fixpoint forEach {A} (items : list A) (body : A -> M unit) : M unit :=
  match items with
  | [] => ret tt
  | item :: rest => body item ;; forEach rest body
  end.

(** One iteration of [while (this.isPolling)]. *)
Definition pollIteration (messageHandler : JsValue -> M unit) : M unit :=
  try_catch
    (messages <- receiveMessages ;;
     forEach messages (processMessage messageHandler))
    (fun error =>
       logger_error "Error in polling loop"
         [("error", JStr (JsError.message error))] ;;
       delay 5000%N).

Definition stopPolling : M unit :=
  logger_info "Stopping SQS polling" [] ;;
  modify (set_isPolling false).

(** [startPolling] for at most [iterations] turns of its loop: [true]
    when the loop was left because [isPolling] was found false. *)
Fixpoint pollWhile (messageHandler : JsValue -> M unit) (iterations : nat)
  : M bool :=
  match iterations with
  | 0 => ret false
  | S k =>
      w <- get_world ;;
      if isPolling w then
        pollIteration messageHandler ;;
        pollWhile messageHandler k
      else ret true
  end.

Definition startPolling (messageHandler : JsValue -> M unit) (iterations : nat)
  : M bool :=
  modify (set_isPolling true) ;;
  logger_info "Starting SQS polling" [] ;;
  stopped <- pollWhile messageHandler iterations ;;
  if stopped then logger_info "SQS polling stopped" [] ;; ret true
  else ret false.

(** *** index.js *)

(** The [try] block of [processTenantMessage]. *)
Definition provisionTenant (tenant_id : JsValue) : M unit :=
  tenant <- getTenant tenant_id ;;
  validation <- validateTenantForProvisioning tenant ;;
  if negb (Validation.isValid validation) then
    logger_warn "Tenant validation failed"
      [("tenant_id", tenant_id);
       ("reason", JStr (Validation.message validation))]
  else
    match tenant with
    | None =>
        throw (TypeError "Cannot read properties of null (reading 'slug')")
    | Some tenant =>
        logger_info "Tenant validation passed, creating OpenSearch collection"
          [("tenant_id", tenant_id);
           ("tenant_slug", JStr (Tenant.slug tenant))] ;;
        collection <- createCollection tenant_id (Tenant.slug tenant) ;;
        logger_info "OpenSearch collection created"
          [("tenant_id", tenant_id);
           ("collection_arn", JStr (Created.arn collection));
           ("collection_endpoint", js_opt (Created.endpoint collection))] ;;
        updateTenantOpenSearch tenant_id (Created.arn collection) "ready" ;;
        logger_info "Tenant provisioning completed successfully"
          [("tenant_id", tenant_id);
           ("tenant_slug", JStr (Tenant.slug tenant));
           ("opensearch_arn", JStr (Created.arn collection))]
    end.

(** Its [catch] block. *)
Definition provisionFailed (tenant_id tenant_slug : JsValue) (error : JsError.t)
  : M unit :=
  logger_error "Failed to provision tenant"
    [("tenant_id", tenant_id); ("tenant_slug", tenant_slug);
     ("error", JStr (JsError.message error))] ;;
  try_catch
    (markTenantOpenSearchFailed tenant_id (JsError.message error))
    (fun dbError =>
       logger_error "Failed to mark tenant as failed"
         [("tenant_id", tenant_id);
          ("error", JStr (JsError.message dbError))]) ;;
  throw error.

Definition processTenantMessage (message : JsValue) : M unit :=
  tenant_id <- lift (Get message "tenant_id") ;;
  tenant_slug <- lift (Get message "tenant_slug") ;;
  timestamp <- lift (Get message "timestamp") ;;
  logger_info "Processing tenant provisioning request"
    [("tenant_id", tenant_id); ("tenant_slug", tenant_slug);
     ("timestamp", timestamp)] ;;
  try_catch (provisionTenant tenant_id) (provisionFailed tenant_id tenant_slug).

End Service.

(* ================================================================== *)
(** ** The process: start-up and shutdown (config/database.js, index.js) *)
(* ================================================================== *)

Section HostMonad.
Context {num : Type}.

(** What the process does besides the events of the service functions
    above. *)
Inductive HostEvent : Type :=
| Service (ev : Event num)
| PgTestQuery
    (** client.query('SELECT NOW() as current_time, current_database()') *)
| PoolEnd
    (** pool.end() *)
| ProcessExit (code : nat).
    (** process.exit(code) *)

Record HostRun (A : Type) : Type := mkHostRun {
  host_result : Completion A;
  host_final : World;
  host_emitted : list HostEvent
}.
Arguments mkHostRun {A} _ _ _.
Arguments host_result {A} _.
Arguments host_final {A} _.
Arguments host_emitted {A} _.

Definition Host (A : Type) : Type := World -> HostRun A.

Definition host_ret {A} (a : A) : Host A := fun w => mkHostRun (Normal a) w [].

Definition host_throw {A} (e : JsError.t) : Host A :=
  fun w => mkHostRun (Throw e) w [].

Definition host_bind {A B} (m : Host A) (k : A -> Host B) : Host B :=
  fun w =>
    match m w with
    | mkHostRun (Throw e) w1 evs1 => mkHostRun (Throw e) w1 evs1
    | mkHostRun (Normal a) w1 evs1 =>
        match k a w1 with
        | mkHostRun r w2 evs2 => mkHostRun r w2 (evs1 ++ evs2)%list
        end
    end.

Definition host_try_catch {A} (m : Host A) (h : JsError.t -> Host A) : Host A :=
  fun w =>
    match m w with
    | mkHostRun (Normal a) w1 evs1 => mkHostRun (Normal a) w1 evs1
    | mkHostRun (Throw e) w1 evs1 =>
        match h e w1 with
        | mkHostRun r w2 evs2 => mkHostRun r w2 (evs1 ++ evs2)%list
        end
    end.

Definition host_try_finally {A} (m : Host A) (f : Host unit) : Host A :=
  fun w =>
    match m w with
    | mkHostRun r w1 evs1 =>
        match f w1 with
        | mkHostRun (Throw e) w2 evs2 => mkHostRun (Throw e) w2 (evs1 ++ evs2)%list
        | mkHostRun (Normal _) w2 evs2 => mkHostRun r w2 (evs1 ++ evs2)%list
        end
    end.

Definition host_emit (ev : HostEvent) : Host unit :=
  fun w => mkHostRun (Normal tt) w [ev].

(** A function of the service, run by the process. *)
Definition service {A} (m : M num A) : Host A :=
  fun w =>
    match m w with
    | mkRun r w1 evs => mkHostRun r w1 (map Service evs)
    end.

End HostMonad.
Arguments HostEvent : clear implicits.
Arguments HostRun : clear implicits.
Arguments Host : clear implicits.
Arguments mkHostRun {num A} _ _ _.
Arguments host_result {num A} _.
Arguments host_final {num A} _.
Arguments host_emitted {num A} _.

Declare Scope host_scope.
Delimit Scope host_scope with host.
Notation "x <- c1 ;; c2" := (host_bind c1 (fun x => c2))
  (at level 61, c1 at next level, right associativity) : host_scope.
Notation "c1 ;; c2" := (host_bind c1 (fun _ => c2))
  (at level 61, right associativity) : host_scope.

Section Lifecycle.
Context {num : Type} `{JsRuntime num}.
Variable env : Env num.
Local Open Scope host_scope.

(** *** config/database.js *)

(** [client.query('SELECT NOW() as current_time, current_database()')] of
    the connection test. *)
Definition test_query : Host num unit :=
  n <- service tick ;;
  host_emit PgTestQuery ;;
  match pg_fault env n with
  | Some e => host_throw e
  | None => host_ret tt
  end.

(** [initializeDatabase]: the module variable [pool] is assigned before
    the connection is tested.  What the test query answers (the name of
    the database, the time) is only logged and is left out of the
    metadata. *)
Definition initializeDatabase : Host num unit :=
  w <- service get_world ;;
  if pool w then service (logger_warn "Database pool already initialized" [])
  else
    host_try_catch
      (service (logger_info "Initializing database connection pool" []) ;;
       service (modify (set_pool true)) ;;
       service (pool_connect env) ;;
       host_try_finally
         (test_query ;;
          service (logger_info "Database connection successful" []))
         (service client_release) ;;
       service (logger_info "Database pool initialized successfully" []))
      (fun error =>
         service (logger_error "Failed to initialize database pool"
                    [("error", JStr (JsError.message error))]) ;;
         host_throw error).

(** [closeDatabase]: [pool] is set to null after [pool.end()] has
    returned. *)
Definition closeDatabase : Host num unit :=
  w <- service get_world ;;
  if pool w then
    service (logger_info "Closing database connection pool" []) ;;
    n <- service tick ;;
    host_emit PoolEnd ;;
    match pg_fault env n with
    | Some e => host_throw e
    | None =>
        service (modify (set_pool false)) ;;
        service (logger_info "Database pool closed" [])
    end
  else host_ret tt.

(** *** index.js *)

(** [main], its call of [startPolling] followed for at most
    [iterations] turns of the loop.  Of the metadata of the second log
    line only the region is a constant of the program. *)
Definition main (iterations : nat) : Host num unit :=
  service (logger_info "Starting Tenant OpenSearch Provisioning Service" []) ;;
  service (logger_info "Environment" [("region", JStr "us-east-1")]) ;;
  host_try_catch
    (service (logger_info "Initializing database connection" []) ;;
     initializeDatabase ;;
     service (logger_info "Database initialized successfully" []) ;;
     service (logger_info "Starting SQS message polling" []) ;;
     service (startPolling env (processTenantMessage env) iterations) ;;
     host_ret tt)
    (fun error =>
       service (logger_error "Fatal error in main process"
                  [("error", JStr (JsError.message error))]) ;;
       host_emit (ProcessExit 1)).

(** [shutdown], the handler of SIGTERM and SIGINT. *)
Definition shutdown (signal : string) : Host num unit :=
  service (logger_info ("Received " ++ signal ++ ", starting graceful shutdown") []) ;;
  host_try_catch
    (service stopPolling ;;
     service (delay 5000%N) ;;
     closeDatabase ;;
     service (logger_info "Graceful shutdown completed" []) ;;
     host_emit (ProcessExit 0))
    (fun error =>
       service (logger_error "Error during shutdown"
                  [("error", JStr (JsError.message error))]) ;;
       host_emit (ProcessExit 1)).

End Lifecycle.

(* ================================================================== *)
(** ** Concrete scenarios *)
(* ================================================================== *)

Module Scenario.

(** A runtime for concrete runs: integer-valued numbers, and a
    [JSON.parse] known on the listed texts (any other text is taken to be
    malformed). *)
Definition parse_listed (listed : list (string * JsValue Z)) (text : string)
  : Completion (JsValue Z) :=
  match find (fun entry => fst entry =? text) listed with
  | Some (_, value) => Normal value
  | None => Throw (SyntaxError "Unexpected token in JSON")
  end.

Definition runtime (listed : list (string * JsValue Z)) : JsRuntime Z := {|
  Number_ToBoolean := fun z => negb (Z.eqb z 0);
  Number_ToString := fun z => NilZero.string_of_int (Z.to_int z);
  Number_of_nat := Z.of_nat;
  JSON_parse := parse_listed listed
|}.

Definition dq : string := String (ascii_of_nat 34) EmptyString.

Definition json_member (key value : string) : string :=
  dq ++ key ++ dq ++ ":" ++ dq ++ value ++ dq.

Definition event_text (tenant_id tenant_slug timestamp : string) : string :=
  "{" ++ json_member "tenant_id" tenant_id ++ "," ++
  json_member "tenant_slug" tenant_slug ++ "," ++
  json_member "timestamp" timestamp ++ "}".

Definition event (tenant_id tenant_slug timestamp : string) : JsValue Z :=
  JObj [("tenant_id", JStr tenant_id); ("tenant_slug", JStr tenant_slug);
        ("timestamp", JStr timestamp)].

Definition acme_id : string := "11111111-1111-1111-1111-111111111111".

(** The event of the specification's example, one whose slug differs
    from the stored one, one with an empty timestamp, and the text
    [null]. *)
Definition acme_text : string :=
  event_text acme_id "acme-corp" "2025-01-01T00:00:00Z".
Definition acme_event : JsValue Z :=
  event acme_id "acme-corp" "2025-01-01T00:00:00Z".
Definition renamed_text : string :=
  event_text acme_id "other-name" "2025-01-01T00:00:00Z".
Definition renamed_event : JsValue Z :=
  event acme_id "other-name" "2025-01-01T00:00:00Z".
Definition untimed_text : string := event_text acme_id "acme-corp" "".
Definition untimed_event : JsValue Z := event acme_id "acme-corp" "".

Definition listed : list (string * JsValue Z) :=
  [(acme_text, acme_event); (renamed_text, renamed_event);
   (untimed_text, untimed_event); ("null", JNull)].

#[global] Instance rt : JsRuntime Z := runtime listed.

Definition delivery (body : string) : SqsMessage.t :=
  SqsMessage.mk "msg-1" "receipt-1" body.

Definition acme (status : option string) (arn : option string)
  (opensearch_status : option string) : Tenant.t :=
  Tenant.mk acme_id "acme-corp" "Acme Corp" status arn opensearch_status 0.

Definition other_tenant : Tenant.t :=
  Tenant.mk "22222222-2222-2222-2222-222222222222" "globex" "Globex"
            (Some "active") None (Some "initializing") 0.

(** A world with the pool initialised, the given row for Acme, and one
    message in the queue. *)
Definition world (row : Tenant.t) (body : string) : World :=
  mkWorld true [row; other_tenant] None [delivery body] true 0.

Definition fresh : Tenant.t := acme (Some "active") None (Some "initializing").
Definition ready : Tenant.t :=
  acme (Some "active") (Some "arn:aws:aoss:us-east-1:625867133463:collection/abc")
       (Some "ready").

Definition acme_collection (status : string) : Collection.t :=
  Collection.mk "accreda-acme-corp" status
    "arn:aws:aoss:us-east-1:625867133463:collection/abc"
    (if status =? "ACTIVE" then Some "https://abc.us-east-1.aoss.amazonaws.com"
     else None).

(** How a provider answers when nothing goes wrong: creation calls
    succeed, and a status query reports what [status_at n] says for the
    [n]-th outbound call. *)
Definition answer (status_at : nat -> string) (n : nat) (cmd : AossCommand Z)
  : Completion AossResponse :=
  match cmd with
  | CreateCollectionCommand _ _ _ _ =>
      Normal (mkAossResponse (Some (acme_collection "CREATING")) None)
  | BatchGetCollectionCommand _ =>
      Normal (mkAossResponse None (Some [acme_collection (status_at n)]))
  | _ => Normal (mkAossResponse None None)
  end.

Definition no_fault : nat -> option JsError.t := fun _ => None.

(** The provider reports ACTIVE at once. *)
Definition healthy : Env Z := mkEnv no_fault (answer (fun _ => "ACTIVE")) no_fault.

(** The provider reports FAILED at every status query. *)
Definition failing : Env Z := mkEnv no_fault (answer (fun _ => "FAILED")) no_fault.

(** The provider reports FAILED at the status query that is outbound
    call number [n], and ACTIVE afterwards. *)
Definition failing_once (n : nat) : Env Z :=
  mkEnv no_fault
        (answer (fun k => if (k =? n)%nat then "FAILED" else "ACTIVE"))
        no_fault.

Definition conflict : JsError.t :=
  JsError.mk "ConflictException" "Resource already exists".

(** Everything was created by an earlier attempt: every creation call
    is answered with ConflictException, the collection is ACTIVE. *)
Definition already_created : Env Z :=
  mkEnv no_fault
        (fun n cmd =>
           match cmd with
           | BatchGetCollectionCommand _ => answer (fun _ => "ACTIVE") n cmd
           | _ => Throw conflict
           end)
        no_fault.

Definition timeout : JsError.t :=
  JsError.mk "Error" "timeout exceeded when trying to connect".

(** The first call to PostgreSQL fails, the later ones succeed. *)
Definition db_hiccup : Env Z :=
  mkEnv (fun n => if (n =? 0)%nat then Some timeout else None)
        (answer (fun _ => "ACTIVE")) no_fault.

Definition throttled : JsError.t :=
  JsError.mk "ThrottlingException" "Rate exceeded".

(** The queue refuses every call. *)
Definition queue_down : Env Z :=
  mkEnv no_fault (answer (fun _ => "ACTIVE")) (fun _ => Some throttled).

Definition access_denied : JsError.t :=
  JsError.mk "AccessDeniedException" "User is not authorized".

(** The provider refuses every call. *)
Definition denied : Env Z :=
  mkEnv no_fault (fun _ _ => Throw access_denied) no_fault.

Definition unreachable : JsError.t :=
  JsError.mk "TimeoutError" "socket hang up".

(** The provider cannot be reached at outbound call number [n]; it
    reports ACTIVE afterwards. *)
Definition unreachable_once (n : nat) : Env Z :=
  mkEnv no_fault
        (fun k cmd =>
           if (k =? n)%nat then Throw unreachable
           else answer (fun _ => "ACTIVE") k cmd)
        no_fault.

(** A world in which [initializeDatabase] has not run. *)
Definition cold (row : Tenant.t) (body : string) : World :=
  mkWorld false [row; other_tenant] None [delivery body] true 0.

End Scenario.

(* ================================================================== *)
(** ** Vocabulary of the properties *)
(* ================================================================== *)

Section Vocabulary.
Context {num : Type} `{JsRuntime num}.

(** Every event a computation emits satisfies [P], whatever the state
    it starts in. *)
Definition emits {A} (P : Event num -> Prop) (m : M num A) : Prop :=
  forall w, Forall P (emitted (m w)).

(** A computation started in a state satisfying [I] ends in one. *)
Definition preserves {A} (I : World -> Prop) (m : M num A) : Prop :=
  forall w, I w -> I (final (m w)).

(** State properties that do not depend on the call counter. *)
Definition ignores_clock (I : World -> Prop) : Prop :=
  forall w n, I w -> I (set_clock n w).

Definition is_log (ev : Event num) : bool :=
  match ev with Log _ _ _ => true | _ => false end.
Definition is_aoss (ev : Event num) : bool :=
  match ev with AossSend _ => true | _ => false end.
Definition is_sqs (ev : Event num) : bool :=
  match ev with SqsSend _ => true | _ => false end.
Definition is_sleep (ev : Event num) : bool :=
  match ev with Sleep _ => true | _ => false end.

(** The status queries among the events. *)
Definition is_status_query (ev : Event num) : bool :=
  match ev with AossSend (BatchGetCollectionCommand _) => true | _ => false end.

(** The statements that write to the tenant table. *)
Definition is_write (ev : Event num) : bool :=
  match ev with
  | PgQuery (UpdateTenantOpenSearch _ _ _)
  | PgQuery (UpdateOpenSearchStatus _ _) => true
  | _ => false
  end.

(** What the process does to the outside, the logger apart. *)
Definition outbound (evs : list (Event num)) : list (Event num) :=
  filter (fun ev => negb (is_log ev)) evs.

(** What it means for a string to match a pattern: it splits into one
    chunk per atom, each chunk made of characters of the atom's class
    and of a length within the atom's bounds. *)
Fixpoint all_in (c : ascii -> bool) (s : string) : bool :=
  match s with
  | EmptyString => true
  | String x s' => c x && all_in c s'
  end.

Inductive matches_atoms : list Atom -> string -> Prop :=
| matches_nil : matches_atoms [] ""
| matches_cons a r chunk rest :
    rmin a <= String.length chunk <= rmax a ->
    all_in (cls a) chunk = true ->
    matches_atoms r rest ->
    matches_atoms (a :: r) (chunk ++ rest).



(** The tenant states that [validateTenantForProvisioning] turns away,
    as the specification lists them. *)
Definition ineligible (tenant : option Tenant.t) : Prop :=
  match tenant with
  | None => True
  | Some t =>
      Tenant.status t <> Some "active"
      \/ (exists arn, Tenant.opensearch_arn t = Some arn /\ arn <> "")
      \/ Tenant.opensearch_status t = Some "ready"
  end.

Definition eligible (t : Tenant.t) : Prop :=
  Tenant.status t = Some "active"
  /\ (Tenant.opensearch_arn t = None \/ Tenant.opensearch_arn t = Some "")
  /\ Tenant.opensearch_status t <> Some "ready".

(** One row before and after: only the three columns the service
    writes may differ, and the resource status is either what it was or
    one of the two values the service writes. *)
Definition status_step (before after : Tenant.t) : Prop :=
  Tenant.id after = Tenant.id before
  /\ Tenant.slug after = Tenant.slug before
  /\ Tenant.name after = Tenant.name before
  /\ Tenant.status after = Tenant.status before
  /\ (Tenant.opensearch_status after = Tenant.opensearch_status before
      \/ Tenant.opensearch_status after = Some "ready"
      \/ Tenant.opensearch_status after = Some "failed").

(** The committed rows, and the rows of an open transaction, all stem
    from [rows0] by [status_step]. *)
Definition stems_from (rows0 : list Tenant.t) (w : World) : Prop :=
  Forall2 status_step rows0 (tenants w)
  /\ match txn w with
     | Some rows => Forall2 status_step rows0 rows
     | None => True
     end.

(** The statements as the service sends them: the commit writes
    'ready', the failure marking writes 'failed'. *)
Definition issued (stmt : SqlStmt num) : Prop :=
  match stmt with
  | UpdateTenantOpenSearch _ status _ => status = "ready"
  | UpdateOpenSearchStatus status _ => status = "failed"
  | _ => True
  end.

(** Which collection a provisioning command is about. *)
Definition about (collectionName : string) (cmd : AossCommand num) : Prop :=
  match cmd with
  | CreateSecurityPolicyCommand name type _ _ =>
      name = collectionName ++ "-" ++ type
  | CreateAccessPolicyCommand name _ _ _ => name = collectionName ++ "-access"
  | CreateCollectionCommand name _ _ _ => name = collectionName
  | BatchGetCollectionCommand names => names = [collectionName]
  end.

Definition policy_accepted (reply : Completion AossResponse) : Prop :=
  match reply with
  | Normal _ => True
  | Throw e => JsError.name e = "ConflictException"
  end.

(** The receive calls among the events. *)
Definition is_receive (ev : Event num) : bool :=
  match ev with SqsSend (ReceiveMessageCommand _ _ _) => true | _ => false end.


(** The rows that [WHERE id = $n] selects. *)
Definition matching (tenantId : JsValue num) (rows : list Tenant.t)
  : list Tenant.t :=
  filter (fun row => pg_eq tenantId (Tenant.id row)) rows.

(** The provider has answered a status query for [collectionName] with
    [collection] as the first entry. *)
Definition reported (env : Env num) (collectionName : string)
  (collection : Collection.t) : Prop :=
  exists n response rest,
    aoss_reply env n (BatchGetCollectionCommand [collectionName]) = Normal response
    /\ collectionDetails response = Some (collection :: rest).

(** The collection that an answer to a status query shows as ACTIVE, if
    it shows one: the first entry of the report, with that status. *)
Definition shown_active (reply : Completion AossResponse)
  : option Collection.t :=
  match reply with
  | Normal response =>
      match collectionDetails response with
      | Some (collection :: _) =>
          if Collection.status collection =? "ACTIVE" then Some collection
          else None
      | _ => None
      end
  | Throw _ => None
  end.

(** Every sleep lasts 30 seconds. *)
Definition is_thirty_seconds (ev : Event num) : Prop :=
  match ev with Sleep ms => ms = 30000%N | _ => True end.

(** No log line with the given text. *)
Definition quiet_about (text : string) (ev : Event num) : Prop :=
  forall level meta, ev <> Log level text meta.

(** The commands of [createCollection], in the order it sends them: the
    ones built by [createEncryptionPolicy] and [createNetworkPolicy],
    the creation of the collection, and the one built by
    [createDataAccessPolicy]. *)
Definition encryptionCommand (collectionName : string) : AossCommand num :=
  CreateSecurityPolicyCommand (collectionName ++ "-encryption") "encryption"
    (encryptionPolicy collectionName)
    ("Encryption policy for tenant collection " ++ collectionName).

Definition networkCommand (collectionName : string) : AossCommand num :=
  CreateSecurityPolicyCommand (collectionName ++ "-network") "network"
    (networkPolicy collectionName)
    ("Network policy for tenant collection " ++ collectionName).

Definition creationCommand (collectionName tenantSlug : string)
  (tenantId : JsValue num) (tenantIdText : string) : AossCommand num :=
  CreateCollectionCommand collectionName "SEARCH"
    ("OpenSearch collection for tenant " ++ tenantSlug ++ " (" ++
     tenantIdText ++ ") - configured for Bedrock knowledge base")
    [("TenantId", tenantId);
     ("TenantSlug", JStr tenantSlug);
     ("Service", JStr "Accreda");
     ("ManagedBy", JStr "tenant-opensearch-service");
     ("BedrockCompatible", JStr "true")].

Definition accessCommand (collectionName tenantIdText : string)
  : AossCommand num :=
  CreateAccessPolicyCommand (collectionName ++ "-access") "data"
    (dataAccessPolicy collectionName)
    ("Data access policy for tenant " ++ tenantIdText ++
     " collection " ++ collectionName).

(** The events of the process: its log lines, what it does to the
    outside, its exits and its calls of the queue. *)
Definition is_host_log (ev : HostEvent num) : bool :=
  match ev with Service (Log _ _ _) => true | _ => false end.

Definition host_outbound (evs : list (HostEvent num)) : list (HostEvent num) :=
  filter (fun ev => negb (is_host_log ev)) evs.

Definition is_exit (ev : HostEvent num) : bool :=
  match ev with ProcessExit _ => true | _ => false end.

Definition is_host_sqs (ev : HostEvent num) : bool :=
  match ev with Service (SqsSend _) => true | _ => false end.

End Vocabulary.

(* ================================================================== *)
(** ** The monad's laws of motion *)
(* ================================================================== *)

Section MonadFacts.
Context {num : Type} `{JsRuntime num}.
Local Abbreviation M := (M num).

Lemma emits_ret {A} P (a : A) : emits P (ret a : M A).
Proof. intros w. constructor. Qed.

Lemma emits_throw {A} P e : emits P (throw e : M A).
Proof. intros w. constructor. Qed.

Lemma emits_lift {A} P (c : Completion A) : emits P (lift c : M A).
Proof. destruct c; [apply emits_ret | apply emits_throw]. Qed.

Lemma emits_emit (P : Event num -> Prop) ev : P ev -> emits P (emit ev).
Proof. intros Hev w. simpl. auto. Qed.

Lemma emits_get_world P : emits P (get_world : M World).
Proof. intros w. constructor. Qed.

Lemma emits_modify P f : emits P (modify f : M unit).
Proof. intros w. constructor. Qed.

Lemma emits_tick P : emits P (tick : M nat).
Proof. intros w. constructor. Qed.

Lemma emits_bind {A B} P (m : M A) (k : A -> M B) :
  emits P m -> (forall a, emits P (k a)) -> emits P (bind m k).
Proof.
  intros Hm Hk w. unfold bind. specialize (Hm w).
  destruct (m w) as [[a|e] w1 evs1]; cbn in *; auto.
  specialize (Hk a w1). destruct (k a w1) as [r w2 evs2]; cbn in *.
  apply Forall_app. split; assumption.
Qed.

Lemma emits_try_catch {A} P (m : M A) (h : JsError.t -> M A) :
  emits P m -> (forall e, emits P (h e)) -> emits P (try_catch m h).
Proof.
  intros Hm Hh w. unfold try_catch. specialize (Hm w).
  destruct (m w) as [[a|e] w1 evs1]; cbn in *; auto.
  specialize (Hh e w1). destruct (h e w1) as [r w2 evs2]; cbn in *.
  apply Forall_app. split; assumption.
Qed.

Lemma emits_try_finally {A} P (m : M A) (f : M unit) :
  emits P m -> emits P f -> emits P (try_finally m f).
Proof.
  intros Hm Hf w. unfold try_finally. specialize (Hm w).
  destruct (m w) as [r w1 evs1]; cbn in *.
  specialize (Hf w1). destruct (f w1) as [[u|e] w2 evs2]; cbn in *;
    apply Forall_app; split; assumption.
Qed.

Lemma preserves_ret {A} I (a : A) : preserves I (ret a : M A).
Proof. intros w Hw. exact Hw. Qed.

Lemma preserves_throw {A} I e : preserves I (throw e : M A).
Proof. intros w Hw. exact Hw. Qed.

Lemma preserves_lift {A} I (c : Completion A) : preserves I (lift c : M A).
Proof. destruct c; [apply preserves_ret | apply preserves_throw]. Qed.

Lemma preserves_emit I (ev : Event num) : preserves I (emit ev).
Proof. intros w Hw. exact Hw. Qed.

Lemma preserves_get_world I : preserves I (get_world : M World).
Proof. intros w Hw. exact Hw. Qed.

Lemma preserves_tick I : ignores_clock I -> preserves I (tick : M nat).
Proof. intros HI w Hw. apply HI, Hw. Qed.

Lemma preserves_bind {A B} I (m : M A) (k : A -> M B) :
  preserves I m -> (forall a, preserves I (k a)) -> preserves I (bind m k).
Proof.
  intros Hm Hk w Hw. unfold bind. specialize (Hm w Hw).
  destruct (m w) as [[a|e] w1 evs1]; cbn in *; auto.
  specialize (Hk a w1 Hm). destruct (k a w1) as [r w2 evs2]; exact Hk.
Qed.

Lemma preserves_try_catch {A} I (m : M A) (h : JsError.t -> M A) :
  preserves I m -> (forall e, preserves I (h e)) -> preserves I (try_catch m h).
Proof.
  intros Hm Hh w Hw. unfold try_catch. specialize (Hm w Hw).
  destruct (m w) as [[a|e] w1 evs1]; cbn in *; auto.
  specialize (Hh e w1 Hm). destruct (h e w1) as [r w2 evs2]; exact Hh.
Qed.

Lemma preserves_try_finally {A} I (m : M A) (f : M unit) :
  preserves I m -> preserves I f -> preserves I (try_finally m f).
Proof.
  intros Hm Hf w Hw. unfold try_finally. specialize (Hm w Hw).
  destruct (m w) as [r w1 evs1]; cbn in *.
  specialize (Hf w1 Hm). destruct (f w1) as [[u|e] w2 evs2]; exact Hf.
Qed.

End MonadFacts.

(* ================================================================== *)
(** ** Proof automation *)
(* ================================================================== *)

(** Run the monad's combinators on the current goal. *)
Ltac run :=
  cbv beta iota zeta delta
      [bind try_catch try_finally ret throw lift emit get_world modify tick
       result final emitted logger_info logger_warn logger_error logger_debug
       delay negb orb andb].

(** Read fields of updated states. *)
Ltac world :=
  unfold visible, store in *;
  cbn [pool tenants txn queue isPolling clock set_pool set_tenants set_txn
       set_queue set_isPolling set_clock app] in *.

(** Decompose a footprint goal along the structure of the computation;
    calls of functions that have a footprint lemma are left to [auto]. *)
Ltac footprint :=
  repeat match goal with
  | |- emits _ (ret _) => apply emits_ret
  | |- emits _ (throw _) => apply emits_throw
  | |- emits _ (lift _) => apply emits_lift
  | |- emits _ get_world => apply emits_get_world
  | |- emits _ (modify _) => apply emits_modify
  | |- emits _ tick => apply emits_tick
  | |- emits _ (emit _) => apply emits_emit
  | |- emits _ (logger_debug _ _) => apply emits_emit
  | |- emits _ (logger_info _ _) => apply emits_emit
  | |- emits _ (logger_warn _ _) => apply emits_emit
  | |- emits _ (logger_error _ _) => apply emits_emit
  | |- emits _ (delay _) => apply emits_emit
  | |- emits _ (bind _ _) => apply emits_bind; [|intros ?]
  | |- emits _ (try_catch _ _) => apply emits_try_catch; [|intros ?]
  | |- emits _ (try_finally _ _) => apply emits_try_finally
  | |- emits _ (if ?b then _ else _) => destruct b
  | |- emits _ (match ?x with _ => _ end) => destruct x
  | |- emits _ (let _ := _ in _) => cbv zeta
  end.

(** The same for a state property. *)
Ltac frame :=
  repeat match goal with
  | |- preserves _ (ret _) => apply preserves_ret
  | |- preserves _ (throw _) => apply preserves_throw
  | |- preserves _ (lift _) => apply preserves_lift
  | |- preserves _ get_world => apply preserves_get_world
  | |- preserves _ tick => apply preserves_tick; assumption
  | |- preserves _ (emit _) => apply preserves_emit
  | |- preserves _ (logger_debug _ _) => apply preserves_emit
  | |- preserves _ (logger_info _ _) => apply preserves_emit
  | |- preserves _ (logger_warn _ _) => apply preserves_emit
  | |- preserves _ (logger_error _ _) => apply preserves_emit
  | |- preserves _ (delay _) => apply preserves_emit
  | |- preserves _ (bind _ _) => apply preserves_bind; [|intros ?]
  | |- preserves _ (try_catch _ _) => apply preserves_try_catch; [|intros ?]
  | |- preserves _ (try_finally _ _) => apply preserves_try_finally
  | |- preserves _ (if ?b then _ else _) => destruct b
  | |- preserves _ (match ?x with _ => _ end) => destruct x
  | |- preserves _ (let _ := _ in _) => cbv zeta
  end.

(** A run of [updateTenantOpenSearch] that ends in an error although
    the store accepted call number [k]: impossible. *)
Ltac thrown k :=
  (split; [first [reflexivity | assumption]|]); (split; [reflexivity|]);
  intros _; (split; [eexists; reflexivity|]);
  let Hnf := fresh "Hnf" in
  intros _ Hnf; specialize (Hnf k ltac:(lia)); cbn [Nat.add] in Hnf;
  congruence.

(** Run the combinators of the process. *)
Ltac host_run :=
  cbv beta iota zeta delta
      [host_bind host_try_catch host_try_finally host_ret host_throw host_emit
       service host_result host_final host_emitted
       bind try_catch try_finally ret throw lift emit get_world modify tick
       result final emitted logger_info logger_warn logger_error logger_debug
       delay negb orb andb map].

(** An error from which [signer_message] reads a message is the error
    [getFreshToken] raises for that message. *)
Lemma after_prefix_spec prefix : forall text rest,
  after_prefix prefix text = Some rest -> text = (prefix ++ rest)%string.
Proof.
  induction prefix as [|a prefix IH]; intros [|b text] rest; cbn;
    try discriminate; try (intros [= ->]; reflexivity).
  destruct (Ascii.eqb_spec a b) as [->|]; [|discriminate].
  intros Hrest. rewrite (IH _ _ Hrest). reflexivity.
Qed.

Lemma signer_message_wrapped e message :
  signer_message e = Some message -> token_generation_failed message = e.
Proof.
  destruct e as [name text]. unfold signer_message, token_generation_failed, Error.
  cbn [JsError.name JsError.message].
  destruct (String.eqb_spec name "Error") as [->|]; [|discriminate].
  intros Hrest. apply after_prefix_spec in Hrest. rewrite Hrest. reflexivity.
Qed.

(** [pool.connect()] has ended with the error [e]: tell the failure of
    the signer from the failure of the connection. *)
Ltac connect_failed e :=
  let message := fresh "message" in
  let Hsigner := fresh "Hsigner" in
  destruct (signer_message e) as [message|] eqn:Hsigner;
  [apply signer_message_wrapped in Hsigner; subst e|];
  run;
  [change (JsError.message (Error message)) with message|].

(* ================================================================== *)
(** ** The regular expressions *)
(* ================================================================== *)

Lemma consume_spec a continue s : forall cnt,
  consume a continue cnt s = true <->
  exists chunk rest,
    s = chunk ++ rest
    /\ all_in (cls a) chunk = true
    /\ rmin a <= cnt + String.length chunk
    /\ (chunk = "" \/ cnt + String.length chunk <= rmax a)
    /\ continue rest = true.
Proof.
  induction s as [|c s IH]; intros cnt; cbn [consume].
  - destruct (Nat.leb_spec (rmin a) cnt) as [Hmin|Hmin].
    + destruct (continue "") eqn:Hk.
      * split; [intros _|reflexivity].
        exists "", "". cbn. repeat split; auto. lia.
      * split; [discriminate|].
        intros (chunk & rest & Hs & _ & _ & _ & Hrest).
        destruct chunk; [|discriminate]. cbn in Hs. subst rest. congruence.
    + split; [discriminate|].
      intros (chunk & rest & Hs & _ & Hlen & _ & _).
      destruct chunk; [|discriminate]. cbn in Hlen. lia.
  - destruct (if (rmin a <=? cnt)%nat then continue (String c s) else false) eqn:Hstop.
    + split; [intros _|reflexivity].
      destruct (Nat.leb_spec (rmin a) cnt) as [Hmin|Hmin]; [|discriminate].
      exists "", (String c s). cbn. repeat split; auto. lia.
    + destruct ((cnt <? rmax a)%nat && cls a c) eqn:Htake.
      * apply andb_true_iff in Htake. destruct Htake as [Hmax Hc].
        apply Nat.ltb_lt in Hmax. rewrite IH. split.
        -- intros (chunk & rest & -> & Hall & Hlen & Hbound & Hrest).
           exists (String c chunk), rest. cbn. rewrite Hc, Hall.
           repeat split; auto; try lia.
           right. destruct Hbound as [->|Hbound]; cbn in *; lia.
        -- intros (chunk & rest & Hs & Hall & Hlen & Hbound & Hrest).
           destruct chunk as [|c' chunk].
           ++ cbn in Hs. subst rest.
              destruct (Nat.leb_spec (rmin a) cnt) as [Hmin|Hmin];
                [congruence | cbn in Hlen; lia].
           ++ cbn in Hs. injection Hs as <- ->. cbn in Hall, Hlen.
              apply andb_true_iff in Hall. destruct Hall as [_ Hall].
              exists chunk, rest. repeat split; auto; try lia.
              right. destruct Hbound as [Hbound|Hbound]; [discriminate|].
              cbn in Hbound. lia.
      * split; [discriminate|].
        intros (chunk & rest & Hs & Hall & Hlen & Hbound & Hrest).
        destruct chunk as [|c' chunk].
        -- cbn in Hs. subst rest.
           destruct (Nat.leb_spec (rmin a) cnt) as [Hmin|Hmin];
             [congruence | cbn in Hlen; lia].
        -- cbn in Hs. injection Hs as <- ->. cbn in Hall.
           apply andb_true_iff in Hall. destruct Hall as [Hc _].
           destruct Hbound as [Hbound|Hbound]; [discriminate|]. cbn in Hbound.
           apply andb_false_iff in Htake. destruct Htake as [Hmax|Hc'].
           ++ apply Nat.ltb_ge in Hmax. lia.
           ++ congruence.
Qed.

(** The matcher decides [matches_atoms]. *)
Lemma regex_match_correct r :
  Forall (fun a => rmin a <= rmax a) r ->
  forall s, regex_match r s = true <-> matches_atoms r s.
Proof.
  induction 1 as [|a r Ha _ IH]; intros s; cbn [regex_match].
  - destruct s; split; try discriminate; try constructor.
    intros Hm. inversion Hm.
  - rewrite consume_spec. split.
    + intros (chunk & rest & -> & Hall & Hlen & Hbound & Hrest).
      constructor; auto; [|apply IH; exact Hrest].
      cbn in *. destruct Hbound as [->|Hbound]; cbn in *; lia.
    + intros Hm. inversion Hm as [|a' r' chunk rest Hlen Hall Hrest]; subst.
      exists chunk, rest. repeat split; auto; try (cbn; lia).
      apply IH. exact Hrest.
Qed.

Lemma patterns_well_formed :
  Forall (fun a => rmin a <= rmax a) uuidRegex
  /\ Forall (fun a => rmin a <= rmax a) slugRegex.
Proof. split; repeat constructor. Qed.

Lemma one_char (c : ascii -> bool) chunk :
  1 <= String.length chunk <= 1 -> all_in c chunk = true ->
  exists x, chunk = String x "" /\ c x = true.
Proof.
  destruct chunk as [|x [|y chunk]]; cbn; intros Hlen Hall; try lia.
  exists x. rewrite andb_true_r in Hall. auto.
Qed.

(** The slug pattern spelled out: three to sixty-four characters, all
    lower-case letters, digits or hyphens, the first and the last not a
    hyphen. *)
Lemma slugRegex_spec s :
  regex_match slugRegex s = true <->
  exists first middle last,
    s = String first (middle ++ String last "")
    /\ lower_alnum first = true
    /\ all_in lower_alnum_dash middle = true
    /\ 1 <= String.length middle <= 62
    /\ lower_alnum last = true.
Proof.
  rewrite (regex_match_correct slugRegex (proj2 patterns_well_formed)).
  unfold slugRegex, times. split.
  - intros Hm.
    inversion Hm as [|a1 r1 c1 s1 Hl1 Ha1 Hm1]; subst. clear Hm.
    inversion Hm1 as [|a2 r2 c2 s2 Hl2 Ha2 Hm2]; subst. clear Hm1.
    inversion Hm2 as [|a3 r3 c3 s3 Hl3 Ha3 Hm3]; subst. clear Hm2.
    inversion Hm3; subst. clear Hm3. cbn in *.
    destruct (one_char _ _ Hl1 Ha1) as (first & -> & Hfirst).
    destruct (one_char _ _ Hl3 Ha3) as (last & -> & Hlast).
    exists first, c2, last. cbn. repeat split; auto; lia.
  - intros (first & middle & last & -> & Hfirst & Hmiddle & Hlen & Hlast).
    change (String first (middle ++ String last ""))
      with (String first "" ++ (middle ++ (String last "" ++ ""))).
    constructor; [cbn; lia | cbn; rewrite Hfirst; reflexivity |].
    constructor; [cbn; lia | exact Hmiddle |].
    constructor; [cbn; lia | cbn; rewrite Hlast; reflexivity | constructor].
Qed.

Example uuid_ok :
  regex_match uuidRegex "11111111-1111-1111-1111-111111111111" = true.
Proof. reflexivity. Qed.

Example uuid_upper_ok :
  regex_match uuidRegex "550E8400-E29B-41D4-A716-446655440000" = true.
Proof. reflexivity. Qed.

Example uuid_short :
  regex_match uuidRegex "11111111-1111-1111-1111-11111111111" = false.
Proof. reflexivity. Qed.

Example slug_ok : regex_match slugRegex "acme-corp" = true.
Proof. reflexivity. Qed.

Example slug_two_chars : regex_match slugRegex "ab" = false.
Proof. reflexivity. Qed.

Example slug_trailing_dash : regex_match slugRegex "acme-" = false.
Proof. reflexivity. Qed.

Example slug_upper : regex_match slugRegex "Acme" = false.
Proof. reflexivity. Qed.

(* ================================================================== *)
(** ** Payload validation (sqsService.js, validateMessage) *)
(* ================================================================== *)

Section ValidationFacts.
Context {num : Type} `{JsRuntime num}.

Lemma typeof_object (v : JsValue num) :
  ToBoolean v = true -> typeof v = "object" ->
  (exists props, v = JObj props) \/ (exists elems, v = JArr elems).
Proof.
  destruct v; cbn; intros; try discriminate; eauto.
Qed.

(** Validation only logs. *)
Lemma validateMessage_pure (payload : JsValue num) (w : World) :
  final (validateMessage payload w) = w.
Proof.
  assert (Hframe : preserves (fun w' => w' = w) (validateMessage payload)).
  { unfold validateMessage, requiredFields. cbn [checkRequiredFields]. frame. }
  apply Hframe. reflexivity.
Qed.

Lemma validateMessage_logs (payload : JsValue num) :
  emits (fun ev => is_log ev = true) (validateMessage payload).
Proof.
  unfold validateMessage, requiredFields. cbn [checkRequiredFields].
  footprint; reflexivity.
Qed.

(** What [validateMessage] has checked when it returns [true]. *)
Lemma validateMessage_accepted (payload : JsValue num) (w : World) :
  result (validateMessage payload w) = Normal true ->
  exists props tenant_id tenant_slug timestamp,
    payload = JObj props
    /\ lookup_prop props "tenant_id" = Some tenant_id
    /\ lookup_prop props "tenant_slug" = Some tenant_slug
    /\ lookup_prop props "timestamp" = Some timestamp
    /\ ToBoolean tenant_id = true
    /\ ToBoolean tenant_slug = true
    /\ ToBoolean timestamp = true
    /\ test uuidRegex tenant_id = Normal true
    /\ test slugRegex tenant_slug = Normal true.
Proof.
  unfold validateMessage, requiredFields.
  destruct (ToBoolean payload) eqn:Htruthy; run; [|discriminate].
  destruct (typeof payload =? "object") eqn:Hobj; run; [|discriminate].
  apply String.eqb_eq in Hobj.
  destruct (typeof_object _ Htruthy Hobj) as [[props ->]|[elems ->]].
  2:{ cbn [checkRequiredFields Get ToBoolean]. run. discriminate. }
  cbn [checkRequiredFields Get].
  destruct (lookup_prop props "tenant_id") as [tid|] eqn:Hid; run;
    [|cbn [ToBoolean]; run; discriminate].
  destruct (ToBoolean tid) eqn:Htid; run; [|discriminate].
  destruct (lookup_prop props "tenant_slug") as [slug|] eqn:Hslug; run;
    [|cbn [ToBoolean]; run; discriminate].
  destruct (ToBoolean slug) eqn:Htslug; run; [|discriminate].
  destruct (lookup_prop props "timestamp") as [ts|] eqn:Hts; run;
    [|cbn [ToBoolean]; run; discriminate].
  destruct (ToBoolean ts) eqn:Htts; run; [|discriminate].
  destruct (test uuidRegex tid) as [[|]|] eqn:Hu; run; try discriminate.
  destruct (test slugRegex slug) as [[|]|] eqn:Hs; run; try discriminate.
  intros _. exists props, tid, slug, ts. repeat split; auto.
Qed.


End ValidationFacts.


(* ================================================================== *)
(** ** The tenant record store (databaseService.js) *)
(* ================================================================== *)

Section DatabaseFacts.
Context {num : Type} `{JsRuntime num}.
Variable env : Env num.

(** *** What the record store emits *)

Section StoreFootprint.
Variable P : Event num -> Prop.
Hypothesis P_log : forall level text meta, P (Log level text meta).
Hypothesis P_connect : P PgConnect.
Hypothesis P_release : P PgRelease.

Lemma emits_run_sql stmt : emits P (run_sql stmt).
Proof. intros w. destruct stmt; constructor. Qed.

Lemma emits_query stmt : P (PgQuery stmt) -> emits P (query env stmt).
Proof.
  intros. unfold query, pool_connect, getFreshToken, signer_getAuthToken,
    originalConnect, client_query, client_release.
  footprint; auto using emits_run_sql.
Qed.

Lemma emits_getTenant tenantId :
  P (PgQuery (SelectTenant tenantId)) -> emits P (getTenant env tenantId).
Proof.
  intros. unfold getTenant, logger_debug, logger_warn, logger_error.
  footprint; auto using emits_query.
Qed.

Lemma emits_validateTenantForProvisioning tenant :
  emits P (validateTenantForProvisioning tenant).
Proof.
  unfold validateTenantForProvisioning, logger_warn. footprint; auto.
Qed.

Lemma emits_updateTenantOpenSearch tenantId arn status :
  P (PgQuery Begin) -> P (PgQuery Commit) -> P (PgQuery Rollback) ->
  P (PgQuery (UpdateTenantOpenSearch arn status tenantId)) ->
  emits P (updateTenantOpenSearch env tenantId arn status).
Proof.
  intros. unfold updateTenantOpenSearch, getClient, pool_connect,
    getFreshToken, signer_getAuthToken, originalConnect, client_query,
    client_release, logger_info, logger_error.
  footprint; auto using emits_run_sql.
Qed.

Lemma emits_markTenantOpenSearchFailed tenantId errorMessage :
  P (PgQuery (UpdateOpenSearchStatus "failed" tenantId)) ->
  emits P (markTenantOpenSearchFailed env tenantId errorMessage).
Proof.
  intros. unfold markTenantOpenSearchFailed, logger_info, logger_warn, logger_error.
  footprint; auto using emits_query.
Qed.

End StoreFootprint.

(** *** What the record store leaves alone *)

Section StoreFrame.
Variable I : World -> Prop.
Hypothesis I_clock : ignores_clock I.
Hypothesis I_release : forall w, I w -> I (set_txn None w).

Lemma preserves_query stmt :
  preserves I (run_sql stmt) -> preserves I (query env stmt).
Proof.
  intros. unfold query, pool_connect, getFreshToken, signer_getAuthToken,
    originalConnect, client_query, client_release.
  frame; auto.
Qed.

Lemma preserves_select tenantId :
  preserves I (run_sql (num:=num) (SelectTenant tenantId)).
Proof. intros w Hw. exact Hw. Qed.

Lemma preserves_getTenant tenantId : preserves I (getTenant env tenantId).
Proof.
  unfold getTenant, logger_debug, logger_warn, logger_error.
  frame; auto using preserves_query, preserves_select.
Qed.

Lemma preserves_validateTenantForProvisioning tenant :
  preserves I (validateTenantForProvisioning (num:=num) tenant).
Proof. unfold validateTenantForProvisioning, logger_warn. frame. Qed.

Lemma preserves_updateTenantOpenSearch tenantId arn status :
  preserves I (run_sql (num:=num) Begin) ->
  preserves I (run_sql (num:=num) Commit) ->
  preserves I (run_sql (num:=num) Rollback) ->
  preserves I (run_sql (UpdateTenantOpenSearch arn status tenantId)) ->
  preserves I (updateTenantOpenSearch env tenantId arn status).
Proof.
  intros. unfold updateTenantOpenSearch, getClient, pool_connect,
    getFreshToken, signer_getAuthToken, originalConnect, client_query,
    client_release, logger_info, logger_error.
  frame; auto.
Qed.

Lemma preserves_markTenantOpenSearchFailed tenantId errorMessage :
  preserves I (run_sql (UpdateOpenSearchStatus "failed" tenantId)) ->
  preserves I (markTenantOpenSearchFailed env tenantId errorMessage).
Proof.
  intros. unfold markTenantOpenSearchFailed, logger_info, logger_warn, logger_error.
  frame; auto using preserves_query.
Qed.

End StoreFrame.

(** The failure marking never raises. *)
Lemma markTenantOpenSearchFailed_returns tenantId errorMessage w :
  result (markTenantOpenSearchFailed env tenantId errorMessage w) = Normal tt.
Proof.
  unfold markTenantOpenSearchFailed, try_catch.
  destruct (bind _ _ w) as [[[]|e] w1 evs1]; [reflexivity|].
  unfold logger_error, emit. reflexivity.
Qed.

(** When the store accepts it, the failure marking sets the status of
    the rows with the given id to 'failed' and touches nothing else. *)
Lemma markTenantOpenSearchFailed_marks tenantId errorMessage w :
  pool w = true -> txn w = None ->
  pg_fault env (clock w) = None -> pg_fault env (S (clock w)) = None ->
  tenants (final (markTenantOpenSearchFailed env tenantId errorMessage w)) =
  map (fun row => if pg_eq tenantId (Tenant.id row)
                  then set_opensearch_status "failed" (S (S (clock w))) row
                  else row) (tenants w).
Proof.
  intros Hpool Htxn F0 F1.
  unfold markTenantOpenSearchFailed, query, pool_connect, getFreshToken,
    signer_getAuthToken, originalConnect, client_query, client_release,
    run_sql. run. rewrite Hpool. run. world.
  rewrite F0. run. world. rewrite F1. run. world. rewrite Htxn. reflexivity.
Qed.

(** *** Rows only move along [status_step] *)

Lemma status_step_refl row : status_step row row.
Proof. unfold status_step. auto 6. Qed.

Lemma status_step_trans a b c :
  status_step a b -> status_step b c -> status_step a c.
Proof.
  unfold status_step.
  intros (? & ? & ? & ? & Hab) (? & ? & ? & ? & Hbc).
  repeat split; try congruence.
  destruct Hbc as [Hbc|[Hbc|Hbc]]; auto.
  rewrite Hbc. exact Hab.
Qed.

Lemma status_step_ready arn now row :
  status_step row (set_opensearch arn "ready" now row).
Proof. unfold status_step. cbn. auto 7. Qed.

Lemma status_step_failed now row :
  status_step row (set_opensearch_status "failed" now row).
Proof. unfold status_step. cbn. auto 7. Qed.

Lemma Forall2_status_step_update rows0 rows (c : Tenant.t -> bool) f :
  (forall row, status_step row (f row)) ->
  Forall2 status_step rows0 rows ->
  Forall2 status_step rows0 (map (fun row => if c row then f row else row) rows).
Proof.
  intros Hf Hrows. induction Hrows as [|a b rows0 rows Hab _ IH]; cbn.
  - constructor.
  - constructor; [|exact IH].
    destruct (c b); [|exact Hab].
    eapply status_step_trans; [exact Hab | apply Hf].
Qed.

Lemma Forall2_status_step_refl rows : Forall2 status_step rows rows.
Proof. induction rows; constructor; auto using status_step_refl. Qed.

Lemma stems_from_clock rows0 : ignores_clock (stems_from rows0).
Proof. intros w n Hw. exact Hw. Qed.

Lemma stems_from_release rows0 w :
  stems_from rows0 w -> stems_from rows0 (set_txn None w).
Proof. intros [Hrows _]. split; [exact Hrows | exact I]. Qed.

(** Every statement the service sends keeps the rows within reach of
    [status_step], provided the only statuses written are 'ready' by the
    commit and 'failed' by the failure marking. *)
Lemma stems_from_run_sql rows0 (stmt : SqlStmt num) :
  issued stmt -> preserves (stems_from rows0) (run_sql stmt).
Proof.
  intros Hstmt w [Hrows Htxn]. unfold stems_from.
  destruct stmt as [id| | | |arn status id|status id]; cbn in Hstmt;
    unfold run_sql; run; world.
  - split; assumption.
  - split; [exact Hrows|]. destruct (txn w); assumption.
  - destruct (txn w) as [rows|] eqn:E; world; rewrite ?E; split; auto.
  - split; [exact Hrows | exact I].
  - subst status. destruct (txn w) as [rows|] eqn:E; world; rewrite ?E.
    + split; [exact Hrows|].
      apply Forall2_status_step_update; [|exact Htxn].
      intros row. apply status_step_ready.
    + split; [|exact I].
      apply Forall2_status_step_update; [|exact Hrows].
      intros row. apply status_step_ready.
  - subst status. destruct (txn w) as [rows|] eqn:E; world; rewrite ?E.
    + split; [exact Hrows|].
      apply Forall2_status_step_update; [|exact Htxn].
      intros row. apply status_step_failed.
    + split; [|exact I].
      apply Forall2_status_step_update; [|exact Hrows].
      intros row. apply status_step_failed.
Qed.

(** *** The commit *)

Lemma filter_none {A} (f : A -> bool) (l : list A) :
  (forall x, In x l -> f x = false) -> filter f l = [].
Proof.
  induction l as [|x l IH]; intros Hf; cbn; [reflexivity|].
  rewrite (Hf x (or_introl eq_refl)). apply IH. intros y Hy. apply Hf. right. exact Hy.
Qed.

Lemma update_rows_returned (f : Tenant.t -> Tenant.t) (tid : JsValue num) rows :
  (forall r, Tenant.id (f r) = Tenant.id r) ->
  filter (fun r => pg_eq tid (Tenant.id r))
         (map (fun r => if pg_eq tid (Tenant.id r) then f r else r) rows)
  = map f (filter (fun r => pg_eq tid (Tenant.id r)) rows).
Proof.
  intros Hid. induction rows as [|r rows IH]; cbn; [reflexivity|].
  destruct (pg_eq tid (Tenant.id r)) eqn:Hr.
  - rewrite Hid, Hr. cbn. f_equal. exact IH.
  - rewrite Hr. exact IH.
Qed.

(** C6: [updateTenantOpenSearch] runs its UPDATE between BEGIN and
    COMMIT on one client.  Started outside a transaction it ends outside
    one, and either returns the updated row with the update committed, or
    raises with the committed rows unchanged.  When no row has the given
    id it raises, and, the store accepting every statement, it sends
    ROLLBACK and raises 'Tenant not found or update failed'. *)
Theorem updateTenantOpenSearch_atomic tenantId opensearchArn status w :
  txn w = None ->
  let r := updateTenantOpenSearch env tenantId opensearchArn status w in
  let matching := filter (fun row => pg_eq tenantId (Tenant.id row)) (tenants w) in
  txn (final r) = None
  /\ match result r with
     | Normal updated =>
         exists now first rest,
           matching = first :: rest
           /\ updated = set_opensearch opensearchArn status now first
           /\ tenants (final r) =
              map (fun row => if pg_eq tenantId (Tenant.id row)
                              then set_opensearch opensearchArn status now row
                              else row) (tenants w)
           /\ outbound (emitted r) =
              [PgConnect; PgQuery Begin;
               PgQuery (UpdateTenantOpenSearch opensearchArn status tenantId);
               PgQuery Commit; PgRelease]
     | Throw e => tenants (final r) = tenants w
     end
  /\ (matching = [] ->
      (exists e, result r = Throw e)
      /\ (pool w = true ->
          (forall k, k < 5 -> pg_fault env (k + clock w) = None) ->
          result r = Throw tenant_not_found_or_update_failed
          /\ outbound (emitted r) =
             [PgConnect; PgQuery Begin;
              PgQuery (UpdateTenantOpenSearch opensearchArn status tenantId);
              PgQuery Rollback; PgQuery Rollback; PgRelease])).
Proof.
  intros Htxn. cbv zeta.
  unfold updateTenantOpenSearch, getClient, pool_connect, getFreshToken,
    signer_getAuthToken, originalConnect, client_query, client_release,
    run_sql. run.
  destruct (pool w) eqn:Hpool; run; world.
  2:{ split; [assumption|]. split; [reflexivity|]. intros _.
      split; [eexists; reflexivity|]. discriminate. }
  destruct (pg_fault env (clock w)) as [e0|] eqn:F0; run; world.
  { connect_failed e0; world; thrown 0. }
  destruct (pg_fault env (S (clock w))) as [e1|] eqn:F1; run; world.
  { destruct (pg_fault env (S (S (clock w)))) as [e2|] eqn:F2; run; world;
      thrown 1. }
  destruct (pg_fault env (S (S (clock w)))) as [e2|] eqn:F2; run; world;
    rewrite ?Htxn; world.
  { destruct (pg_fault env (S (S (S (clock w))))) as [e3|] eqn:F3; run; world;
      thrown 2. }
  rewrite update_rows_returned by reflexivity.
  destruct (filter (fun r => pg_eq tenantId (Tenant.id r)) (tenants w))
    as [|first rest] eqn:Hmatch; cbn [map]; run; world.
  - (* no row matches *)
    destruct (pg_fault env (S (S (S (clock w))))) as [e3|] eqn:F3; run; world.
    + destruct (pg_fault env (S (S (S (S (clock w)))))) as [e4|] eqn:F4; run; world.
      all: thrown 3.
    + destruct (pg_fault env (S (S (S (S (clock w)))))) as [e4|] eqn:F4; run; world.
      * thrown 4.
      * split; [reflexivity|]. split; [reflexivity|]. intros _.
        split; [eexists; reflexivity|]. intros _ _. split; reflexivity.
  - (* at least one row was updated *)
    destruct (pg_fault env (S (S (S (clock w))))) as [e3|] eqn:F3; run; world.
    + destruct (pg_fault env (S (S (S (S (clock w)))))) as [e4|] eqn:F4; run; world;
        (split; [reflexivity|]); (split; [reflexivity|]); discriminate.
    + split; [reflexivity|]. split; [|discriminate].
      exists (S (S (S (clock w)))), first, rest. repeat split; reflexivity.
Qed.

End DatabaseFacts.

(* ================================================================== *)
(** ** The provisioning client (opensearchService.js) *)
(* ================================================================== *)

Section ProvisioningFacts.
Context {num : Type} `{JsRuntime num}.
Variable env : Env num.

Section ProvisioningFootprint.
Variable P : Event num -> Prop.
Hypothesis P_log : forall level text meta, P (Log level text meta).
Hypothesis P_sleep : forall ms, P (Sleep ms).

Lemma emits_aoss_client_send cmd :
  P (AossSend cmd) -> emits P (aoss_client_send env cmd).
Proof. intros. unfold aoss_client_send. footprint; auto. Qed.

Lemma emits_pollAttempt name max attempt :
  P (AossSend (BatchGetCollectionCommand [name])) ->
  emits P (pollAttempt env name max attempt).
Proof.
  intros. unfold pollAttempt, logger_debug, logger_info, logger_error, delay.
  footprint; auto using emits_aoss_client_send.
Qed.

Lemma emits_pollAttempts name max attempts :
  P (AossSend (BatchGetCollectionCommand [name])) ->
  emits P (pollAttempts env name max attempts).
Proof.
  intros. induction attempts as [|attempt later IH]; cbn [pollAttempts].
  - footprint.
  - apply emits_bind; [apply emits_pollAttempt; assumption|].
    intros [c|]; [footprint | exact IH].
Qed.

Lemma emits_createCollection tenantId tenantSlug :
  (forall cmd, about (getCollectionName tenantSlug) cmd -> P (AossSend cmd)) ->
  emits P (createCollection env tenantId tenantSlug).
Proof.
  intros Habout.
  unfold createCollection, createEncryptionPolicy, createNetworkPolicy,
    createDataAccessPolicy, waitForCollectionActive, logger_info, logger_error.
  footprint; auto;
    try (apply emits_aoss_client_send; apply Habout; reflexivity).
  apply emits_pollAttempts. apply Habout. reflexivity.
Qed.

End ProvisioningFootprint.

Section ProvisioningFrame.
Variable I : World -> Prop.
Hypothesis I_clock : ignores_clock I.

Lemma preserves_aoss_client_send cmd : preserves I (aoss_client_send env cmd).
Proof. unfold aoss_client_send. frame. Qed.

Lemma preserves_pollAttempts name max attempts :
  preserves I (pollAttempts env name max attempts).
Proof.
  induction attempts as [|attempt later IH]; cbn [pollAttempts].
  - frame.
  - apply preserves_bind.
    + unfold pollAttempt, logger_debug, logger_info, logger_error, delay.
      frame; auto using preserves_aoss_client_send.
    + intros [c|]; [frame | exact IH].
Qed.

Lemma preserves_createCollection tenantId tenantSlug :
  preserves I (createCollection env tenantId tenantSlug).
Proof.
  unfold createCollection, createEncryptionPolicy, createNetworkPolicy,
    createDataAccessPolicy, waitForCollectionActive, logger_info, logger_error.
  frame; auto using preserves_aoss_client_send, preserves_pollAttempts.
Qed.

End ProvisioningFrame.

(** The three policy steps take 'already exists' for success. *)
Lemma policies_tolerate_conflict collectionName tenantId w :
  (forall cmd, policy_accepted (aoss_reply env (clock w) cmd)) ->
  result (createEncryptionPolicy env collectionName w) = Normal tt
  /\ result (createNetworkPolicy env collectionName w) = Normal tt
  /\ (forall text, ToString tenantId = Normal text ->
      result (createDataAccessPolicy env collectionName tenantId w) = Normal tt).
Proof.
  intros Hok. unfold createEncryptionPolicy, createNetworkPolicy,
    createDataAccessPolicy, aoss_client_send.
  repeat split; [| |intros text ->]; run;
    match goal with
    | |- context [aoss_reply env (clock w) ?cmd] =>
        specialize (Hok cmd); destruct (aoss_reply env (clock w) cmd) as [r|e]
    end; run; try reflexivity;
    cbn in Hok; apply String.eqb_eq in Hok; rewrite Hok; reflexivity.
Qed.

(** C4, what the code does: the three policy steps take 'already
    exists' for success, the creation call does not.  When the provider
    answers CreateCollection with ConflictException, [createCollection]
    raises that error after three calls: the data access policy is not
    created and the status is never queried. *)
Theorem createCollection_conflict_raises id tenantSlug e w :
  JsError.name e = "ConflictException" ->
  (forall n cmd, policy_accepted (aoss_reply env n cmd)) ->
  (forall n name type description tags,
     aoss_reply env n (CreateCollectionCommand name type description tags)
     = Throw e) ->
  let r := createCollection env (JStr id) tenantSlug w in
  result r = Throw e
  /\ (exists encryption network description tags,
        outbound (emitted r) =
        [AossSend encryption; AossSend network;
         AossSend (CreateCollectionCommand (getCollectionName tenantSlug)
                     "SEARCH" description tags)]).
Proof.
  intros Hname Hok Hcreate. cbv zeta.
  unfold createCollection, createEncryptionPolicy, createNetworkPolicy,
    aoss_client_send. run. world.
  match goal with
  | |- context [aoss_reply env (clock w) ?cmd] =>
      pose proof (Hok (clock w) cmd) as Hok1;
      destruct (aoss_reply env (clock w) cmd) as [r1|e1]
  end; run; world; [|cbn in Hok1; apply String.eqb_eq in Hok1; rewrite Hok1; run; world].
  all: match goal with
       | |- context [aoss_reply ?env0 (S (clock ?w0)) ?cmd] =>
           pose proof (Hok (S (clock w0)) cmd) as Hok2;
           destruct (aoss_reply env0 (S (clock w0)) cmd) as [r2|e2]
       end; run; world; [|cbn in Hok2; apply String.eqb_eq in Hok2; rewrite Hok2; run; world].
  all: cbn [ToString]; run; world; rewrite Hcreate; run; world;
    (split; [reflexivity|]); do 4 eexists; reflexivity.
Qed.

(** Once the two security policies are accepted, the creation of the
    collection is sent: the third call of [createCollection] is
    CreateCollection for 'accreda-' followed by the slug it was given. *)
Lemma createCollection_creates tenantId tenantSlug text w :
  let name := getCollectionName tenantSlug in
  policy_accepted (aoss_reply env (clock w) (encryptionCommand name)) ->
  policy_accepted (aoss_reply env (S (clock w)) (networkCommand name)) ->
  ToString tenantId = Normal text ->
  exists later,
    outbound (emitted (createCollection env tenantId tenantSlug w))
    = AossSend (encryptionCommand name) :: AossSend (networkCommand name)
      :: AossSend (creationCommand name tenantSlug tenantId text) :: later.
Proof.
  cbv zeta. intros Hok1 Hok2 Htext.
  unfold createCollection, createEncryptionPolicy, createNetworkPolicy,
    aoss_client_send, encryptionCommand, networkCommand, creationCommand in *.
  run. world.
  match type of Hok1 with
  | policy_accepted ?reply => destruct reply as [r1|e1]
  end; run; world;
    [|cbn in Hok1; apply String.eqb_eq in Hok1; rewrite Hok1; run; world].
  all: match type of Hok2 with
       | policy_accepted ?reply => destruct reply as [r2|e2]
       end; run; world;
    [|cbn in Hok2; apply String.eqb_eq in Hok2; rewrite Hok2; run; world].
  all: rewrite Htext; run; world.
  all: match goal with
       | |- context [aoss_reply env ?n (CreateCollectionCommand ?a ?b ?c ?d)] =>
           destruct (aoss_reply env n (CreateCollectionCommand a b c d))
             as [response|e3]
       end; run; world.
  all: try match goal with
       | |- context [createCollectionDetail ?response] =>
           destruct (createCollectionDetail response) as [detail|]
       end; run; world.
  all: try match goal with
       | |- context [createDataAccessPolicy ?env0 ?n ?t ?w'] =>
           destruct (createDataAccessPolicy env0 n t w') as [[[]|e4] w4 evs4]
       end; run; world.
  all: try match goal with
       | |- context [waitForCollectionActive ?env0 ?n ?m ?w'] =>
           destruct (waitForCollectionActive env0 n m w') as [[c|e5] w5 evs5]
       end; run; world.
  all: unfold outbound; repeat (cbn [filter is_log negb app]; rewrite ?filter_app);
    cbn [app]; eexists; reflexivity.
Qed.

(** *** The readiness poll *)

Lemma pollAttempt_cases name max attempt w :
  let r := pollAttempt env name max attempt w in
  length (filter is_status_query (emitted r)) = 1
  /\ length (filter is_sleep (emitted r)) <= 1
  /\ ((exists c, result r = Normal (Some c) /\ Collection.status c = "ACTIVE")
      \/ result r = Normal None
      \/ (result r = Throw (did_not_become_active max) /\ attempt = max)).
Proof.
  unfold pollAttempt, aoss_client_send. run.
  destruct (aoss_reply env (clock w) (BatchGetCollectionCommand [name]))
    as [response|e]; run.
  - destruct (collectionDetails response) as [[|c rest]|]; run.
    + cbn. repeat split; auto.
    + destruct (Collection.status c =? "ACTIVE") eqn:Hactive; run.
      * cbn. apply String.eqb_eq in Hactive. repeat split; auto. left. eauto.
      * destruct (Collection.status c =? "FAILED"); run.
        -- destruct (Nat.eqb_spec attempt max); run; cbn; repeat split; auto.
        -- cbn. repeat split; auto.
    + cbn. repeat split; auto.
  - destruct (Nat.eqb_spec attempt max); run; cbn; repeat split; auto.
Qed.

Lemma pollAttempts_bounded name max attempts w :
  let r := pollAttempts env name max attempts w in
  length (filter is_status_query (emitted r)) <= length attempts
  /\ length (filter is_sleep (emitted r)) <= length attempts
  /\ ((exists c, result r = Normal c /\ Collection.status c = "ACTIVE")
      \/ result r = Throw (did_not_become_active max)).
Proof.
  revert w. induction attempts as [|attempt later IH]; intros w; cbn [pollAttempts].
  - run. cbn. repeat split; auto.
  - unfold bind.
    pose proof (pollAttempt_cases name max attempt w) as Hone. cbv zeta in Hone.
    destruct (pollAttempt env name max attempt w) as [[[c|]|e] w1 evs1];
      cbn [result emitted] in Hone; destruct Hone as (Hq & Hs & Hres).
    + run. rewrite app_nil_r. cbn [length]. repeat split; try lia.
      destruct Hres as [(c' & Hc & Hactive)|[Hc|[Hc _]]]; try discriminate.
      injection Hc as <-. eauto.
    + specialize (IH w1). cbv zeta in IH.
      destruct (pollAttempts env name max later w1) as [r w2 evs2].
      cbn [result emitted] in *. rewrite !filter_app, !length_app. cbn [length].
      destruct IH as (IHq & IHs & IHres). repeat split; try lia. exact IHres.
    + cbn [result emitted length]. repeat split; try lia.
      destruct Hres as [(c' & Hc & _)|[Hc|[Hc _]]]; try discriminate.
      right. injection Hc as ->. reflexivity.
Qed.


Lemma seq_length_60 : length (seq 1 default_maxAttempts) = 60.
Proof. reflexivity. Qed.

(** One attempt, by what the provider answers: it is one call; when the
    answer shows an ACTIVE collection the attempt returns it without
    sleeping; otherwise it sleeps once and ends, or, being the last one
    and having caught an error, raises without sleeping. *)
Lemma pollAttempt_step name max attempt w :
  let r := pollAttempt env name max attempt w in
  clock (final r) = S (clock w)
  /\ length (filter is_status_query (emitted r)) = 1
  /\ match shown_active (aoss_reply env (clock w)
                           (BatchGetCollectionCommand [name])) with
     | Some c =>
         result r = Normal (Some c) /\ length (filter is_sleep (emitted r)) = 0
     | None =>
         (result r = Normal None /\ length (filter is_sleep (emitted r)) = 1)
         \/ (attempt = max /\ result r = Throw (did_not_become_active max)
             /\ length (filter is_sleep (emitted r)) = 0)
     end.
Proof.
  cbv zeta. unfold pollAttempt, aoss_client_send, shown_active. run.
  destruct (aoss_reply env (clock w) (BatchGetCollectionCommand [name]))
    as [response|e]; run.
  - destruct (collectionDetails response) as [[|c rest]|]; run; world.
    + cbn. auto 8.
    + destruct (Collection.status c =? "ACTIVE") eqn:Hactive; run; world.
      * cbn. auto 8.
      * destruct (Collection.status c =? "FAILED"); run; world.
        -- destruct (Nat.eqb_spec attempt max); run; world; cbn; auto 8.
        -- cbn. auto 8.
    + cbn. auto 8.
  - destruct (Nat.eqb_spec attempt max); run; world; cbn; auto 8.
Qed.

(** The loop over the attempts [a], [a+1], ..., [max], by what the
    provider answers to call after call: the first answer that shows an
    ACTIVE collection ends the loop, every answer before it costs one
    query and one sleep; when no answer shows one, every attempt is
    made and the loop raises. *)
Lemma pollAttempts_run name max : forall n a w,
  a + n = S max ->
  let r := pollAttempts env name max (seq a n) w in
  let shown i :=
    shown_active (aoss_reply env (clock w + i) (BatchGetCollectionCommand [name])) in
  (forall k c, k < n -> (forall i, i < k -> shown i = None) -> shown k = Some c ->
     result r = Normal c
     /\ length (filter is_status_query (emitted r)) = S k
     /\ length (filter is_sleep (emitted r)) = k)
  /\ ((forall i, i < n -> shown i = None) ->
      result r = Throw (did_not_become_active max)
      /\ length (filter is_status_query (emitted r)) = n
      /\ n - 1 <= length (filter is_sleep (emitted r)) <= n).
Proof.
  induction n as [|n IH]; intros a w Hlast; cbv zeta; cbn [seq pollAttempts].
  - run. cbn. split; [intros k c Hk; lia|]. intros _. repeat split; lia.
  - unfold bind.
    pose proof (pollAttempt_step name max a w) as Hone. cbv zeta in Hone.
    destruct (pollAttempt env name max a w) as [res w1 evs1].
    cbn [result final emitted] in Hone. destruct Hone as (Hclock & Hq & Hres).
    assert (Hshift : forall i, clock w1 + i = clock w + S i) by (intros; lia).
    specialize (IH (S a) w1). cbv zeta in IH.
    split.
    + intros [|k] c Hk Hnone Hsome.
      * rewrite Nat.add_0_r in Hsome. rewrite Hsome in Hres.
        destruct Hres as (-> & Hs). run. rewrite app_nil_r. cbn [result emitted].
        repeat split; assumption.
      * pose proof (Hnone 0 ltac:(lia)) as Hfirst.
        rewrite Nat.add_0_r in Hfirst. rewrite Hfirst in Hres.
        destruct Hres as [(-> & Hs)|(Hmax & _)]; [|lia].
        destruct (IH ltac:(lia)) as (IHsome & _).
        specialize (IHsome k c ltac:(lia)).
        destruct (pollAttempts env name max (seq (S a) n) w1) as [res2 w2 evs2].
        cbn [result emitted] in *.
        destruct IHsome as (-> & Hq2 & Hs2).
        { intros i Hi. rewrite Hshift. apply Hnone. lia. }
        { rewrite Hshift. exact Hsome. }
        rewrite !filter_app, !length_app. repeat split; lia.
    + intros Hnone.
      pose proof (Hnone 0 ltac:(lia)) as Hfirst.
      rewrite Nat.add_0_r in Hfirst. rewrite Hfirst in Hres.
      destruct Hres as [(-> & Hs)|(Hmax & -> & Hs)].
      * destruct n as [|n].
        -- cbn [seq pollAttempts]. run. rewrite app_nil_r. cbn [result emitted].
           repeat split; lia.
        -- destruct (IH ltac:(lia)) as (_ & IHnone).
           destruct (pollAttempts env name max (seq (S a) (S n)) w1)
             as [res2 w2 evs2].
           cbn [result emitted] in *.
           destruct IHnone as (-> & Hq2 & Hs2).
           { intros i Hi. rewrite Hshift. apply Hnone. lia. }
           rewrite !filter_app, !length_app. repeat split; lia.
      * cbn [result emitted]. repeat split; lia.
Qed.

(** Among the first [n] answers either one is the first to show an
    ACTIVE collection, or none shows one. *)
Lemma first_shown {A} (shown : nat -> option A) n :
  (exists k c, k < n /\ (forall i, i < k -> shown i = None) /\ shown k = Some c)
  \/ (forall i, i < n -> shown i = None).
Proof.
  induction n as [|n [(k & c & Hk & Hnone & Hsome)|Hnone]].
  - right. intros i Hi. lia.
  - left. exists k, c. repeat split; auto.
  - destruct (shown n) as [c|] eqn:Hn.
    + left. exists n, c. repeat split; auto.
    + right. intros i Hi. destruct (Nat.eq_dec i n) as [->|]; [exact Hn|].
      apply Hnone. lia.
Qed.

(** C7: with the default budget [waitForCollectionActive] queries the
    status at most 60 times and sleeps at most 60 times, and it always
    ends: it returns a collection whose status is ACTIVE, or it raises
    'Collection did not become active after 60 attempts', and then it
    has made all 60 queries.  (The specification's third way out, a raise on a
    FAILED status, never happens: see C2.)  Which of the two, and after
    how many queries, is decided by the provider's answers to the status
    queries, call after call.  An answer that is an error, an empty
    report or a status other than ACTIVE is followed by a sleep and the
    next query: when the first [k] answers are of that kind and the next
    one shows an ACTIVE collection, that collection is returned after
    [k + 1] queries and [k] sleeps.  Only when none of 60 answers shows
    one does it raise, after exactly 60 queries.  In particular an
    attempt before the last whose query raises ends normally after a
    30-second sleep, and no attempt but the last one raises. *)
Theorem waitForCollectionActive_bounded name w :
  let r := waitForCollectionActive env name default_maxAttempts w in
  let polls := length (filter is_status_query (emitted r)) in
  let sleeps := length (filter is_sleep (emitted r)) in
  let shown i :=
    shown_active (aoss_reply env (clock w + i) (BatchGetCollectionCommand [name])) in
  polls <= 60
  /\ sleeps <= 60
  /\ ((exists c, result r = Normal c /\ Collection.status c = "ACTIVE")
      \/ (result r = Throw (did_not_become_active 60) /\ polls = 60))
  /\ (forall k c,
        k < 60 -> (forall i, i < k -> shown i = None) -> shown k = Some c ->
        result r = Normal c /\ polls = S k /\ sleeps = k)
  /\ ((forall i, i < 60 -> shown i = None) ->
      result r = Throw (did_not_become_active 60) /\ polls = 60 /\ 59 <= sleeps)
  /\ (forall attempt w' e,
        attempt <> 60 ->
        aoss_reply env (clock w') (BatchGetCollectionCommand [name]) = Throw e ->
        let one := pollAttempt env name 60 attempt w' in
        result one = Normal None
        /\ outbound (emitted one)
           = [AossSend (BatchGetCollectionCommand [name]); Sleep 30000])
  /\ (forall attempt w',
        match result (pollAttempt env name 60 attempt w') with
        | Throw e => attempt = 60 /\ e = did_not_become_active 60
        | Normal _ => True
        end).
Proof.
  cbv zeta. unfold waitForCollectionActive. run.
  pose proof (pollAttempts_bounded name default_maxAttempts
                (seq 1 default_maxAttempts) w) as Hloop.
  pose proof (pollAttempts_run name default_maxAttempts default_maxAttempts 1 w
                eq_refl) as Hrun.
  cbv zeta in Hloop, Hrun. rewrite seq_length_60 in Hloop.
  destruct (pollAttempts env name default_maxAttempts (seq 1 default_maxAttempts) w)
    as [r w1 evs]. cbn [result emitted app filter is_status_query is_sleep] in *.
  destruct Hloop as (Hq & Hs & Hres). destruct Hrun as (Hsome & Hnone).
  change default_maxAttempts with 60 in *.
  split; [exact Hq|]. split; [exact Hs|]. split; [|split; [|split; [|split]]].
  - destruct (first_shown
                (fun i => shown_active
                            (aoss_reply env (clock w + i)
                               (BatchGetCollectionCommand [name]))) 60)
      as [(k & c & Hk & Hbefore & Hat)|Hall].
    + destruct (Hsome k c Hk Hbefore Hat) as (Hc & _).
      destruct Hres as [Hok|Herr]; [left; exact Hok | congruence].
    + destruct (Hnone Hall) as (Herr & Hall60 & _). right. auto.
  - exact Hsome.
  - intros Hall. destruct (Hnone Hall) as (Herr & Hall60 & Hsleeps).
    repeat split; auto. lia.
  - intros attempt w' e Hlast Hreply.
    unfold pollAttempt, aoss_client_send. run. rewrite Hreply. run.
    destruct (Nat.eqb_spec attempt 60); [contradiction|]. run.
    split; reflexivity.
  - intros attempt w'.
    pose proof (pollAttempt_cases name 60 attempt w') as Hone. cbv zeta in Hone.
    destruct (pollAttempt env name 60 attempt w') as [[c|e] w2 evs2];
      cbn [result emitted] in *; [exact I|].
    destruct Hone as (_ & _ & [(c & Hc & _)|[Hc|[Hc Hmax]]]); try discriminate.
    injection Hc as ->. auto.
Qed.
End ProvisioningFacts.

(* ================================================================== *)
(** ** The queue consumer (sqsService.js) and the orchestrator (index.js) *)
(* ================================================================== *)

Section OutboundFacts.
Context {num : Type}.

Lemma outbound_app (a b : list (Event num)) :
  outbound (a ++ b) = (outbound a ++ outbound b)%list.
Proof. apply filter_app. Qed.

Lemma outbound_cons (ev : Event num) evs :
  outbound (ev :: evs) = if is_log ev then outbound evs else ev :: outbound evs.
Proof. unfold outbound. cbn [filter]. destruct (is_log ev); reflexivity. Qed.

Lemma outbound_nil : outbound (@nil (Event num)) = [].
Proof. reflexivity. Qed.

Lemma outbound_logs (evs : list (Event num)) :
  Forall (fun ev => is_log ev = true) evs -> outbound evs = [].
Proof.
  intros Hlogs. unfold outbound. apply filter_none.
  intros ev Hev. rewrite Forall_forall in Hlogs. rewrite (Hlogs ev Hev). reflexivity.
Qed.

End OutboundFacts.

(** Normalise [outbound] of a concatenation of events. *)
Ltac outs :=
  repeat first [rewrite outbound_app | rewrite outbound_cons | rewrite outbound_nil];
  cbn [is_log app]; rewrite ?app_nil_r.

Section ConsumerFacts.
Context {num : Type} `{JsRuntime num}.
Variable env : Env num.

(** *** The queue *)

Lemma deleteMessage_run receiptHandle w :
  let r := deleteMessage env receiptHandle w in
  outbound (emitted r) = [SqsSend (DeleteMessageCommand receiptHandle)]
  /\ tenants (final r) = tenants w
  /\ match sqs_fault env (clock w) with
     | None =>
         result r = Normal tt
         /\ queue (final r) =
            filter (fun m => negb (SqsMessage.ReceiptHandle m =? receiptHandle))
                   (queue w)
     | Some e => result r = Throw e /\ queue (final r) = queue w
     end.
Proof.
  cbv zeta. unfold deleteMessage, sqs_delete. run.
  destruct (sqs_fault env (clock w)) as [e|]; run; world; repeat split.
Qed.

(** A delivery whose payload is well-formed: the handler is called on
    the parsed payload in the state of the delivery; if it returns the
    message is deleted, if it raises nothing more is done. *)
Lemma processMessage_dispatch (messageHandler : JsValue num -> M num unit)
  message messageBody w :
  JSON_parse (SqsMessage.Body message) = Normal messageBody ->
  result (validateMessage messageBody w) = Normal true ->
  let handled := messageHandler messageBody w in
  let r := processMessage env messageHandler message w in
  result r = Normal tt
  /\ match result handled with
     | Normal _ =>
         let deleted :=
           deleteMessage env (SqsMessage.ReceiptHandle message) (final handled) in
         final r = final deleted
         /\ outbound (emitted r)
            = (outbound (emitted handled) ++ outbound (emitted deleted))%list
     | Throw _ =>
         final r = final handled
         /\ outbound (emitted r) = outbound (emitted handled)
     end.
Proof.
  intros Hparse Hvalid. cbv zeta.
  pose proof (validateMessage_pure messageBody w) as Hpure.
  pose proof (validateMessage_logs messageBody w) as Hlogs.
  destruct (validateMessage_accepted messageBody w Hvalid)
    as (props & tid & slug & ts & -> & Hid & Hslug & _).
  unfold processMessage. rewrite Hparse. run. cbn [Get]. rewrite Hid, Hslug. run.
  destruct (validateMessage (JObj props) w) as [valid wv evs].
  cbn [result final emitted] in *. subst wv valid. run.
  apply outbound_logs in Hlogs.
  destruct (messageHandler (JObj props) w) as [[[]|e] wh evh]; run.
  - destruct (deleteMessage env (SqsMessage.ReceiptHandle message) wh)
      as [[[]|e] wd evd]; run; rewrite ?Hid; run;
      (split; [reflexivity|]); (split; [reflexivity|]); outs; rewrite Hlogs; outs;
      reflexivity.
  - split; [reflexivity|]. split; [reflexivity|]. outs. rewrite Hlogs. outs.
    reflexivity.
Qed.



(** C3, what the code does: a payload that does not parse, or that
    parses to [null], is left in the queue.  [JSON.parse], and the read
    of [messageBody.tenant_id] for the first log line, sit inside the
    [try] whose [catch] only logs. *)
Theorem unparsable_message_stays messageHandler message w :
  (exists e, JSON_parse (SqsMessage.Body message) = Throw e)
  \/ JSON_parse (SqsMessage.Body message) = Normal JNull ->
  let r := processMessage env messageHandler message w in
  result r = Normal tt /\ final r = w /\ outbound (emitted r) = [].
Proof.
  intros [[e Hparse]|Hparse]; cbv zeta; unfold processMessage; rewrite Hparse;
    run; cbn [Get]; run; repeat split.
Qed.

(** X1: a payload that parses to something other than [null] and that
    [validateMessage] turns down is deleted without the handler being
    called: the per-message block does what the delete does, and nothing
    else. *)
Lemma processMessage_discards messageHandler message messageBody w :
  JSON_parse (SqsMessage.Body message) = Normal messageBody ->
  messageBody <> JNull -> messageBody <> JUndefined ->
  result (validateMessage messageBody w) = Normal false ->
  let deleted := deleteMessage env (SqsMessage.ReceiptHandle message) w in
  let r := processMessage env messageHandler message w in
  result r = Normal tt
  /\ final r = final deleted
  /\ outbound (emitted r) = outbound (emitted deleted).
Proof.
  intros Hparse Hnull Hundef Hvalid. cbv zeta.
  pose proof (validateMessage_pure messageBody w) as Hpure.
  pose proof (validateMessage_logs messageBody w) as Hlogs.
  apply outbound_logs in Hlogs.
  unfold processMessage. rewrite Hparse. run.
  assert (Hget : forall key, exists value, Get messageBody key = Normal value).
  { intros key. destruct messageBody; try congruence; cbn; eauto.
    destruct (lookup_prop props key); eauto. }
  destruct (Hget "tenant_id") as [tid ->]. destruct (Hget "tenant_slug") as [slug ->].
  run.
  destruct (validateMessage messageBody w) as [valid wv evs].
  cbn [result final emitted] in *. subst wv valid. run.
  destruct (deleteMessage env (SqsMessage.ReceiptHandle message) w)
    as [[[]|e] wd evd]; run;
    (split; [reflexivity|]); (split; [reflexivity|]); outs; rewrite Hlogs; outs;
    reflexivity.
Qed.

(** *** The orchestrator *)

Lemma text_is_spec o lit : text_is o lit = true <-> o = Some lit.
Proof.
  destruct o as [s|]; cbn; [|split; discriminate].
  rewrite String.eqb_eq. split; congruence.
Qed.

Lemma text_truthy_spec o :
  text_truthy o = true <-> exists s, o = Some s /\ s <> "".
Proof.
  destruct o as [s|]; cbn.
  - rewrite negb_true_iff, String.eqb_neq. split.
    + intros Hs. exists s. auto.
    + intros (s' & [= <-] & Hs). exact Hs.
  - split; [discriminate|]. intros (s & Hs & _). discriminate.
Qed.

Lemma eligible_not_ineligible t : eligible t -> ineligible (Some t) -> False.
Proof.
  intros (Hs & Harn & Hr) [Hs'|[(arn & Ha & Hne)|Hr']]; try congruence.
  destruct Harn as [Harn|Harn]; rewrite Harn in Ha; congruence.
Qed.

(** [validateTenantForProvisioning] only logs, accepts the eligible
    tenants and turns away the ineligible ones. *)
Lemma validateTenantForProvisioning_decides tenant w :
  exists validation evs,
    validateTenantForProvisioning (num:=num) tenant w
    = mkRun (Normal validation) w evs
    /\ outbound evs = []
    /\ (Validation.isValid validation = true ->
        exists t, tenant = Some t /\ eligible t)
    /\ (Validation.isValid validation = false -> ineligible tenant).
Proof.
  unfold validateTenantForProvisioning, ineligible, eligible.
  destruct tenant as [t|]; run.
  2:{ do 2 eexists. repeat split. discriminate. }
  destruct (text_is (Tenant.status t) "active") eqn:Hstatus; run.
  2:{ do 2 eexists. split; [reflexivity|]. split; [reflexivity|].
      split; [discriminate|]. intros _. left. intros Hs.
      apply text_is_spec in Hs. congruence. }
  apply text_is_spec in Hstatus.
  destruct (text_truthy (Tenant.opensearch_arn t)) eqn:Harn; run.
  { do 2 eexists. split; [reflexivity|]. split; [reflexivity|].
    split; [discriminate|]. intros _. right. left.
    apply text_truthy_spec. exact Harn. }
  destruct (text_is (Tenant.opensearch_status t) "ready") eqn:Hready; run.
  { do 2 eexists. split; [reflexivity|]. split; [reflexivity|].
    split; [discriminate|]. intros _. right. right.
    apply text_is_spec. exact Hready. }
  do 2 eexists. split; [reflexivity|]. split; [reflexivity|].
  split; [|discriminate].
  intros _. exists t. repeat split; auto.
  - destruct (Tenant.opensearch_arn t) as [arn|]; auto.
    cbn in Harn. apply negb_false_iff, String.eqb_eq in Harn. subst. auto.
  - intros Hr. apply text_is_spec in Hr. congruence.
Qed.

Lemma Get_total (v : JsValue num) key value :
  Get v key = Normal value -> forall key', exists value', Get v key' = Normal value'.
Proof.
  intros Hget key'. destruct v; try discriminate; cbn; eauto.
  destruct (lookup_prop props key'); eauto.
Qed.

End ConsumerFacts.

Section OrchestratorFacts.
Context {num : Type} `{JsRuntime num}.
Variable env : Env num.

(** The [catch] block marks and raises again. *)
Lemma provisionFailed_run tenant_id tenant_slug e w :
  let marked := markTenantOpenSearchFailed env tenant_id (JsError.message e) w in
  let r := provisionFailed env tenant_id tenant_slug e w in
  result r = Throw e
  /\ final r = final marked
  /\ outbound (emitted r) = outbound (emitted marked).
Proof.
  cbv zeta. unfold provisionFailed. run.
  pose proof (markTenantOpenSearchFailed_returns env tenant_id (JsError.message e) w)
    as Hret.
  destruct (markTenantOpenSearchFailed env tenant_id (JsError.message e) w)
    as [res wm evm]. cbn [result final emitted] in *. subst res. run.
  repeat split; outs; reflexivity.
Qed.

(** The handler is its [try] block, followed by the failure marking
    when that block raises. *)
Lemma processTenantMessage_run message tenant_id w :
  Get message "tenant_id" = Normal tenant_id ->
  let tried := provisionTenant env tenant_id w in
  let r := processTenantMessage env message w in
  match result tried with
  | Normal _ =>
      result r = Normal tt
      /\ final r = final tried
      /\ outbound (emitted r) = outbound (emitted tried)
  | Throw e =>
      let marked :=
        markTenantOpenSearchFailed env tenant_id (JsError.message e) (final tried) in
      result r = Throw e
      /\ final r = final marked
      /\ outbound (emitted r)
         = (outbound (emitted tried) ++ outbound (emitted marked))%list
  end.
Proof.
  intros Hid. cbv zeta. unfold processTenantMessage.
  destruct (Get_total _ _ _ Hid "tenant_slug") as [slug Hslug].
  destruct (Get_total _ _ _ Hid "timestamp") as [ts Hts].
  rewrite Hid, Hslug, Hts. run.
  destruct (provisionTenant env tenant_id w) as [[[]|e] wt evt]; run.
  - repeat split; outs; reflexivity.
  - pose proof (provisionFailed_run tenant_id slug e wt) as Hfail. cbv zeta in Hfail.
    destruct (provisionFailed env tenant_id slug e wt) as [res wf evf].
    cbn [result final emitted] in *. destruct Hfail as (-> & -> & Hout).
    repeat split; outs; rewrite ?Hout; reflexivity.
Qed.

(** The [try] block, path by path. *)
Lemma provisionTenant_run tenant_id w :
  let fetched := getTenant env tenant_id w in
  let r := provisionTenant env tenant_id w in
  match result fetched with
  | Throw e =>
      result r = Throw e /\ final r = final fetched
      /\ outbound (emitted r) = outbound (emitted fetched)
  | Normal tenant =>
      (ineligible tenant ->
       result r = Normal tt /\ final r = final fetched
       /\ outbound (emitted r) = outbound (emitted fetched))
      /\ (forall t, tenant = Some t -> eligible t ->
          let created := createCollection env tenant_id (Tenant.slug t) (final fetched) in
          match result created with
          | Throw e =>
              result r = Throw e /\ final r = final created
              /\ outbound (emitted r)
                 = (outbound (emitted fetched) ++ outbound (emitted created))%list
          | Normal collection =>
              let committed :=
                updateTenantOpenSearch env tenant_id (Created.arn collection)
                  "ready" (final created) in
              result r = match result committed with
                         | Normal _ => Normal tt
                         | Throw e => Throw e
                         end
              /\ final r = final committed
              /\ outbound (emitted r)
                 = (outbound (emitted fetched) ++ outbound (emitted created)
                    ++ outbound (emitted committed))%list
          end)
      /\ (ineligible tenant \/ exists t, tenant = Some t /\ eligible t)
  end.
Proof.
  cbv zeta. unfold provisionTenant. run.
  destruct (getTenant env tenant_id w) as [[tenant|e] wf evf]; run;
    [|repeat split].
  destruct (validateTenantForProvisioning_decides (num:=num) tenant wf)
    as (validation & evs & -> & Hlogs & Haccept & Hreject).
  destruct (Validation.isValid validation) eqn:Hvalid; run.
  - destruct (Haccept eq_refl) as (t & -> & Ht).
    split; [intros Hin; destruct (eligible_not_ineligible t Ht Hin)|].
    split; [|right; eauto].
    intros t' [= <-] _. run.
    destruct (createCollection env tenant_id (Tenant.slug t) wf)
      as [[collection|e] wc evc]; run.
    + destruct (updateTenantOpenSearch env tenant_id (Created.arn collection)
                  "ready" wc) as [[updated|e] wu evu]; run;
        repeat split; outs; rewrite Hlogs; outs; reflexivity.
    + repeat split; outs; rewrite Hlogs; outs; reflexivity.
  - specialize (Hreject eq_refl).
    split; [intros _; repeat split; outs; rewrite Hlogs; outs; reflexivity|].
    split; [|left; exact Hreject].
    intros t -> Ht. destruct (eligible_not_ineligible t Ht Hreject).
Qed.


Lemma filter_outbound (f : Event num -> bool) evs :
  (forall ev, f ev = true -> is_log ev = false) ->
  filter f (outbound evs) = filter f evs.
Proof.
  intros Hf. induction evs as [|ev evs IH]; [reflexivity|].
  rewrite outbound_cons. cbn [filter].
  destruct (f ev) eqn:Hev.
  - rewrite (Hf ev Hev). cbn [filter]. rewrite Hev, IH. reflexivity.
  - destruct (is_log ev); [exact IH|]. cbn [filter]. rewrite Hev. exact IH.
Qed.

Lemma filter_quiet (f : Event num -> bool) evs :
  Forall (fun ev => f ev = false) evs -> filter f evs = [].
Proof.
  intros Hq. apply filter_none. apply Forall_forall. exact Hq.
Qed.

(** The fetch reads: it writes nothing, provisions nothing and leaves
    the queue alone. *)
Lemma getTenant_reads tenant_id w :
  let r := getTenant env tenant_id w in
  tenants (final r) = tenants w
  /\ queue (final r) = queue w
  /\ filter is_aoss (emitted r) = []
  /\ filter is_write (emitted r) = []
  /\ filter is_sqs (emitted r) = [].
Proof.
  cbv zeta.
  assert (Hframe : preserves (fun w' => tenants w' = tenants w /\ queue w' = queue w)
                     (getTenant env tenant_id)).
  { apply preserves_getTenant; intros w'; intros; assumption. }
  destruct (Hframe w (conj eq_refl eq_refl)) as [Ht Hq].
  repeat split; try assumption; apply filter_quiet;
    apply emits_getTenant; intros; reflexivity.
Qed.

(** C1 (as amended): an event for which the fetch of the tenant returns,
    and returns no row or a row that is not active, already holds a
    collection reference or is already 'ready', is handled without
    error: no provisioning call and no write to the tenant table is
    issued, the committed rows are what they were, and the loop sends
    the delete for the message, which leaves the queue when the
    transport accepts that call. *)
Theorem ineligible_tenant_is_skipped message messageBody tenant_id tenant w :
  JSON_parse (SqsMessage.Body message) = Normal messageBody ->
  result (validateMessage messageBody w) = Normal true ->
  Get messageBody "tenant_id" = Normal tenant_id ->
  result (getTenant env tenant_id w) = Normal tenant ->
  ineligible tenant ->
  let handled := processTenantMessage env messageBody w in
  let r := processMessage env (processTenantMessage env) message w in
  result handled = Normal tt
  /\ result r = Normal tt
  /\ filter is_aoss (emitted r) = []
  /\ filter is_write (emitted r) = []
  /\ tenants (final r) = tenants w
  /\ filter is_sqs (emitted r)
     = [SqsSend (DeleteMessageCommand (SqsMessage.ReceiptHandle message))]
  /\ (sqs_fault env (clock (final handled)) = None ->
      queue (final r)
      = filter (fun m => negb (SqsMessage.ReceiptHandle m
                               =? SqsMessage.ReceiptHandle message))
               (queue w)).
Proof.
  intros Hparse Hvalid Hid Hfetch Hin. cbv zeta.
  pose proof (processMessage_dispatch env (processTenantMessage env) message
                messageBody w Hparse Hvalid) as Hloop.
  pose proof (processTenantMessage_run messageBody tenant_id w Hid) as Hhandler.
  pose proof (provisionTenant_run tenant_id w) as Htry.
  pose proof (getTenant_reads tenant_id w) as Hread.
  cbv zeta in Hloop, Hhandler, Htry, Hread.
  destruct (getTenant env tenant_id w) as [fetched wf evf].
  cbn [result final emitted] in *. subst fetched.
  destruct Htry as (Htry & _). specialize (Htry Hin).
  destruct (provisionTenant env tenant_id w) as [tried wt evt].
  cbn [result final emitted] in *. destruct Htry as (-> & -> & Hevt).
  destruct (processTenantMessage env messageBody w) as [handled wh evh].
  cbn [result final emitted] in *. destruct Hhandler as (-> & -> & Hevh).
  destruct Hloop as (Hres & Hfinal & Hout).
  pose proof (deleteMessage_run env (SqsMessage.ReceiptHandle message) wf) as Hdel.
  cbv zeta in Hdel. destruct Hdel as (Hdout & Hdten & Hdq).
  destruct Hread as (Hten & Hq & Haoss & Hwrite & Hsqs).
  rewrite Hevh, Hevt, Hdout in Hout.
  assert (Hcount : forall f : Event num -> bool,
             (forall ev, f ev = true -> is_log ev = false) ->
             filter f (emitted (processMessage env (processTenantMessage env) message w))
             = (filter f evf
                ++ filter f [SqsSend (DeleteMessageCommand
                                        (SqsMessage.ReceiptHandle message))])%list).
  { intros f Hf. rewrite <- (filter_outbound f _ Hf), Hout, filter_app.
    rewrite (filter_outbound f _ Hf). reflexivity. }
  split; [reflexivity|]. split; [exact Hres|].
  split; [rewrite Hcount, Haoss by (intros [] ?; (discriminate || reflexivity));
          reflexivity|].
  split; [rewrite Hcount, Hwrite by (intros [] ?; (discriminate || reflexivity));
          reflexivity|].
  split; [rewrite Hfinal, Hdten; exact Hten|].
  split; [rewrite Hcount, Hsqs by (intros [] ?; (discriminate || reflexivity));
          reflexivity|].
  intros Hok. rewrite Hok in Hdq. destruct Hdq as [_ Hdq].
  rewrite Hfinal, Hdq, Hq. reflexivity.
Qed.


Lemma In_outbound (ev : Event num) evs :
  In ev (outbound evs) <-> In ev evs /\ is_log ev = false.
Proof.
  unfold outbound. rewrite filter_In, negb_true_iff. reflexivity.
Qed.

Lemma emits_In {A} (P : Event num -> Prop) (m : M num A) w ev :
  emits P m -> In ev (emitted (m w)) -> P ev.
Proof. intros Hm Hev. specialize (Hm w). rewrite Forall_forall in Hm. auto. Qed.

Section HandlerFootprint.
Variable P : Event num -> Prop.
Hypothesis P_log : forall level text meta, P (Log level text meta).
Hypothesis P_sleep : forall ms, P (Sleep ms).
Hypothesis P_connect : P PgConnect.
Hypothesis P_release : P PgRelease.
Hypothesis P_aoss : forall cmd, P (AossSend cmd).

Lemma emits_provisionTenant tenant_id :
  P (PgQuery (SelectTenant tenant_id)) ->
  P (PgQuery Begin) -> P (PgQuery Commit) -> P (PgQuery Rollback) ->
  (forall arn, P (PgQuery (UpdateTenantOpenSearch arn "ready" tenant_id))) ->
  emits P (provisionTenant env tenant_id).
Proof.
  intros. unfold provisionTenant. footprint;
    auto using emits_getTenant, emits_validateTenantForProvisioning,
      emits_createCollection, emits_updateTenantOpenSearch.
Qed.

Lemma emits_processTenantMessage message :
  (forall stmt, P (PgQuery stmt)) ->
  emits P (processTenantMessage env message).
Proof.
  intros. unfold processTenantMessage, provisionFailed. footprint;
    auto using emits_provisionTenant, emits_markTenantOpenSearchFailed.
Qed.

End HandlerFootprint.

Section HandlerFrame.
Variable I : World -> Prop.
Hypothesis I_clock : ignores_clock I.
Hypothesis I_release : forall w, I w -> I (set_txn None w).
Hypothesis I_sql : forall stmt : SqlStmt num, issued stmt -> preserves I (run_sql stmt).

Lemma preserves_processTenantMessage message :
  preserves I (processTenantMessage env message).
Proof.
  unfold processTenantMessage, provisionFailed, provisionTenant. frame;
    auto using preserves_getTenant, preserves_validateTenantForProvisioning,
      preserves_createCollection.
  - apply preserves_updateTenantOpenSearch; auto; apply I_sql; exact I || reflexivity.
  - apply preserves_markTenantOpenSearchFailed; auto. apply I_sql. reflexivity.
Qed.

End HandlerFrame.

(** The handler never touches the queue. *)
Lemma processTenantMessage_queue message w :
  queue (final (processTenantMessage env message w)) = queue w
  /\ filter is_sqs (emitted (processTenantMessage env message w)) = [].
Proof.
  split.
  - apply (preserves_processTenantMessage (fun w' => queue w' = queue w));
      try reflexivity; try (intros w'; intros; assumption).
    intros stmt _ w' Hw'. rewrite <- Hw'.
    destruct stmt; unfold run_sql; run; world; try reflexivity;
      destruct (txn w'); reflexivity.
  - apply filter_quiet. apply emits_processTenantMessage; intros; reflexivity.
Qed.

(** C5: when the provisioning sequence or the commit raises [e] for an
    eligible tenant, the handler runs the failure marking in the state
    the failure left, the marking itself returns normally whatever the
    store does, and the handler raises [e]; the loop logs it, sends
    nothing to the queue and leaves the queue as it was.  When the store
    accepts the marking, the rows with the tenant's id have status
    'failed'. *)
Theorem failed_provisioning_is_marked_and_left_queued
  message messageBody tenant_id tenant e failed w :
  JSON_parse (SqsMessage.Body message) = Normal messageBody ->
  result (validateMessage messageBody w) = Normal true ->
  Get messageBody "tenant_id" = Normal tenant_id ->
  result (getTenant env tenant_id w) = Normal (Some tenant) ->
  eligible tenant ->
  let fetched := final (getTenant env tenant_id w) in
  let created := createCollection env tenant_id (Tenant.slug tenant) fetched in
  (result created = Throw e /\ failed = final created)
  \/ (exists collection,
        result created = Normal collection
        /\ let committed :=
             updateTenantOpenSearch env tenant_id (Created.arn collection)
               "ready" (final created) in
           result committed = Throw e /\ failed = final committed) ->
  let marked :=
    markTenantOpenSearchFailed env tenant_id (JsError.message e) failed in
  let handled := processTenantMessage env messageBody w in
  let r := processMessage env (processTenantMessage env) message w in
  result marked = Normal tt
  /\ result handled = Throw e
  /\ final handled = final marked
  /\ (pool failed = true -> txn failed = None ->
      pg_fault env (clock failed) = None ->
      pg_fault env (S (clock failed)) = None ->
      tenants (final handled)
      = map (fun row => if pg_eq tenant_id (Tenant.id row)
                        then set_opensearch_status "failed"
                               (S (S (clock failed))) row
                        else row) (tenants failed))
  /\ result r = Normal tt
  /\ final r = final handled
  /\ filter is_sqs (emitted r) = []
  /\ queue (final r) = queue w.
Proof.
  intros Hparse Hvalid Hid Hfetch Helig. cbv zeta. intros Hfail.
  pose proof (processMessage_dispatch env (processTenantMessage env) message
                messageBody w Hparse Hvalid) as Hloop.
  pose proof (processTenantMessage_run messageBody tenant_id w Hid) as Hhandler.
  pose proof (processTenantMessage_queue messageBody w) as [Hqueue Hquiet].
  pose proof (provisionTenant_run tenant_id w) as Htry.
  cbv zeta in Hloop, Hhandler, Htry.
  rewrite Hfetch in Htry. destruct Htry as (_ & Htry & _).
  specialize (Htry tenant eq_refl Helig).
  assert (Htried : result (provisionTenant env tenant_id w) = Throw e
                   /\ final (provisionTenant env tenant_id w) = failed).
  { destruct Hfail as [[Hc ->]|(collection & Hc & Hu & ->)];
      rewrite Hc in Htry; [|rewrite Hu in Htry]; destruct Htry as (? & ? & _);
      auto. }
  destruct Htried as [Hthrow Hstate]. rewrite Hthrow, Hstate in Hhandler.
  destruct Hhandler as (Hres & Hfinal & _).
  rewrite Hres in Hloop. destruct Hloop as (Hr & Hrfinal & Hrout).
  split; [apply markTenantOpenSearchFailed_returns|].
  split; [exact Hres|]. split; [exact Hfinal|].
  split; [intros; rewrite Hfinal; apply markTenantOpenSearchFailed_marks;
          assumption|].
  split; [exact Hr|]. split; [exact Hrfinal|].
  split.
  - rewrite <- (filter_outbound is_sqs) by (intros [] ?; (discriminate || reflexivity)).
    rewrite Hrout, filter_outbound by (intros [] ?; (discriminate || reflexivity)).
    exact Hquiet.
  - rewrite Hrfinal. exact Hqueue.
Qed.


(** X28: the service never writes a resource status other than 'ready'
    and 'failed', so after handling an event every row has the status it
    had or one of these two, and a status is never reset to an initial
    value.  'failed' is written only by the failure marking, for the
    tenant of the event, when the handler raises: either the tenant
    passed validation, or the fetch of the tenant raised and nothing was
    validated. *)
Theorem status_moves_to_ready_or_failed message tenant_id w :
  txn w = None ->
  Get message "tenant_id" = Normal tenant_id ->
  let r := processTenantMessage env message w in
  Forall2 status_step (tenants w) (tenants (final r))
  /\ (forall status id,
        In (PgQuery (UpdateOpenSearchStatus status id)) (emitted r) ->
        status = "failed" /\ id = tenant_id
        /\ (exists e, result r = Throw e)
        /\ ((exists e, result (getTenant env tenant_id w) = Throw e)
            \/ (exists tenant,
                  result (getTenant env tenant_id w) = Normal (Some tenant)
                  /\ eligible tenant))).
Proof.
  intros Htxn Hid. cbv zeta. split.
  - assert (Hstart : stems_from (tenants w) w).
    { split; [apply Forall2_status_step_refl | rewrite Htxn; exact I]. }
    apply (preserves_processTenantMessage (stems_from (tenants w))
             (stems_from_clock _) (stems_from_release _)
             (stems_from_run_sql _) message w Hstart).
  - intros status id Hin.
    assert (Hout : In (PgQuery (UpdateOpenSearchStatus status id))
                     (outbound (emitted (processTenantMessage env message w)))).
    { apply In_outbound. split; [exact Hin | reflexivity]. }
    pose proof (processTenantMessage_run message tenant_id w Hid) as Hhandler.
    pose proof (provisionTenant_run tenant_id w) as Htry.
    cbv zeta in Hhandler, Htry.
    assert (Hquiet : forall ev,
               In ev (outbound (emitted (provisionTenant env tenant_id w))) ->
               ev <> PgQuery (UpdateOpenSearchStatus status id)).
    { intros ev Hev. apply In_outbound in Hev. destruct Hev as [Hev _].
      revert Hev.
      apply (emits_In (fun ev => ev <> PgQuery (UpdateOpenSearchStatus status id))
               (provisionTenant env tenant_id) w ev).
      apply emits_provisionTenant; intros; discriminate. }
    destruct (result (provisionTenant env tenant_id w)) as [[]|e] eqn:Htried.
    + destruct Hhandler as (_ & _ & Heq). rewrite Heq in Hout.
      destruct (Hquiet _ Hout eq_refl).
    + destruct Hhandler as (Hres & _ & Heq). rewrite Heq in Hout.
      apply in_app_or in Hout. destruct Hout as [Hout|Hout];
        [destruct (Hquiet _ Hout eq_refl)|].
      apply In_outbound in Hout. destruct Hout as [Hout _].
      assert (Hmarks : emits (fun ev => forall s i,
                                ev = PgQuery (UpdateOpenSearchStatus s i) ->
                                s = "failed" /\ i = tenant_id)
                         (markTenantOpenSearchFailed env tenant_id
                            (JsError.message e))).
      { apply emits_markTenantOpenSearchFailed; intros; try discriminate.
        match goal with
        | Heq : PgQuery _ = PgQuery _ |- _ => injection Heq as <- <-
        end.
        auto. }
      pose proof (emits_In _ _ _ _ Hmarks Hout status id eq_refl) as Hmark.
      destruct Hmark as [-> ->]. split; [reflexivity|]. split; [reflexivity|].
      split; [eauto|].
      destruct (result (getTenant env tenant_id w)) as [tenant|e'];
        [|left; destruct Htry as (He & _); eauto].
      destruct Htry as (Hskip & _ & [Hcase|(t & -> & Ht)]); [|right; eauto].
      destruct (Hskip Hcase) as (Hnormal & _). congruence.
Qed.

(** The fetch leaves the pool as it is and opens no transaction. *)
Lemma getTenant_keeps tenant_id w :
  txn w = None ->
  let r := getTenant env tenant_id w in
  pool (final r) = pool w /\ txn (final r) = None.
Proof.
  intros Htxn. cbv zeta.
  apply (preserves_getTenant env (fun w' => pool w' = pool w /\ txn w' = None)).
  - intros w' n Hw'. exact Hw'.
  - intros w' [Hpool _]. split; [exact Hpool | reflexivity].
  - split; [reflexivity | exact Htxn].
Qed.

(** With a pool and a connection the failure marking sends its UPDATE. *)
Lemma markTenantOpenSearchFailed_sends tenantId errorMessage w :
  pool w = true ->
  pg_fault env (clock w) = None ->
  outbound (emitted (markTenantOpenSearchFailed env tenantId errorMessage w))
  = [PgConnect; PgQuery (UpdateOpenSearchStatus "failed" tenantId); PgRelease].
Proof.
  intros Hpool F0.
  unfold markTenantOpenSearchFailed, query, pool_connect, getFreshToken,
    signer_getAuthToken, originalConnect, client_query, client_release, run_sql.
  run. rewrite Hpool. run. world. rewrite F0. run. world.
  destruct (pg_fault env (S (clock w))) as [e1|]; run; world; reflexivity.
Qed.

(** C9, what the code does: the [try] of the handler encloses the fetch
    of the tenant, and the failure marking updates the row without
    looking at its status.  So when the fetch raises and the store then
    accepts the marking, the handler raises the error of the fetch,
    having validated nothing, and every row of the tenant now has status
    'failed', whatever it was before, 'ready' included; the collection
    reference stays as it was. *)
Theorem failed_fetch_marks_tenant_failed message tenant_id e w :
  pool w = true ->
  txn w = None ->
  Get message "tenant_id" = Normal tenant_id ->
  result (getTenant env tenant_id w) = Throw e ->
  let fetched := final (getTenant env tenant_id w) in
  pg_fault env (clock fetched) = None ->
  pg_fault env (S (clock fetched)) = None ->
  let r := processTenantMessage env message w in
  result r = Throw e
  /\ filter is_write (emitted r)
     = [PgQuery (UpdateOpenSearchStatus "failed" tenant_id)]
  /\ tenants (final r)
     = map (fun row => if pg_eq tenant_id (Tenant.id row)
                       then set_opensearch_status "failed"
                              (S (S (clock fetched))) row
                       else row) (tenants w)
  /\ (forall row,
        In row (tenants w) -> pg_eq tenant_id (Tenant.id row) = true ->
        exists marked,
          In marked (tenants (final r))
          /\ Tenant.id marked = Tenant.id row
          /\ Tenant.opensearch_arn marked = Tenant.opensearch_arn row
          /\ Tenant.opensearch_status marked = Some "failed").
Proof.
  intros Hpool Htxn Hid Hfetch. cbv zeta. intros F0 F1.
  pose proof (processTenantMessage_run message tenant_id w Hid) as Hrun.
  pose proof (provisionTenant_run tenant_id w) as Htry.
  pose proof (getTenant_reads tenant_id w) as Hread.
  pose proof (getTenant_keeps tenant_id w Htxn) as Hkeeps.
  cbv zeta in Hrun, Htry, Hread, Hkeeps.
  destruct Hread as (Hrows & _ & _ & Hwrites & _).
  destruct Hkeeps as (Hpool' & Htxn'). rewrite Hpool in Hpool'.
  rewrite Hfetch in Htry. destruct Htry as (Htried & Hstate & Hout).
  rewrite Htried, Hstate in Hrun. destruct Hrun as (Hres & Hfinal & Hout').
  pose proof (markTenantOpenSearchFailed_marks env tenant_id (JsError.message e)
                _ Hpool' Htxn' F0 F1) as Hmarks.
  pose proof (markTenantOpenSearchFailed_sends tenant_id (JsError.message e)
                _ Hpool' F0) as Hsends.
  assert (Hafter : tenants (final (processTenantMessage env message w))
                   = map (fun row => if pg_eq tenant_id (Tenant.id row)
                                     then set_opensearch_status "failed"
                                            (S (S (clock (final (getTenant env tenant_id w)))))
                                            row
                                     else row) (tenants w)).
  { rewrite Hfinal, Hmarks, Hrows. reflexivity. }
  split; [exact Hres|]. split; [|split; [exact Hafter|]].
  - rewrite <- (filter_outbound is_write)
      by (intros [] ?; (discriminate || reflexivity)).
    rewrite Hout', Hout, Hsends, filter_app.
    rewrite (filter_outbound is_write)
      by (intros [] ?; (discriminate || reflexivity)).
    rewrite Hwrites. reflexivity.
  - intros row Hin Hmatch.
    exists (set_opensearch_status "failed"
              (S (S (clock (final (getTenant env tenant_id w))))) row).
    split; [|repeat split].
    rewrite Hafter. apply in_map_iff. exists row. split; [|exact Hin].
    rewrite Hmatch. reflexivity.
Qed.

(** C10: the handler's result, the state it leaves and everything it
    sends out depend on the payload through tenant_id alone, so two
    events for one tenant that differ in tenant_slug are provisioned
    alike; every provisioning command the handler issues is about the
    collection named 'accreda-' followed by the slug of the row fetched
    from the tenant table; and for a tenant that passes validation the
    collection of that name is created: once the provider has accepted
    the two security policies, the handler sends CreateCollection for
    'accreda-' followed by the stored slug, with the stored slug in the
    description and the tags, whatever slug the payload carries. *)
Theorem collection_named_after_stored_slug message message' tenant_id w :
  Get message "tenant_id" = Normal tenant_id ->
  Get message' "tenant_id" = Normal tenant_id ->
  let r := processTenantMessage env message w in
  let r' := processTenantMessage env message' w in
  result r = result r'
  /\ final r = final r'
  /\ outbound (emitted r) = outbound (emitted r')
  /\ (forall cmd,
        In (AossSend cmd) (emitted r) ->
        exists tenant,
          result (getTenant env tenant_id w) = Normal (Some tenant)
          /\ about ("accreda-" ++ Tenant.slug tenant) cmd)
  /\ (forall tenant text,
        result (getTenant env tenant_id w) = Normal (Some tenant) ->
        eligible tenant ->
        ToString tenant_id = Normal text ->
        let fetched := final (getTenant env tenant_id w) in
        let name := "accreda-" ++ Tenant.slug tenant in
        policy_accepted (aoss_reply env (clock fetched) (encryptionCommand name)) ->
        policy_accepted (aoss_reply env (S (clock fetched)) (networkCommand name)) ->
        let creation :=
          AossSend (creationCommand name (Tenant.slug tenant) tenant_id text) in
        In creation (emitted r) /\ In creation (emitted r')).
Proof.
  intros Hid Hid'. cbv zeta.
  pose proof (processTenantMessage_run message tenant_id w Hid) as Hrun.
  pose proof (processTenantMessage_run message' tenant_id w Hid') as Hrun'.
  pose proof (provisionTenant_run tenant_id w) as Htry.
  pose proof (getTenant_reads tenant_id w) as Hread.
  cbv zeta in Hrun, Hrun', Htry, Hread.
  destruct Hread as (_ & _ & Hfetched & _).
  assert (Hsame : result (processTenantMessage env message w)
                  = result (processTenantMessage env message' w)
                  /\ final (processTenantMessage env message w)
                     = final (processTenantMessage env message' w)
                  /\ outbound (emitted (processTenantMessage env message w))
                     = outbound (emitted (processTenantMessage env message' w))).
  { destruct (result (provisionTenant env tenant_id w)) as [[]|e];
      destruct Hrun as (-> & -> & ->); destruct Hrun' as (-> & -> & ->);
      repeat split. }
  destruct Hsame as (Hres & Hfin & Hout).
  split; [exact Hres|]. split; [exact Hfin|]. split; [exact Hout|].
  split.
  2:{ intros tenant text Hfetch Ht Htext Hok1 Hok2.
      destruct (createCollection_creates env tenant_id (Tenant.slug tenant) text
                  (final (getTenant env tenant_id w)) Hok1 Hok2 Htext)
        as (later & Hcreated).
      rewrite Hfetch in Htry. destruct Htry as (_ & Hprov & _).
      specialize (Hprov tenant eq_refl Ht). cbv zeta in Hprov.
      assert (Htried : In (AossSend (creationCommand ("accreda-" ++ Tenant.slug tenant)
                                       (Tenant.slug tenant) tenant_id text))
                         (outbound (emitted (provisionTenant env tenant_id w)))).
      { destruct (result (createCollection env tenant_id (Tenant.slug tenant)
                            (final (getTenant env tenant_id w))));
          destruct Hprov as (_ & _ & ->); apply in_or_app; right;
          [apply in_or_app; left|]; unfold getCollectionName in Hcreated;
          rewrite Hcreated; right; right; left; reflexivity. }
      assert (Hsent : In (AossSend (creationCommand ("accreda-" ++ Tenant.slug tenant)
                                      (Tenant.slug tenant) tenant_id text))
                        (outbound (emitted (processTenantMessage env message w)))).
      { destruct (result (provisionTenant env tenant_id w)) as [[]|e].
        - destruct Hrun as (_ & _ & ->). exact Htried.
        - destruct Hrun as (_ & _ & ->). apply in_or_app. left. exact Htried. }
      split; [|rewrite Hout in Hsent]; apply In_outbound in Hsent; apply Hsent. }
  intros cmd Hin.
  assert (Hsent : In (AossSend cmd)
                    (outbound (emitted (processTenantMessage env message w)))).
  { apply In_outbound. split; [exact Hin | reflexivity]. }
  assert (Hnone : forall evs : list (Event num),
             filter is_aoss evs = [] -> ~ In (AossSend cmd) (outbound evs)).
  { intros evs Hevs Hcmd. apply In_outbound in Hcmd. destruct Hcmd as [Hcmd _].
    assert (Hf : In (AossSend cmd) (filter is_aoss evs))
      by (apply filter_In; split; [exact Hcmd | reflexivity]).
    rewrite Hevs in Hf. destruct Hf. }
  assert (Hmarked : forall text w', ~ In (AossSend cmd)
             (outbound (emitted (markTenantOpenSearchFailed env tenant_id text w')))).
  { intros text w'. apply Hnone. apply filter_quiet.
    apply emits_markTenantOpenSearchFailed; intros; reflexivity. }
  assert (Htried : In (AossSend cmd)
                     (outbound (emitted (provisionTenant env tenant_id w)))).
  { destruct (result (provisionTenant env tenant_id w)) as [[]|e].
    - destruct Hrun as (_ & _ & Heq). rewrite <- Heq. exact Hsent.
    - destruct Hrun as (_ & _ & Heq). rewrite Heq in Hsent.
      apply in_app_or in Hsent. destruct Hsent as [Hs|Hs]; [exact Hs|].
      destruct (Hmarked _ _ Hs). }
  destruct (result (getTenant env tenant_id w)) as [tenant|e].
  2:{ destruct Htry as (_ & _ & Heq). rewrite Heq in Htried.
      destruct (Hnone _ Hfetched Htried). }
  destruct Htry as (Hskip & Hprov & [Hcase|(t & -> & Ht)]).
  { destruct (Hskip Hcase) as (_ & _ & Heq). rewrite Heq in Htried.
    destruct (Hnone _ Hfetched Htried). }
  exists t. split; [reflexivity|].
  specialize (Hprov t eq_refl Ht).
  assert (Hcreated : forall w',
             In (AossSend cmd)
                (outbound (emitted (createCollection env tenant_id (Tenant.slug t) w'))) ->
             about ("accreda-" ++ Tenant.slug t) cmd).
  { intros w' Hc. apply In_outbound in Hc. destruct Hc as [Hc _].
    assert (Habout : emits (fun ev => forall c, ev = AossSend c ->
                                  about ("accreda-" ++ Tenant.slug t) c)
                       (createCollection env tenant_id (Tenant.slug t))).
    { apply emits_createCollection; intros; try discriminate.
      match goal with
      | Heq : AossSend _ = AossSend _ |- _ => injection Heq as <-
      end.
      assumption. }
    exact (emits_In _ _ _ _ Habout Hc cmd eq_refl). }
  destruct (result (createCollection env tenant_id (Tenant.slug t)
                      (final (getTenant env tenant_id w))))
    as [collection|e] eqn:Hc.
  - destruct Hprov as (_ & _ & Heq). rewrite Heq in Htried.
    apply in_app_or in Htried. destruct Htried as [Hs|Hs];
      [destruct (Hnone _ Hfetched Hs)|].
    apply in_app_or in Hs. destruct Hs as [Hs|Hs]; [eapply Hcreated; exact Hs|].
    exfalso. revert Hs. apply Hnone. apply filter_quiet.
    apply emits_updateTenantOpenSearch; intros; reflexivity.
  - destruct Hprov as (_ & _ & Heq). rewrite Heq in Htried.
    apply in_app_or in Htried. destruct Htried as [Hs|Hs];
      [destruct (Hnone _ Hfetched Hs)|].
    eapply Hcreated; exact Hs.
Qed.

End OrchestratorFacts.

(* ================================================================== *)
(** ** The readiness poll and a FAILED status *)
(* ================================================================== *)

Section PollFailed.
Context {num : Type} `{JsRuntime num}.
Variable env : Env num.

(** C2, what the code does: a FAILED status reported before the last
    attempt does not end the poll.  The error raised for it is caught by
    the attempt's own [catch], which logs it and sleeps 30 seconds; the
    attempt ends normally and the loop goes on to the next query. *)
Theorem failed_status_is_not_terminal name max attempt collection rest created w :
  attempt <> max ->
  aoss_reply env (clock w) (BatchGetCollectionCommand [name])
  = Normal (mkAossResponse created (Some (collection :: rest))) ->
  Collection.status collection = "FAILED" ->
  let r := pollAttempt env name max attempt w in
  result r = Normal None
  /\ outbound (emitted r)
     = [AossSend (BatchGetCollectionCommand [name]); Sleep 30000].
Proof.
  intros Hlast Hreply Hfailed. cbv zeta.
  unfold pollAttempt, aoss_client_send. run. rewrite Hreply. run.
  cbn [collectionDetails]. rewrite Hfailed.
  replace ("FAILED" =? "ACTIVE") with false by reflexivity.
  replace ("FAILED" =? "FAILED") with true by reflexivity. run.
  destruct (Nat.eqb_spec attempt max); [contradiction|]. run.
  split; reflexivity.
Qed.
End PollFailed.

(* ================================================================== *)
(** ** The polling loop (sqsService.js, startPolling) *)
(* ================================================================== *)

Section LoopFacts.
Context {num : Type} `{JsRuntime num}.
Variable env : Env num.

(** The [catch] of the per-message block only logs, and so does the
    [catch] of a turn of the loop (followed by a sleep): neither block
    raises. *)
Lemma processMessage_returns h m w :
  result (processMessage env h m w) = Normal tt.
Proof.
  unfold processMessage, try_catch.
  destruct (bind _ _ w) as [[[]|e] w1 evs1]; [reflexivity|].
  unfold logger_error, emit. reflexivity.
Qed.

Lemma pollIteration_returns h w :
  result (pollIteration env h w) = Normal tt.
Proof.
  unfold pollIteration, try_catch.
  destruct (bind _ _ w) as [[[]|e] w1 evs1]; [reflexivity|].
  unfold logger_error, delay, emit, bind. reflexivity.
Qed.

(** The loop itself raises nowhere; when it is left, [isPolling] was
    found false. *)
Lemma pollWhile_returns h n : forall w,
  exists stopped, result (pollWhile env h n w) = Normal stopped
    /\ (stopped = true -> isPolling (final (pollWhile env h n w)) = false).
Proof.
  induction n as [|k IH]; intros w; cbn [pollWhile].
  - exists false. split; [reflexivity | discriminate].
  - run. destruct (isPolling w) eqn:Hp.
    + pose proof (pollIteration_returns h w) as Hit.
      destruct (pollIteration env h w) as [res w1 evs1]. cbn [result] in Hit.
      subst res. destruct (IH w1) as (stopped & Hres & Hflag).
      destruct (pollWhile env h k w1) as [res w2 evs2].
      cbn [result final] in *. exists stopped. auto.
    + exists true. split; [reflexivity|]. intros _. exact Hp.
Qed.

(** Hence [startPolling] never raises. *)
Lemma startPolling_returns h n w :
  exists stopped, result (startPolling env h n w) = Normal stopped.
Proof.
  unfold startPolling. run.
  destruct (pollWhile_returns h n (set_isPolling true w)) as (stopped & Hres & _).
  destruct (pollWhile env h n (set_isPolling true w)) as [res w1 evs1].
  cbn [result] in Hres. subst res. exists stopped. destruct stopped; reflexivity.
Qed.

(** X2: [startPolling] never raises, whatever the handler, the queue,
    the store and the provider do: every error of a turn of its loop is
    caught and logged inside the loop.  When it returns because the loop
    was left, [isPolling] is false. *)
Theorem startPolling_never_raises h n w :
  let r := startPolling env h n w in
  exists stopped,
    result r = Normal stopped
    /\ (stopped = true -> isPolling (final r) = false).
Proof.
  cbv zeta. unfold startPolling. run.
  destruct (pollWhile_returns h n (set_isPolling true w)) as (stopped & Hres & Hflag).
  destruct (pollWhile env h n (set_isPolling true w)) as [res w1 evs1].
  cbn [result final] in *. subst res.
  exists stopped. destruct stopped; run; (split; [reflexivity|]);
    [exact Hflag | discriminate].
Qed.

Section LoopFootprint.
Variable P : Event num -> Prop.
Hypothesis P_log : forall level text meta, P (Log level text meta).
Hypothesis P_sleep : forall ms, P (Sleep ms).
Hypothesis P_delete :
  forall receiptHandle, P (SqsSend (DeleteMessageCommand receiptHandle)).

Lemma emits_forEach {A} (items : list A) (body : A -> M num unit) :
  (forall item, emits P (body item)) -> emits P (forEach items body).
Proof.
  intros Hbody. induction items as [|item rest IH]; cbn [forEach]; footprint; auto.
Qed.

Lemma emits_processMessage h m :
  (forall body, emits P (h body)) -> emits P (processMessage env h m).
Proof.
  intros Hh. unfold processMessage, deleteMessage, sqs_delete, validateMessage,
    requiredFields. cbn [checkRequiredFields].
  footprint; auto.
Qed.

Lemma emits_pollIteration h :
  P (SqsSend (ReceiveMessageCommand 1 20 300)) ->
  (forall body, emits P (h body)) -> emits P (pollIteration env h).
Proof.
  intros Hreceive Hh. unfold pollIteration, receiveMessages, sqs_receive.
  footprint; auto using emits_forEach, emits_processMessage.
Qed.

End LoopFootprint.

Section LoopFrame.
Variable I : World -> Prop.
Hypothesis I_clock : ignores_clock I.
Hypothesis I_queue : forall w q, I w -> I (set_queue q w).

Lemma preserves_forEach {A} (items : list A) (body : A -> M num unit) :
  (forall item, preserves I (body item)) -> preserves I (forEach items body).
Proof.
  intros Hbody. induction items as [|item rest IH]; cbn [forEach]; frame; auto.
Qed.

Lemma preserves_processMessage h m :
  (forall body, preserves I (h body)) -> preserves I (processMessage env h m).
Proof.
  intros Hh. unfold processMessage, deleteMessage, sqs_delete, validateMessage,
    requiredFields. cbn [checkRequiredFields].
  frame; auto; intros w Hw; apply I_queue; exact Hw.
Qed.

Lemma preserves_pollIteration h :
  (forall body, preserves I (h body)) -> preserves I (pollIteration env h).
Proof.
  intros Hh. unfold pollIteration, receiveMessages, sqs_receive.
  frame; auto using preserves_forEach, preserves_processMessage.
Qed.

End LoopFrame.


(** The store knows nothing of [isPolling]. *)
Lemma run_sql_isPolling (stmt : SqlStmt num) b :
  preserves (fun w => isPolling w = b) (run_sql stmt).
Proof.
  intros w Hw. destruct stmt; unfold run_sql; run; world; try assumption;
    destruct (txn w); assumption.
Qed.

(** A turn of the loop makes one receive call, provided the handler
    makes none. *)
Lemma pollIteration_receives_once h w :
  (forall body, emits (fun ev => is_receive ev = false) (h body)) ->
  length (filter is_receive (emitted (pollIteration env h w))) = 1.
Proof.
  intros Hh. unfold pollIteration, receiveMessages, sqs_receive. run.
  destruct (sqs_fault env (clock w)) as [e|]; run; [reflexivity|]. world.
  assert (Hquiet : forall items w',
             filter is_receive (emitted (forEach items (processMessage env h) w')) = []).
  { intros items w'. apply filter_quiet.
    apply emits_forEach; intros; apply emits_processMessage; auto. }
  destruct (firstn 1 (queue w)) as [|m rest]; run.
  - reflexivity.
  - match goal with
    | |- context [forEach ?items ?body ?w'] =>
        specialize (Hquiet items w'); destruct (forEach items body w') as [[[]|e] w1 evs1]
    end; cbn [emitted] in Hquiet; run; cbn [filter is_receive app length];
      rewrite ?filter_app, ?Hquiet; reflexivity.
Qed.

(** X3: with [processTenantMessage] as its handler, [startPolling] does
    not leave its loop on its own: after any number [n] of turns the
    loop is still running, [isPolling] is still true, and exactly [n]
    receive calls have been made, one per turn. *)
Theorem service_polls_until_stopped n w :
  let r := startPolling env (processTenantMessage env) n w in
  result r = Normal false
  /\ isPolling (final r) = true
  /\ length (filter is_receive (emitted r)) = n.
Proof.
  cbv zeta. unfold startPolling. run.
  assert (Hloop : forall k w', isPolling w' = true ->
            let r := pollWhile env (processTenantMessage env) k w' in
            result r = Normal false /\ isPolling (final r) = true
            /\ length (filter is_receive (emitted r)) = k).
  { induction k as [|k IH]; intros w' Hw'; cbn [pollWhile]; run.
    - repeat split. exact Hw'.
    - rewrite Hw'.
      assert (Hkeep : isPolling (final (pollIteration env (processTenantMessage env) w'))
                      = true).
      { apply (preserves_pollIteration (fun w => isPolling w = true)
                 (fun _ _ Hw => Hw) (fun _ _ Hw => Hw) (processTenantMessage env));
          [|exact Hw'].
        intros body. apply preserves_processTenantMessage;
          [intros ? ? Hw; exact Hw | intros ? Hw; exact Hw |].
        intros stmt _. apply run_sql_isPolling. }
      assert (Hone : length (filter is_receive
                 (emitted (pollIteration env (processTenantMessage env) w'))) = 1).
      { apply pollIteration_receives_once.
        intros body. apply emits_processTenantMessage; intros; reflexivity. }
      pose proof (pollIteration_returns (processTenantMessage env) w') as Hret.
      destruct (pollIteration env (processTenantMessage env) w') as [res w1 evs1].
      cbn [result final emitted] in *. subst res.
      specialize (IH w1 Hkeep). cbv zeta in IH.
      destruct (pollWhile env (processTenantMessage env) k w1) as [res w2 evs2].
      cbn [result final emitted] in *. destruct IH as (-> & Hp & Hcount).
      repeat split; [exact Hp|]. cbn [app].
      rewrite filter_app, length_app, Hone, Hcount. reflexivity. }
  specialize (Hloop n (set_isPolling true w) eq_refl). cbv zeta in Hloop.
  destruct (pollWhile env (processTenantMessage env) n (set_isPolling true w))
    as [res w1 evs1].
  cbn [result final emitted] in *. destruct Hloop as (-> & Hp & Hcount).
  run. repeat split; [exact Hp|]. cbn [filter is_receive]. rewrite app_nil_r.
  exact Hcount.
Qed.

End LoopFacts.

Section LoopTurns.
Context {num : Type} `{JsRuntime num}.
Variable env : Env num.

(** X4: a turn of the loop whose receive call is answered takes the
    oldest message of the queue and no other, hands it to the
    per-message block in the state the receive left, and ends normally
    whatever that block does. *)
Theorem pollIteration_takes_oldest h m rest w :
  sqs_fault env (clock w) = None ->
  queue w = m :: rest ->
  let p := processMessage env h m (set_clock (S (clock w)) w) in
  let r := pollIteration env h w in
  result r = Normal tt
  /\ final r = final p
  /\ outbound (emitted r)
     = SqsSend (ReceiveMessageCommand 1 20 300) :: outbound (emitted p).
Proof.
  intros Hok Hqueue. cbv zeta.
  pose proof (processMessage_returns env h m (set_clock (S (clock w)) w)) as Hret.
  unfold pollIteration, receiveMessages, sqs_receive. run. rewrite Hok. run. world.
  rewrite Hqueue. cbn [firstn forEach]. run.
  destruct (processMessage env h m (set_clock (S (clock w)) w)) as [res w1 evs1].
  cbn [result final emitted] in *. subst res. run.
  repeat split. outs. reflexivity.
Qed.

(** X5: a turn of the loop without a message.  When the receive call
    fails, the turn logs, sleeps 5 seconds and ends normally, and the
    handler is not called; when the queue is empty, the turn consists of
    the receive call alone, without a log line. *)
Theorem pollIteration_without_message h w :
  let r := pollIteration env h w in
  result r = Normal tt
  /\ match sqs_fault env (clock w) with
     | Some e =>
         final r = set_clock (S (clock w)) w
         /\ outbound (emitted r)
            = [SqsSend (ReceiveMessageCommand 1 20 300); Sleep 5000]
     | None =>
         queue w = [] ->
         final r = set_clock (S (clock w)) w
         /\ emitted r = [SqsSend (ReceiveMessageCommand 1 20 300)]
     end.
Proof.
  cbv zeta. split; [apply pollIteration_returns|].
  unfold pollIteration, receiveMessages, sqs_receive. run.
  destruct (sqs_fault env (clock w)) as [e|]; run; world.
  - split; reflexivity.
  - intros ->. cbn [firstn forEach]. run. split; reflexivity.
Qed.

(** X6: when the handler returns and the delete call then fails, the
    per-message block still ends normally: the error is only logged,
    the message stays in the queue and what the handler did to the
    tenant table stays in place, so the event will be handled again. *)
Theorem failed_delete_keeps_message h message messageBody e w :
  JSON_parse (SqsMessage.Body message) = Normal messageBody ->
  result (validateMessage messageBody w) = Normal true ->
  result (h messageBody w) = Normal tt ->
  sqs_fault env (clock (final (h messageBody w))) = Some e ->
  let handled := h messageBody w in
  let r := processMessage env h message w in
  result r = Normal tt
  /\ queue (final r) = queue (final handled)
  /\ tenants (final r) = tenants (final handled)
  /\ outbound (emitted r)
     = (outbound (emitted handled)
        ++ [SqsSend (DeleteMessageCommand (SqsMessage.ReceiptHandle message))])%list.
Proof.
  intros Hparse Hvalid Hhandled Hfault. cbv zeta.
  pose proof (processMessage_dispatch env h message messageBody w Hparse Hvalid)
    as Hloop.
  cbv zeta in Hloop. rewrite Hhandled in Hloop.
  destruct Hloop as (Hres & Hfinal & Hout).
  pose proof (deleteMessage_run env (SqsMessage.ReceiptHandle message)
                (final (h messageBody w))) as Hdel.
  cbv zeta in Hdel. rewrite Hfault in Hdel.
  destruct Hdel as (Hdout & Hdrows & _ & Hdqueue).
  rewrite Hfinal, Hout, Hdout. auto.
Qed.

End LoopTurns.

(* ================================================================== *)
(** ** The patterns and the payload check, spelled out *)
(* ================================================================== *)

Lemma length_append (a b : string) :
  String.length (a ++ b) = String.length a + String.length b.
Proof. induction a as [|c a IH]; cbn; [reflexivity | rewrite IH; reflexivity]. Qed.

Lemma all_in_append (c : ascii -> bool) (a b : string) :
  all_in c (a ++ b) = all_in c a && all_in c b.
Proof.
  induction a as [|x a IH]; cbn; [reflexivity|].
  rewrite IH, andb_assoc. reflexivity.
Qed.

Lemma append_empty (a : string) : a ++ "" = a.
Proof. induction a as [|c a IH]; cbn; [reflexivity | rewrite IH; reflexivity]. Qed.

(** The literal hyphen, and repetitions with an exact count. *)
Lemma dash_char x : dash x = true -> x = "-"%char.
Proof.
  unfold dash. intros Hx. apply Nat.eqb_eq in Hx.
  rewrite <- (ascii_nat_embedding x), Hx. reflexivity.
Qed.

Lemma exact_length (c : ascii -> bool) n chunk :
  rmin (times c n) <= String.length chunk <= rmax (times c n) ->
  String.length chunk = n.
Proof. cbn. lia. Qed.

(** [[a-z0-9]] is part of [[a-z0-9-]]. *)
Lemma lower_alnum_is_dash_class x :
  lower_alnum x = true -> lower_alnum_dash x = true.
Proof.
  unfold lower_alnum, lower_alnum_dash. intros Hx. rewrite Hx. reflexivity.
Qed.

Lemma all_in_last (c : ascii -> bool) (s : string) (x : ascii) :
  all_in c (s ++ String x "") = true -> all_in c s = true /\ c x = true.
Proof.
  rewrite all_in_append. cbn. rewrite andb_true_r. apply andb_true_iff.
Qed.

(** X7: the UUID pattern of [validateMessage] accepts exactly the
    strings made of five groups of 8, 4, 4, 4 and 12 hexadecimal digits,
    upper or lower case, separated by single hyphens. *)
Theorem uuid_pattern_accepts_iff s :
  regex_match uuidRegex s = true <->
  exists a b c d e,
    s = a ++ "-" ++ b ++ "-" ++ c ++ "-" ++ d ++ "-" ++ e
    /\ String.length a = 8 /\ String.length b = 4 /\ String.length c = 4
    /\ String.length d = 4 /\ String.length e = 12
    /\ all_in hex_i a = true /\ all_in hex_i b = true /\ all_in hex_i c = true
    /\ all_in hex_i d = true /\ all_in hex_i e = true.
Proof.
  rewrite (regex_match_correct uuidRegex (proj1 patterns_well_formed)).
  unfold uuidRegex. split.
  - intros Hm.
    repeat match goal with
    | Hm : matches_atoms (_ :: _) _ |- _ =>
        let chunk := fresh "chunk" in
        let Hlen := fresh "Hlen" in
        let Hall := fresh "Hall" in
        inversion Hm as [|? ? chunk ? Hlen Hall ?]; subst; clear Hm
    | Hm : matches_atoms [] _ |- _ => inversion Hm; subst; clear Hm
    end.
    repeat match goal with
    | Hlen : _ <= String.length ?chunk <= _,
      Hall : all_in (cls (times dash 1)) ?chunk = true |- _ =>
        let x := fresh "x" in
        let Hx := fresh "Hx" in
        destruct (one_char _ _ Hlen Hall) as (x & -> & Hx);
        apply dash_char in Hx; subst x; clear Hlen Hall
    end.
    repeat match goal with
    | Hlen : _ <= String.length _ <= _ |- _ => apply exact_length in Hlen
    end.
    cbn [cls times] in *.
    cbn [append]. rewrite append_empty.
    do 5 eexists. split; [reflexivity|]. repeat split; assumption.
  - intros (a & b & c & d & e & -> & La & Lb & Lc & Ld & Le & Ha & Hb & Hc & Hd & He).
    replace e with (e ++ "") by apply append_empty.
    repeat (constructor; [cbn; lia | cbn; auto |]). constructor.
Qed.

(** X8: the slug pattern of [validateMessage] accepts exactly the
    strings of 3 to 64 characters, all lower-case letters, digits or
    hyphens, whose first and last characters are not hyphens. *)
Theorem slug_pattern_accepts_iff s :
  regex_match slugRegex s = true <->
  3 <= String.length s <= 64
  /\ all_in lower_alnum_dash s = true
  /\ (exists first rest, s = String first rest /\ lower_alnum first = true)
  /\ (exists front last, s = front ++ String last "" /\ lower_alnum last = true).
Proof.
  rewrite slugRegex_spec. split.
  - intros (first & middle & last & -> & Hfirst & Hmiddle & Hlen & Hlast).
    repeat split.
    + cbn. rewrite length_append. cbn. lia.
    + cbn. rewrite length_append. cbn. lia.
    + cbn. rewrite all_in_append, Hmiddle. cbn.
      rewrite (lower_alnum_is_dash_class _ Hfirst), (lower_alnum_is_dash_class _ Hlast).
      reflexivity.
    + exists first, (middle ++ String last ""). auto.
    + exists (String first middle), last. auto.
  - intros (Hlen & Hall & (first & rest & -> & Hfirst) & (front & last & Hs & Hlast)).
    destruct front as [|first' middle].
    { cbn in Hs. injection Hs as _ ->. cbn in Hlen. lia. }
    cbn in Hs. injection Hs as <- ->.
    exists first, middle, last. cbn in Hlen, Hall. rewrite length_append in Hlen.
    cbn in Hlen. apply andb_true_iff in Hall. destruct Hall as [_ Hall].
    apply all_in_last in Hall. destruct Hall as [Hmiddle _].
    repeat split; auto; lia.
Qed.

(** X9: for a slug that the slug pattern accepts, [getCollectionName]
    gives a name of 11 to 72 characters, all of them lower-case letters,
    digits or hyphens, that starts with the letter a and does not end
    with a hyphen. *)
Theorem collection_name_of_valid_slug slug :
  regex_match slugRegex slug = true ->
  let name := getCollectionName slug in
  11 <= String.length name <= 72
  /\ all_in lower_alnum_dash name = true
  /\ (exists rest last,
        name = String "a" (rest ++ String last "") /\ lower_alnum last = true).
Proof.
  intros Hslug. cbv zeta. unfold getCollectionName.
  apply slugRegex_spec in Hslug.
  destruct Hslug as (first & middle & last & -> & Hfirst & Hmiddle & Hlen & Hlast).
  repeat split.
  - cbn. rewrite length_append. cbn. lia.
  - cbn. rewrite length_append. cbn. lia.
  - cbn. rewrite all_in_append, Hmiddle. cbn.
    rewrite (lower_alnum_is_dash_class _ Hfirst), (lower_alnum_is_dash_class _ Hlast).
    reflexivity.
  - exists ("ccreda-" ++ String first middle), last. split; [reflexivity | exact Hlast].
Qed.

Section ValidationLog.
Context {num : Type} `{JsRuntime num}.

(** X10: [validateMessage] changes nothing; it logs exactly one warning
    when it returns [false], and nothing when it returns [true] or
    raises. *)
Theorem validateMessage_warns_once (payload : JsValue num) (w : World) :
  let r := validateMessage payload w in
  final r = w
  /\ match result r with
     | Normal true => emitted r = []
     | Normal false => exists text meta, emitted r = [Log Warn text meta]
     | Throw e => emitted r = []
     end.
Proof.
  cbv zeta. split; [apply validateMessage_pure|].
  unfold validateMessage, requiredFields.
  destruct (ToBoolean payload) eqn:Htruthy; run; [|(cbn [app]; eauto)].
  destruct (typeof payload =? "object") eqn:Hobj; run; [|(cbn [app]; eauto)].
  apply String.eqb_eq in Hobj.
  destruct (typeof_object _ Htruthy Hobj) as [[props ->]|[elems ->]].
  2:{ cbn [checkRequiredFields Get]. run. cbn [ToBoolean]. run. cbn [app]. eauto. }
  cbn [checkRequiredFields Get].
  destruct (lookup_prop props "tenant_id") as [tid|] eqn:Hid; run;
    [|cbn [ToBoolean]; run; (cbn [app]; eauto)].
  destruct (ToBoolean tid) eqn:Htid; run; [|(cbn [app]; eauto)].
  destruct (lookup_prop props "tenant_slug") as [slug|] eqn:Hslug; run;
    [|cbn [ToBoolean]; run; (cbn [app]; eauto)].
  destruct (ToBoolean slug) eqn:Htslug; run; [|(cbn [app]; eauto)].
  destruct (lookup_prop props "timestamp") as [ts|] eqn:Hts; run;
    [|cbn [ToBoolean]; run; (cbn [app]; eauto)].
  destruct (ToBoolean ts) eqn:Htts; run; [|(cbn [app]; eauto)].
  destruct (test uuidRegex tid) as [[|]|] eqn:Hu; run; (cbn [app]; eauto).
  destruct (test slugRegex slug) as [[|]|] eqn:Hs; run; (cbn [app]; eauto).
Qed.

End ValidationLog.

(* ================================================================== *)
(** ** The record store, case by case *)
(* ================================================================== *)

Section StoreCases.
Context {num : Type} `{JsRuntime num}.
Variable env : Env num.

(** X11: [validateTenantForProvisioning] never raises, changes nothing
    and sends nothing; it answers valid exactly for a tenant that exists,
    whose status is 'active', whose collection reference is null or
    empty, and whose resource status is not 'ready'. *)
Theorem validateTenantForProvisioning_accepts_iff tenant w :
  let r := validateTenantForProvisioning (num:=num) tenant w in
  final r = w
  /\ outbound (emitted r) = []
  /\ exists validation,
       result r = Normal validation
       /\ (Validation.isValid validation = true <->
           exists t, tenant = Some t /\ eligible t).
Proof.
  cbv zeta.
  destruct (validateTenantForProvisioning_decides (num:=num) tenant w)
    as (validation & evs & -> & Hlogs & Haccept & Hreject).
  cbn [result final emitted]. split; [reflexivity|]. split; [exact Hlogs|].
  exists validation. split; [reflexivity|]. split; [exact Haccept|].
  intros (t & -> & Ht).
  destruct (Validation.isValid validation); [reflexivity|].
  destruct (eligible_not_ineligible t Ht (Hreject eq_refl)).
Qed.

(** X12: [query], case by case.  Without a pool it raises 'Database
    pool not initialized' and does nothing.  When the connection cannot
    be obtained it raises that error and there is no client to release.
    Otherwise it sends the statement on the client and releases the
    client, also when the statement raises; it then raises the
    statement's error or returns the statement's result. *)
Theorem query_releases_client stmt w :
  let r := query env stmt w in
  if negb (pool w) then
    result r = Throw pool_not_initialized /\ final r = w /\ emitted r = []
  else
    match pg_fault env (clock w) with
    | Some e => result r = Throw e /\ outbound (emitted r) = [PgConnect]
    | None =>
        outbound (emitted r) = [PgConnect; PgQuery stmt; PgRelease]
        /\ result r
           = match pg_fault env (S (clock w)) with
             | Some e => Throw e
             | None => result (run_sql stmt (set_clock (S (S (clock w))) w))
             end
    end.
Proof.
  cbv zeta. unfold query, pool_connect, getFreshToken, signer_getAuthToken,
    originalConnect, client_query, client_release. run.
  destruct (pool w); run; [|repeat split].
  destruct (pg_fault env (clock w)) as [e0|]; run; world;
    [connect_failed e0; world; repeat split|].
  destruct (pg_fault env (S (clock w))) as [e1|]; run; world; [repeat split|].
  change (set_clock (S (S (clock w))) (set_clock (S (clock w)) w))
    with (set_clock (S (S (clock w))) w).
  destruct (run_sql stmt (set_clock (S (S (clock w))) w)) as [res w1 evs1] eqn:Hsql.
  assert (evs1 = []) as ->.
  { pose proof (emits_run_sql (fun _ => False) stmt (set_clock (S (S (clock w))) w))
      as Hnone.
    rewrite Hsql in Hnone. cbn [emitted] in Hnone.
    destruct evs1; [reflexivity | inversion Hnone; contradiction]. }
  run. world. repeat split.
Qed.


(** The statements of one run of the commit, named. *)
Tactic Notation "sent" uconstr(statements) uconstr(last) :=
  refine (ex_intro _ statements (ex_intro _ last _));
  split; [reflexivity|]; split; [repeat constructor | reflexivity].



(** X14: [getTenant] leaves the rows as they are.  When the connection
    cannot be obtained, or the query fails, it raises that very error;
    otherwise it returns the first row with the given id, or [null]
    with a warning when there is none.  The client, once obtained, is
    released in every case. *)
Theorem getTenant_outcome tenantId w :
  pool w = true ->
  txn w = None ->
  let r := getTenant env tenantId w in
  tenants (final r) = tenants w
  /\ match pg_fault env (clock w), pg_fault env (S (clock w)) with
     | Some e, _ =>
         result r = Throw e /\ outbound (emitted r) = [PgConnect]
     | None, Some e =>
         result r = Throw e
         /\ outbound (emitted r)
            = [PgConnect; PgQuery (SelectTenant tenantId); PgRelease]
     | None, None =>
         result r = Normal (hd_error (matching tenantId (tenants w)))
         /\ outbound (emitted r)
            = [PgConnect; PgQuery (SelectTenant tenantId); PgRelease]
         /\ (matching tenantId (tenants w) = [] ->
             In (Log Warn "Tenant not found" [("tenantId", tenantId)]) (emitted r))
     end.
Proof.
  intros Hpool Htxn. cbv zeta.
  unfold getTenant, query, pool_connect, getFreshToken, signer_getAuthToken,
    originalConnect, client_query, client_release, run_sql, matching.
  run. rewrite Hpool. run. world.
  destruct (pg_fault env (clock w)) as [e0|]; run; world;
    [connect_failed e0; world; repeat split|].
  destruct (pg_fault env (S (clock w))) as [e1|]; run; world; [repeat split|].
  rewrite Htxn.
  destruct (filter (fun r => pg_eq tenantId (Tenant.id r)) (tenants w))
    as [|first rest]; run; world; repeat split; try discriminate.
  intros _. do 5 right. left. reflexivity.
Qed.

(** An UPDATE whose condition no row meets changes no row. *)
Lemma update_unmatched (c : Tenant.t -> bool) (f : Tenant.t -> Tenant.t) rows :
  filter c rows = [] -> map (fun r => if c r then f r else r) rows = rows.
Proof.
  induction rows as [|row rows IH]; cbn; [reflexivity|].
  destruct (c row); [discriminate|]. intros Hnone. rewrite IH by exact Hnone.
  reflexivity.
Qed.

(** X15: the failure marking does not notice a tenant that does not
    exist: when no row has the given id it changes nothing, returns and
    logs 'Tenant OpenSearch status marked as failed' all the same. *)
Theorem marking_unknown_tenant_reports_success tenantId errorMessage w :
  pool w = true ->
  txn w = None ->
  pg_fault env (clock w) = None ->
  pg_fault env (S (clock w)) = None ->
  matching tenantId (tenants w) = [] ->
  let r := markTenantOpenSearchFailed env tenantId errorMessage w in
  result r = Normal tt
  /\ tenants (final r) = tenants w
  /\ In (Log Info "Tenant OpenSearch status marked as failed"
           [("tenantId", tenantId)]) (emitted r).
Proof.
  intros Hpool Htxn F0 F1 Hnone. cbv zeta.
  unfold markTenantOpenSearchFailed, query, pool_connect, getFreshToken,
    signer_getAuthToken, originalConnect, client_query, client_release,
    run_sql. run. rewrite Hpool. run. world.
  rewrite F0. run. world. rewrite F1. run. world. rewrite Htxn.
  split; [reflexivity|]. split; [|do 5 right; left; reflexivity].
  apply update_unmatched. exact Hnone.
Qed.

(** The commit either returns, having updated the rows with the given
    id and only them, or raises, leaving the committed rows as they
    were; either way no transaction is left open. *)
Lemma updateTenantOpenSearch_outcome tenantId opensearchArn status w :
  txn w = None ->
  let r := updateTenantOpenSearch env tenantId opensearchArn status w in
  txn (final r) = None
  /\ match result r with
     | Normal _ =>
         tenants (final r)
         = map (fun row => if pg_eq tenantId (Tenant.id row)
                           then set_opensearch opensearchArn status
                                  (S (S (S (clock w)))) row
                           else row) (tenants w)
     | Throw _ => tenants (final r) = tenants w
     end.
Proof.
  intros Htxn. cbv zeta.
  unfold updateTenantOpenSearch, getClient, pool_connect, getFreshToken,
    signer_getAuthToken, originalConnect, client_query, client_release,
    run_sql. run.
  destruct (pool w) eqn:Hpool; run; world; [|split; [assumption | reflexivity]].
  destruct (pg_fault env (clock w)) as [e0|] eqn:F0; run; world;
    [connect_failed e0; world; (split; [assumption | reflexivity])|].
  destruct (pg_fault env (S (clock w))) as [e1|] eqn:F1; run; world.
  { destruct (pg_fault env (S (S (clock w)))) as [e2|] eqn:F2; run; world;
      split; reflexivity. }
  destruct (pg_fault env (S (S (clock w)))) as [e2|] eqn:F2; run; world;
    rewrite ?Htxn; world.
  { destruct (pg_fault env (S (S (S (clock w))))) as [e3|] eqn:F3; run; world;
      split; reflexivity. }
  rewrite update_rows_returned by reflexivity.
  destruct (filter (fun r => pg_eq tenantId (Tenant.id r)) (tenants w))
    as [|first rest] eqn:Hmatch; cbn [map]; run; world.
  - destruct (pg_fault env (S (S (S (clock w))))) as [e3|] eqn:F3; run; world;
      destruct (pg_fault env (S (S (S (S (clock w)))))) as [e4|] eqn:F4; run; world;
      split; reflexivity.
  - destruct (pg_fault env (S (S (S (clock w))))) as [e3|] eqn:F3; run; world.
    + destruct (pg_fault env (S (S (S (S (clock w)))))) as [e4|] eqn:F4; run; world;
        split; reflexivity.
    + split; reflexivity.
Qed.

(** The failure marking leaves no transaction open, and either leaves
    the rows as they were or sets the status of the rows with the given
    id to 'failed'. *)
Lemma markTenantOpenSearchFailed_outcome tenantId errorMessage w :
  txn w = None ->
  let r := markTenantOpenSearchFailed env tenantId errorMessage w in
  txn (final r) = None
  /\ (tenants (final r) = tenants w
      \/ tenants (final r)
         = map (fun row => if pg_eq tenantId (Tenant.id row)
                           then set_opensearch_status "failed" (S (S (clock w))) row
                           else row) (tenants w)).
Proof.
  intros Htxn. cbv zeta.
  unfold markTenantOpenSearchFailed, query, pool_connect, getFreshToken,
    signer_getAuthToken, originalConnect, client_query, client_release,
    run_sql. run.
  destruct (pool w); run; world; [|auto].
  destruct (pg_fault env (clock w)) as [e0|]; run; world;
    [connect_failed e0; world; auto|].
  destruct (pg_fault env (S (clock w))) as [e1|]; run; world; [auto|].
  rewrite Htxn. auto.
Qed.

(** The fetch, when it returns a row, returns the first row with the
    given id. *)
Lemma getTenant_found tenantId tenant w :
  txn w = None ->
  result (getTenant env tenantId w) = Normal tenant ->
  tenant = hd_error (matching tenantId (tenants w))
  /\ txn (final (getTenant env tenantId w)) = None.
Proof.
  intros Htxn. unfold getTenant, query, pool_connect, getFreshToken,
    signer_getAuthToken, originalConnect, client_query, client_release,
    run_sql, matching. run.
  destruct (pool w); run; world; [|discriminate].
  destruct (pg_fault env (clock w)) as [e0|]; run; world;
    [connect_failed e0; world; discriminate|].
  destruct (pg_fault env (S (clock w))) as [e1|]; run; world; [discriminate|].
  rewrite Htxn.
  destruct (filter (fun r => pg_eq tenantId (Tenant.id r)) (tenants w))
    as [|first rest]; run; world; intros [= <-]; split; reflexivity.
Qed.

End StoreCases.

(* ================================================================== *)
(** ** The provisioning sequence, step by step *)
(* ================================================================== *)

Section ProvisioningSteps.
Context {num : Type} `{JsRuntime num}.
Variable env : Env num.

(** A collection that the poll returns was taken from a status report
    and has status ACTIVE. *)
Lemma pollAttempt_reported name max attempt c w :
  result (pollAttempt env name max attempt w) = Normal (Some c) ->
  reported env name c /\ Collection.status c = "ACTIVE".
Proof.
  unfold pollAttempt, aoss_client_send. run.
  destruct (aoss_reply env (clock w) (BatchGetCollectionCommand [name]))
    as [response|e] eqn:Hreply; run.
  - destruct (collectionDetails response) as [[|c' rest]|] eqn:Hdetails; run;
      try discriminate.
    destruct (Collection.status c' =? "ACTIVE") eqn:Hactive; run.
    + intros [= <-]. apply String.eqb_eq in Hactive. split; [|exact Hactive].
      exists (clock w), response, rest. auto.
    + destruct (Collection.status c' =? "FAILED"); run; [|discriminate].
      destruct (attempt =? max)%nat; run; discriminate.
  - destruct (attempt =? max)%nat; run; discriminate.
Qed.

Lemma pollAttempts_reported name max attempts : forall c w,
  result (pollAttempts env name max attempts w) = Normal c ->
  reported env name c /\ Collection.status c = "ACTIVE".
Proof.
  induction attempts as [|attempt later IH]; intros c w; cbn [pollAttempts].
  - discriminate.
  - unfold bind.
    destruct (pollAttempt env name max attempt w) as [[[c'|]|e] w1 evs1] eqn:Hrun.
    + run. intros [= <-]. apply (pollAttempt_reported name max attempt c' w).
      rewrite Hrun. reflexivity.
    + specialize (IH c w1).
      destruct (pollAttempts env name max later w1) as [res w2 evs2]. exact IH.
    + discriminate.
Qed.

(** The poll sleeps 30 seconds at a time. *)
Lemma emits_thirty_seconds name max attempts :
  emits is_thirty_seconds (pollAttempts env name max attempts).
Proof.
  induction attempts as [|attempt later IH]; cbn [pollAttempts].
  - footprint.
  - apply emits_bind; [|intros [c|]; [footprint | exact IH]].
    unfold pollAttempt, aoss_client_send. footprint; exact I || reflexivity.
Qed.

(** X16: for every attempt budget, [waitForCollectionActive] queries
    the status at most that many times, every sleep lasts 30 seconds,
    what it returns is the first entry of a status report of the
    provider with status ACTIVE, and the only error it raises is
    'Collection did not become active after n attempts': errors of the
    status query and 'Collection creation failed' are only logged.  With
    a budget of zero it raises without a query. *)
Theorem waitForCollectionActive_any_budget name maxAttempts w :
  let r := waitForCollectionActive env name maxAttempts w in
  length (filter is_status_query (emitted r)) <= maxAttempts
  /\ Forall is_thirty_seconds (emitted r)
  /\ match result r with
     | Normal c => reported env name c /\ Collection.status c = "ACTIVE"
     | Throw e => e = did_not_become_active maxAttempts
     end
  /\ (maxAttempts = 0 ->
      result r = Throw (did_not_become_active 0) /\ outbound (emitted r) = []).
Proof.
  cbv zeta. unfold waitForCollectionActive. run.
  pose proof (pollAttempts_bounded env name maxAttempts (seq 1 maxAttempts) w)
    as Hloop.
  pose proof (pollAttempts_reported name maxAttempts (seq 1 maxAttempts)) as Hfrom.
  pose proof (emits_thirty_seconds name maxAttempts (seq 1 maxAttempts) w) as Hsleep.
  cbv zeta in Hloop. rewrite length_seq in Hloop.
  destruct (pollAttempts env name maxAttempts (seq 1 maxAttempts) w)
    as [res w1 evs] eqn:Hrun.
  cbn [result emitted] in *. destruct Hloop as (Hq & _ & Hres).
  split; [exact Hq|]. split; [constructor; [exact I | exact Hsleep]|]. split.
  - destruct res as [c|e].
    + apply (Hfrom c w). rewrite Hrun. reflexivity.
    + destruct Hres as [(c & Hc & _)|He]; congruence.
  - intros ->. cbn [seq pollAttempts] in Hrun. injection Hrun as <- _ <-.
    split; reflexivity.
Qed.


(** X17: when the encryption policy call fails with an error other than
    ConflictException, [createCollection] raises that error and has sent
    nothing else; when the encryption policy is accepted and the network
    policy call fails so, it raises that error after these two calls.
    In both cases the collection is not created. *)
Theorem policy_failure_stops_creation tenantId tenantSlug e w :
  JsError.name e <> "ConflictException" ->
  let name := getCollectionName tenantSlug in
  let r := createCollection env tenantId tenantSlug w in
  (aoss_reply env (clock w) (encryptionCommand name) = Throw e ->
   result r = Throw e
   /\ outbound (emitted r) = [AossSend (encryptionCommand name)])
  /\ (policy_accepted (aoss_reply env (clock w) (encryptionCommand name)) ->
      aoss_reply env (S (clock w)) (networkCommand name) = Throw e ->
      result r = Throw e
      /\ outbound (emitted r)
         = [AossSend (encryptionCommand name); AossSend (networkCommand name)]).
Proof.
  intros Hname. cbv zeta. apply String.eqb_neq in Hname.
  unfold createCollection, createEncryptionPolicy, createNetworkPolicy,
    aoss_client_send, encryptionCommand, networkCommand. run. world.
  split.
  - intros ->. run. rewrite Hname. run. split; reflexivity.
  - intros Hok Hnetwork.
    match goal with
    | |- context [aoss_reply env (clock w) ?cmd] =>
        destruct (aoss_reply env (clock w) cmd) as [r1|e1]
    end; run; world;
      [|cbn in Hok; apply String.eqb_eq in Hok; rewrite Hok; run; world];
      rewrite Hnetwork; run; rewrite Hname; run; split; reflexivity.
Qed.


Lemma waitForCollectionActive_reported name maxAttempts c w :
  result (waitForCollectionActive env name maxAttempts w) = Normal c ->
  reported env name c /\ Collection.status c = "ACTIVE".
Proof.
  unfold waitForCollectionActive. run. 
  destruct (pollAttempts env name maxAttempts (seq 1 maxAttempts) w)
    as [res w1 evs] eqn:Hrun.
  cbn [result]. intros ->.
  apply (pollAttempts_reported name maxAttempts (seq 1 maxAttempts) c w).
  rewrite Hrun. reflexivity.
Qed.

(** What the poll sends: status queries, and sleeps. *)
Lemma waitForCollectionActive_polls name maxAttempts w :
  Forall (fun ev => is_status_query ev = true \/ is_sleep ev = true)
         (outbound (emitted (waitForCollectionActive env name maxAttempts w))).
Proof.
  assert (Hall : emits (fun ev => is_log ev = true \/ is_status_query ev = true
                                  \/ is_sleep ev = true)
                   (waitForCollectionActive env name maxAttempts)).
  { unfold waitForCollectionActive. footprint; auto.
    apply emits_pollAttempts; cbn; auto. }
  specialize (Hall w). 
  induction Hall as [|ev evs Hev _ IH]; [constructor|].
  rewrite outbound_cons. destruct (is_log ev) eqn:Hlog; [exact IH|].
  constructor; [|exact IH]. destruct Hev as [Hev|Hev]; [congruence | exact Hev].
Qed.

(** Each policy step sends one command and touches nothing. *)
Lemma createEncryptionPolicy_run name w :
  let r := createEncryptionPolicy env name w in
  final r = set_clock (S (clock w)) w
  /\ outbound (emitted r) = [AossSend (encryptionCommand name)].
Proof.
  cbv zeta. unfold createEncryptionPolicy, aoss_client_send, encryptionCommand. run.
  match goal with
  | |- context [aoss_reply env ?n ?cmd] => destruct (aoss_reply env n cmd) as [?|e]
  end; run; [split; reflexivity|].
  destruct (JsError.name e =? "ConflictException"); run; split; reflexivity.
Qed.

Lemma createNetworkPolicy_run name w :
  let r := createNetworkPolicy env name w in
  final r = set_clock (S (clock w)) w
  /\ outbound (emitted r) = [AossSend (networkCommand name)].
Proof.
  cbv zeta. unfold createNetworkPolicy, aoss_client_send, networkCommand. run.
  match goal with
  | |- context [aoss_reply env ?n ?cmd] => destruct (aoss_reply env n cmd) as [?|e]
  end; run; [split; reflexivity|].
  destruct (JsError.name e =? "ConflictException"); run; split; reflexivity.
Qed.

Lemma createDataAccessPolicy_run name tenantId text w :
  ToString tenantId = Normal text ->
  let r := createDataAccessPolicy env name tenantId w in
  final r = set_clock (S (clock w)) w
  /\ outbound (emitted r) = [AossSend (accessCommand name text)].
Proof.
  intros Htext. cbv zeta.
  unfold createDataAccessPolicy, aoss_client_send, accessCommand. rewrite Htext. run.
  match goal with
  | |- context [aoss_reply env ?n ?cmd] => destruct (aoss_reply env n cmd) as [?|e]
  end; run; [split; reflexivity|].
  destruct (JsError.name e =? "ConflictException"); run; split; reflexivity.
Qed.

(** Walk through [createCollection] up to the readiness poll in a run
    that does not raise before it. *)
Ltac reach_poll name Htext :=
  unfold createCollection; fold name; run;
  let Hone := fresh "Hone" in
  pose proof (createEncryptionPolicy_run name) as Hone; cbv zeta in Hone;
  match goal with
  | |- context [createEncryptionPolicy ?env name ?w'] =>
      specialize (Hone w');
      destruct (createEncryptionPolicy env name w') as [[[]|?] ?w ?evs]
  end; cbn [final emitted] in Hone; destruct Hone as (-> & ?); run;
  [|discriminate];
  let Htwo := fresh "Htwo" in
  pose proof (createNetworkPolicy_run name) as Htwo; cbv zeta in Htwo;
  match goal with
  | |- context [createNetworkPolicy ?env name ?w'] =>
      specialize (Htwo w');
      destruct (createNetworkPolicy env name w') as [[[]|?] ?w ?evs]
  end; cbn [final emitted] in Htwo; destruct Htwo as (-> & ?); run;
  [|discriminate];
  match goal with
  | |- context [ToString ?tenantId] =>
      destruct (ToString tenantId) as [?text|?] eqn:Htext
  end; run; [|discriminate];
  unfold aoss_client_send; run; world;
  match goal with
  | |- context [aoss_reply ?env ?n ?cmd] =>
      destruct (aoss_reply env n cmd) as [?response|?]
  end; run; [|discriminate];
  match goal with
  | |- context [createCollectionDetail ?response] =>
      destruct (createCollectionDetail response) as [?detail|]
  end; run; [|discriminate];
  let Hfour := fresh "Hfour" in
  match goal with
  | |- context [createDataAccessPolicy ?env name ?tenantId ?w'] =>
      pose proof (createDataAccessPolicy_run name tenantId _ w' Htext) as Hfour;
      cbv zeta in Hfour;
      destruct (createDataAccessPolicy env name tenantId w') as [[[]|?] ?w ?evs]
  end; cbn [final emitted] in Hfour; destruct Hfour as (-> & ?); run;
  [|discriminate].

(** What [createCollection] returns is built from the entry of the
    status report that showed the collection ACTIVE. *)
Lemma createCollection_result tenantId tenantSlug created w :
  result (createCollection env tenantId tenantSlug w) = Normal created ->
  let name := getCollectionName tenantSlug in
  exists c,
    reported env name c
    /\ Collection.status c = "ACTIVE"
    /\ created = Created.mk (Collection.arn c) (Collection.collectionEndpoint c)
                            name (Collection.status c).
Proof.
  cbv zeta. set (name := getCollectionName tenantSlug).
  reach_poll name Htext.
  match goal with
  | |- context [waitForCollectionActive env ?n ?m ?w'] =>
      pose proof (waitForCollectionActive_reported n m) as Hfrom;
      destruct (waitForCollectionActive env n m w') as [[c|e6] w6 evs6] eqn:Hwait
  end; run; [|discriminate].
  intros [= <-].
  destruct (Hfrom c _ ltac:(rewrite Hwait; reflexivity)) as (Hrep & Hactive).
  exists c. auto.
Qed.

(** X18: a run of [createCollection] that returns has sent, in this
    order, the encryption policy, the network policy, the creation of
    the collection 'accreda-' followed by the slug with type SEARCH, and
    the data access policy, and after them status queries and sleeps
    only; what it returns carries that name and the status ACTIVE. *)
Theorem createCollection_sends_in_order tenantId tenantSlug created w :
  result (createCollection env tenantId tenantSlug w) = Normal created ->
  let name := getCollectionName tenantSlug in
  let r := createCollection env tenantId tenantSlug w in
  Created.name created = name
  /\ Created.status created = "ACTIVE"
  /\ exists description tags tenantIdText polls,
       outbound (emitted r)
       = (AossSend (encryptionCommand name) :: AossSend (networkCommand name)
          :: AossSend (CreateCollectionCommand name "SEARCH" description tags)
          :: AossSend (accessCommand name tenantIdText) :: polls)%list
       /\ ToString tenantId = Normal tenantIdText
       /\ Forall (fun ev => is_status_query ev = true \/ is_sleep ev = true) polls.
Proof.
  intros Hres. cbv zeta.
  split; [destruct (createCollection_result _ _ _ _ Hres) as (c & _ & _ & ->);
          reflexivity|].
  split; [destruct (createCollection_result _ _ _ _ Hres) as (c & _ & Hactive & ->);
          exact Hactive|].
  destruct (createCollection env tenantId tenantSlug w) as [res wf evs] eqn:Hrun.
  cbn [result emitted] in *. subst res. revert Hrun.
  set (name := getCollectionName tenantSlug).
  reach_poll name Htext.
  match goal with
  | |- context [waitForCollectionActive env ?n ?m ?w'] =>
      pose proof (waitForCollectionActive_polls n m w') as Hpolls;
      destruct (waitForCollectionActive env n m w') as [[c|e6] w6 evs6]
  end; run; [|discriminate].
  intros [= _ _ <-]. cbn [emitted] in Hpolls.
  unfold outbound in *.
  repeat (cbn [filter is_log negb]; rewrite ?filter_app).
  repeat match goal with
  | Hout : filter _ ?evs = [_] |- context [filter _ ?evs] => rewrite Hout
  end.
  rewrite ?app_nil_r. cbn [app].
  do 2 eexists. exists text, (filter (fun ev => negb (is_log ev)) evs6).
  split; [reflexivity|]. split; [reflexivity | exact Hpolls].
Qed.

End ProvisioningSteps.

(* ================================================================== *)
(** ** Redelivery *)
(* ================================================================== *)

Section Redelivery.
Context {num : Type} `{JsRuntime num}.
Variables env env' : Env num.

(** Provisioning calls and writes are not log lines. *)
Lemma filter_aoss_outbound (evs : list (Event num)) :
  filter is_aoss (outbound evs) = filter is_aoss evs.
Proof. apply filter_outbound. intros [] ?; (discriminate || reflexivity). Qed.

Lemma filter_write_outbound (evs : list (Event num)) :
  filter is_write (outbound evs) = filter is_write evs.
Proof. apply filter_outbound. intros [] ?; (discriminate || reflexivity). Qed.

(** After a run of the handler that returned, the first row with the
    tenant's id is one that validation turns away. *)
Lemma handled_tenant_is_settled message tenant_id w :
  txn w = None ->
  Get message "tenant_id" = Normal tenant_id ->
  result (processTenantMessage env message w) = Normal tt ->
  let w' := final (processTenantMessage env message w) in
  txn w' = None
  /\ ineligible (hd_error (matching tenant_id (tenants w'))).
Proof.
  intros Htxn Hid Hres. cbv zeta.
  pose proof (processTenantMessage_run env message tenant_id w Hid) as Hrun.
  pose proof (provisionTenant_run env tenant_id w) as Htry.
  pose proof (getTenant_reads env tenant_id w) as Hread.
  cbv zeta in Hrun, Htry, Hread.
  destruct (result (provisionTenant env tenant_id w)) as [[]|e] eqn:Htried;
    [|destruct Hrun as (Hthrow & _); congruence].
  destruct Hrun as (_ & -> & _).
  destruct (result (getTenant env tenant_id w)) as [tenant|e] eqn:Hfetch;
    [|destruct Htry as (Hthrow & _); congruence].
  destruct (getTenant_found env tenant_id tenant w Htxn Hfetch) as (Hhd & Hfree).
  destruct Hread as (Hrows & _).
  destruct Htry as (Hskip & Hprov & [Hcase|(t & -> & Ht)]).
  - destruct (Hskip Hcase) as (_ & -> & _). split; [exact Hfree|].
    rewrite Hrows, <- Hhd. exact Hcase.
  - specialize (Hprov t eq_refl Ht).
    set (fetched := final (getTenant env tenant_id w)) in *.
    set (created := createCollection env tenant_id (Tenant.slug t) fetched) in *.
    assert (Hkept : tenants (final created) = tenants w /\ txn (final created) = None).
    { unfold created.
      apply (preserves_createCollection env
               (fun w' => tenants w' = tenants w /\ txn w' = None)).
      - intros w' n Hw'. exact Hw'.
      - split; assumption. }
    destruct Hkept as (Hkept & Hfree').
    destruct (result created) as [collection|e] eqn:Hcreated;
      [|destruct Hprov as (Hthrow & _); congruence].
    destruct (result (updateTenantOpenSearch env tenant_id (Created.arn collection)
                        "ready" (final created)))
      as [updated|e] eqn:Hcommitted;
      [|destruct Hprov as (Hthrow & _); congruence].
    destruct Hprov as (_ & -> & _).
    pose proof (updateTenantOpenSearch_outcome env tenant_id (Created.arn collection)
                  "ready" _ Hfree') as Hcommit.
    cbv zeta in Hcommit. rewrite Hcommitted in Hcommit.
    destruct Hcommit as (Hfree'' & Hupdated).
    split; [exact Hfree''|].
    rewrite Hupdated, Hkept. unfold matching.
    rewrite update_rows_returned by reflexivity.
    destruct (filter (fun r => pg_eq tenant_id (Tenant.id r)) (tenants w))
      as [|first rest]; cbn; auto.
Qed.

(** X19: once the handler has returned for an event, handling an event
    for the same tenant again, in the state the first run left and
    whatever the outside does then, makes no call to the provisioning
    service; if that second run returns, it has written nothing and the
    rows are what they were. *)
Theorem handled_event_is_not_provisioned_again message message' tenant_id w :
  txn w = None ->
  Get message "tenant_id" = Normal tenant_id ->
  Get message' "tenant_id" = Normal tenant_id ->
  result (processTenantMessage env message w) = Normal tt ->
  let w' := final (processTenantMessage env message w) in
  let again := processTenantMessage env' message' w' in
  filter is_aoss (emitted again) = []
  /\ (result again = Normal tt ->
      filter is_write (emitted again) = [] /\ tenants (final again) = tenants w').
Proof.
  intros Htxn Hid Hid' Hres. cbv zeta.
  destruct (handled_tenant_is_settled message tenant_id w Htxn Hid Hres)
    as (Hfree & Hsettled).
  set (w' := final (processTenantMessage env message w)) in *.
  pose proof (processTenantMessage_run env' message' tenant_id w' Hid') as Hrun.
  pose proof (provisionTenant_run env' tenant_id w') as Htry.
  pose proof (getTenant_reads env' tenant_id w') as Hread.
  cbv zeta in Hrun, Htry, Hread.
  destruct Hread as (Hrows & _ & Haoss & Hwrite & _).
  assert (Hmarked : forall text w0,
             filter is_aoss (emitted (markTenantOpenSearchFailed env' tenant_id text w0))
             = []).
  { intros text w0. apply filter_quiet.
    apply emits_markTenantOpenSearchFailed; intros; reflexivity. }
  destruct (result (getTenant env' tenant_id w')) as [tenant|e] eqn:Hfetch.
  - destruct (getTenant_found env' tenant_id tenant w' Hfree Hfetch) as (Hhd & _).
    rewrite <- Hhd in Hsettled.
    destruct Htry as (Hskip & _). destruct (Hskip Hsettled) as (Hok & Hfinal & Hout).
    rewrite Hok in Hrun. destruct Hrun as (_ & Hfinal' & Hout').
    split.
    + rewrite <- filter_aoss_outbound, Hout', Hout, filter_aoss_outbound. exact Haoss.
    + intros _. split.
      * rewrite <- filter_write_outbound, Hout', Hout, filter_write_outbound.
        exact Hwrite.
      * rewrite Hfinal', Hfinal. exact Hrows.
  - destruct Htry as (Hthrow & _ & Hout). rewrite Hthrow in Hrun.
    destruct Hrun as (Hres' & _ & Hout'). split.
    + rewrite <- filter_aoss_outbound, Hout', Hout, filter_app,
        !filter_aoss_outbound, Haoss, Hmarked. reflexivity.
    + intros Hok. congruence.
Qed.


(** Validation does not look for the status 'failed'. *)
Lemma eligible_marked_failed now t :
  eligible t -> eligible (set_opensearch_status "failed" now t).
Proof.
  intros (Hactive & Harn & Hready). repeat split; cbn; auto. discriminate.
Qed.

(** X20: when the handler raises for a tenant that passed validation,
    the tenant still passes validation afterwards, whether the failure
    marking reached the store or not: the first row with its id is still
    active, without a collection reference and not 'ready', and has the
    same slug, so the redelivered event is provisioned again. *)
Theorem failed_provisioning_can_be_retried message tenant_id tenant e w :
  txn w = None ->
  Get message "tenant_id" = Normal tenant_id ->
  result (getTenant env tenant_id w) = Normal (Some tenant) ->
  eligible tenant ->
  result (processTenantMessage env message w) = Throw e ->
  let w' := final (processTenantMessage env message w) in
  txn w' = None
  /\ exists tenant',
       hd_error (matching tenant_id (tenants w')) = Some tenant'
       /\ eligible tenant'
       /\ Tenant.slug tenant' = Tenant.slug tenant.
Proof.
  intros Htxn Hid Hfetch Ht Hres. cbv zeta.
  pose proof (processTenantMessage_run env message tenant_id w Hid) as Hrun.
  pose proof (provisionTenant_run env tenant_id w) as Htry.
  pose proof (getTenant_reads env tenant_id w) as Hread.
  cbv zeta in Hrun, Htry, Hread.
  destruct (getTenant_found env tenant_id _ w Htxn Hfetch) as (Hhd & Hfree).
  destruct Hread as (Hrows & _).
  rewrite Hfetch in Htry. destruct Htry as (_ & Hprov & _).
  specialize (Hprov tenant eq_refl Ht). cbv zeta in Hprov.
  set (fetched := final (getTenant env tenant_id w)) in *.
  assert (Hkept : tenants (final (createCollection env tenant_id (Tenant.slug tenant)
                                    fetched)) = tenants w
                  /\ txn (final (createCollection env tenant_id (Tenant.slug tenant)
                                   fetched)) = None).
  { apply (preserves_createCollection env
             (fun w' => tenants w' = tenants w /\ txn w' = None)).
    - intros w' n Hw'. exact Hw'.
    - split; assumption. }
  destruct Hkept as (Hkept & Hfree').
  assert (Hfailed : exists failure,
             result (provisionTenant env tenant_id w) = Throw failure
             /\ tenants (final (provisionTenant env tenant_id w)) = tenants w
             /\ txn (final (provisionTenant env tenant_id w)) = None).
  { destruct (result (createCollection env tenant_id (Tenant.slug tenant) fetched))
      as [collection|failure] eqn:Hcreated.
    - pose proof (updateTenantOpenSearch_outcome env tenant_id
                    (Created.arn collection) "ready" _ Hfree') as Hcommit.
      cbv zeta in Hcommit. destruct Hprov as (Htried & -> & _).
      destruct (result (updateTenantOpenSearch env tenant_id (Created.arn collection)
                          "ready" _)) as [updated|failure].
      + rewrite Htried in Hrun. destruct Hrun as (Hok & _). congruence.
      + destruct Hcommit as (Hfree'' & Hsame). exists failure.
        rewrite Hsame, Hkept. auto.
    - destruct Hprov as (Htried & -> & _). exists failure. auto. }
  destruct Hfailed as (failure & Htried & Hsame & Hfree'').
  rewrite Htried in Hrun. destruct Hrun as (_ & -> & _).
  pose proof (markTenantOpenSearchFailed_outcome env tenant_id
                (JsError.message failure) _ Hfree'') as Hmark.
  cbv zeta in Hmark. destruct Hmark as (Hdone & Hmarked). split; [exact Hdone|].
  destruct Hmarked as [->| ->]; rewrite Hsame.
  - exists tenant. auto.
  - unfold matching in *. rewrite update_rows_returned by reflexivity.
    destruct (filter (fun r => pg_eq tenant_id (Tenant.id r)) (tenants w))
      as [|first rest]; [discriminate|].
    cbn in Hhd. injection Hhd as <-. cbn [map hd_error].
    eexists. split; [reflexivity|]. split; [|reflexivity].
    apply eligible_marked_failed. exact Ht.
Qed.

End Redelivery.

(* ================================================================== *)
(** ** What the handler commits, and what it never does *)
(* ================================================================== *)

Section HandlerCommits.
Context {num : Type} `{JsRuntime num}.
Variable env : Env num.

(** X21: the handler issues the commit only with status 'ready', for
    the tenant of the event, after the tenant passed validation, and
    with the reference of a collection that the provider reported as
    ACTIVE under the name built from the stored slug. *)
Theorem ready_only_after_active message tenant_id arn status id w :
  Get message "tenant_id" = Normal tenant_id ->
  In (PgQuery (UpdateTenantOpenSearch arn status id))
     (emitted (processTenantMessage env message w)) ->
  status = "ready" /\ id = tenant_id
  /\ exists tenant c,
       result (getTenant env tenant_id w) = Normal (Some tenant)
       /\ eligible tenant
       /\ reported env (getCollectionName (Tenant.slug tenant)) c
       /\ Collection.status c = "ACTIVE"
       /\ arn = Collection.arn c.
Proof.
  intros Hid Hin.
  set (commit := PgQuery (UpdateTenantOpenSearch arn status id)) in *.
  assert (Hout : In commit (outbound (emitted (processTenantMessage env message w)))).
  { apply In_outbound. split; [exact Hin | reflexivity]. }
  pose proof (processTenantMessage_run env message tenant_id w Hid) as Hrun.
  pose proof (provisionTenant_run env tenant_id w) as Htry.
  pose proof (getTenant_reads env tenant_id w) as Hread.
  cbv zeta in Hrun, Htry, Hread. destruct Hread as (_ & _ & _ & Hfetched & _).
  assert (Hnone : forall evs : list (Event num),
             filter is_write evs = [] -> ~ In commit (outbound evs)).
  { intros evs Hevs Hc. apply In_outbound in Hc. destruct Hc as [Hc _].
    assert (Hf : In commit (filter is_write evs))
      by (apply filter_In; split; [exact Hc | reflexivity]).
    rewrite Hevs in Hf. destruct Hf. }
  assert (Hother : forall {A} (m : M num A) w',
             emits (fun ev => ev <> commit) m -> ~ In commit (outbound (emitted (m w')))).
  { intros A m w' Hm Hc. apply In_outbound in Hc. destruct Hc as [Hc _].
    exact (emits_In _ _ _ _ Hm Hc eq_refl). }
  assert (Htried : In commit (outbound (emitted (provisionTenant env tenant_id w)))).
  { destruct (result (provisionTenant env tenant_id w)) as [[]|e].
    - destruct Hrun as (_ & _ & Heq). rewrite <- Heq. exact Hout.
    - destruct Hrun as (_ & _ & Heq). rewrite Heq in Hout.
      apply in_app_or in Hout. destruct Hout as [Hs|Hs]; [exact Hs|].
      exfalso. revert Hs. apply Hother.
      apply emits_markTenantOpenSearchFailed; intros; discriminate. }
  destruct (result (getTenant env tenant_id w)) as [tenant|e].
  2:{ destruct Htry as (_ & _ & Heq). rewrite Heq in Htried.
      destruct (Hnone _ Hfetched Htried). }
  destruct Htry as (Hskip & Hprov & [Hcase|(t & -> & Ht)]).
  { destruct (Hskip Hcase) as (_ & _ & Heq). rewrite Heq in Htried.
    destruct (Hnone _ Hfetched Htried). }
  specialize (Hprov t eq_refl Ht). cbv zeta in Hprov.
  set (fetched := final (getTenant env tenant_id w)) in *.
  assert (Hcreated :
            ~ In commit
                (outbound (emitted (createCollection env tenant_id (Tenant.slug t)
                                      fetched)))).
  { apply Hother. apply emits_createCollection; intros; discriminate. }
  destruct (result (createCollection env tenant_id (Tenant.slug t) fetched))
    as [collection|e] eqn:Hc.
  - destruct Hprov as (_ & _ & Heq). rewrite Heq in Htried.
    apply in_app_or in Htried. destruct Htried as [Hs|Hs];
      [destruct (Hnone _ Hfetched Hs)|].
    apply in_app_or in Hs. destruct Hs as [Hs|Hs]; [destruct (Hcreated Hs)|].
    apply In_outbound in Hs. destruct Hs as [Hs _].
    assert (Hcommit : emits (fun ev => forall a s i,
                               ev = PgQuery (UpdateTenantOpenSearch a s i) ->
                               a = Created.arn collection /\ s = "ready"
                               /\ i = tenant_id)
                        (updateTenantOpenSearch env tenant_id (Created.arn collection)
                           "ready")).
    { apply emits_updateTenantOpenSearch; intros; try discriminate.
      match goal with
      | Heq : PgQuery _ = PgQuery _ |- _ => injection Heq as <- <- <-
      end.
      auto. }
    destruct (emits_In _ _ _ _ Hcommit Hs arn status id eq_refl) as (-> & -> & ->).
    destruct (createCollection_result env _ _ _ _ Hc) as (c & Hrep & Hactive & ->).
    split; [reflexivity|]. split; [reflexivity|].
    exists t, c. auto.
  - destruct Hprov as (_ & _ & Heq). rewrite Heq in Htried.
    apply in_app_or in Htried. destruct Htried as [Hs|Hs];
      [destruct (Hnone _ Hfetched Hs) | destruct (Hcreated Hs)].
Qed.

(** X22: without a pool the handler raises 'Database pool not
    initialized' for every event: the fetch raises it, the failure
    marking raises it too and swallows it, and nothing is sent to the
    store or to the provider. *)
Theorem uninitialised_pool_fails_every_event message tenant_id w :
  pool w = false ->
  Get message "tenant_id" = Normal tenant_id ->
  let r := processTenantMessage env message w in
  result r = Throw pool_not_initialized
  /\ final r = w
  /\ outbound (emitted r) = [].
Proof.
  intros Hpool Hid. cbv zeta.
  destruct (Get_total _ _ _ Hid "tenant_slug") as [slug Hslug].
  destruct (Get_total _ _ _ Hid "timestamp") as [ts Hts].
  unfold processTenantMessage, provisionTenant, provisionFailed, getTenant,
    markTenantOpenSearchFailed, query.
  rewrite Hid, Hslug, Hts. run. rewrite Hpool. run. rewrite Hpool. run.
  repeat split.
Qed.


Section DeadCatch.
Local Abbreviation silent := (quiet_about "Failed to mark tenant as failed").

Ltac other_event := intros ? ? ?; discriminate.

(** Neither the [try] block of the handler nor the failure marking logs
    the line. *)
Lemma silent_pollAttempts name max attempts :
  emits silent (pollAttempts env name max attempts).
Proof.
  induction attempts as [|attempt later IH]; cbn [pollAttempts].
  - footprint.
  - apply emits_bind; [|intros [c|]; [footprint | exact IH]].
    unfold pollAttempt, aoss_client_send. footprint; other_event.
Qed.

Lemma silent_provisionTenant tenant_id :
  emits silent (provisionTenant env tenant_id).
Proof.
  unfold provisionTenant, getTenant, query, validateTenantForProvisioning,
    createCollection, createEncryptionPolicy, createNetworkPolicy,
    createDataAccessPolicy, waitForCollectionActive, aoss_client_send,
    updateTenantOpenSearch, getClient, pool_connect, getFreshToken,
    signer_getAuthToken, originalConnect, client_query, client_release.
  footprint;
    first [other_event | apply emits_run_sql | apply silent_pollAttempts].
Qed.

Lemma silent_markTenantOpenSearchFailed tenant_id text :
  emits silent (markTenantOpenSearchFailed env tenant_id text).
Proof.
  unfold markTenantOpenSearchFailed, query, pool_connect, getFreshToken,
    signer_getAuthToken, originalConnect, client_query, client_release.
  footprint; first [other_event | apply emits_run_sql].
Qed.

(** X23: the [catch] around the failure marking in
    [processTenantMessage] is dead code: [markTenantOpenSearchFailed]
    catches every error itself, so the handler never logs 'Failed to
    mark tenant as failed'. *)
Theorem marking_failure_is_never_reported message w level meta :
  ~ In (Log level "Failed to mark tenant as failed" meta)
       (emitted (processTenantMessage env message w)).
Proof.
  assert (Hall : emits silent (processTenantMessage env message)).
  { unfold processTenantMessage.
    apply emits_bind; [apply emits_lift | intros tenant_id].
    apply emits_bind; [apply emits_lift | intros tenant_slug].
    apply emits_bind; [apply emits_lift | intros timestamp].
    apply emits_bind; [apply emits_emit; other_event | intros _].
    apply emits_try_catch; [apply silent_provisionTenant | intros error].
    intros w'. unfold provisionFailed. run.
    pose proof (markTenantOpenSearchFailed_returns env tenant_id
                  (JsError.message error) w') as Hret.
    pose proof (silent_markTenantOpenSearchFailed tenant_id
                  (JsError.message error) w') as Hquiet.
    destruct (markTenantOpenSearchFailed env tenant_id (JsError.message error) w')
      as [res w1 evs1].
    cbn [result emitted] in *. subst res. run.
    constructor; [other_event|]. rewrite !app_nil_r. exact Hquiet. }
  intros Hin. exact (emits_In _ _ _ _ Hall Hin level meta eq_refl).
Qed.

End DeadCatch.
End HandlerCommits.

(* ================================================================== *)
(** ** Start-up and shutdown *)
(* ================================================================== *)

Section LifecycleFacts.
Context {num : Type} `{JsRuntime num}.
Variable env : Env num.

(** X24: [initializeDatabase] leaves the pool set in every case, also
    when the connection test fails.  With a pool already set it only
    warns.  Otherwise it tests the connection: when the connection
    cannot be obtained it raises that error; once it is obtained, the
    test query is sent and the client is released, also when the query
    fails, and the query's error is raised. *)
Theorem initializeDatabase_outcome w :
  let r := initializeDatabase env w in
  pool (host_final r) = true
  /\ if pool w then
       host_result r = Normal tt /\ host_final r = w
       /\ host_outbound (host_emitted r) = []
     else
       match pg_fault env (clock w) with
       | Some e =>
           host_result r = Throw e
           /\ host_outbound (host_emitted r) = [Service PgConnect]
       | None =>
           host_outbound (host_emitted r)
           = [Service PgConnect; PgTestQuery; Service PgRelease]
           /\ host_result r = match pg_fault env (S (clock w)) with
                              | Some e => Throw e
                              | None => Normal tt
                              end
       end.
Proof.
  cbv zeta. unfold initializeDatabase, test_query, pool_connect,
    getFreshToken, signer_getAuthToken, originalConnect, client_release.
  host_run. destruct (pool w) eqn:Hpool; host_run; world; [auto|].
  destruct (pg_fault env (clock w)) as [e0|]; host_run; world.
  { destruct (signer_message e0) as [message|] eqn:Hsigner; host_run; world;
      [|auto].
    apply signer_message_wrapped in Hsigner. subst e0. auto. }
  destruct (pg_fault env (S (clock w))) as [e1|]; host_run; world; auto.
Qed.

(** X25: [closeDatabase] does nothing without a pool.  With one it ends
    the pool; when that fails it raises and the pool stays set; when it
    succeeds the pool is unset, so that every later [query] raises
    'Database pool not initialized' without a call to the store. *)
Theorem closeDatabase_outcome w :
  let r := closeDatabase env w in
  if pool w then
    host_outbound (host_emitted r) = [PoolEnd]
    /\ match pg_fault env (clock w) with
       | Some e => host_result r = Throw e /\ pool (host_final r) = true
       | None =>
           host_result r = Normal tt
           /\ forall stmt,
                result (query env stmt (host_final r)) = Throw pool_not_initialized
                /\ emitted (query env stmt (host_final r)) = []
       end
  else host_result r = Normal tt /\ host_final r = w /\ host_emitted r = [].
Proof.
  cbv zeta. unfold closeDatabase. host_run.
  destruct (pool w) eqn:Hpool; host_run; world; [|auto].
  split; [destruct (pg_fault env (clock w)); reflexivity|].
  destruct (pg_fault env (clock w)) as [e0|]; host_run; world; [auto|].
  split; [reflexivity|]. intros stmt. unfold query. run. world. split; reflexivity.
Qed.


(** A function of the service exits nowhere, and calls the queue where
    it did before. *)
Lemma service_events {A} (m : M num A) w :
  filter is_exit (host_emitted (service m w)) = []
  /\ filter is_host_sqs (host_emitted (service m w))
     = map Service (filter is_sqs (emitted (m w))).
Proof.
  unfold service. destruct (m w) as [r w1 evs]. cbn [host_emitted emitted].
  induction evs as [|ev evs [IHexit IHsqs]]; [split; reflexivity|].
  cbn [map filter is_exit]. split; [exact IHexit|].
  destruct ev; cbn [is_host_sqs is_sqs map]; rewrite IHsqs; reflexivity.
Qed.

(** [initializeDatabase] neither exits nor calls the queue. *)
Lemma initializeDatabase_quiet w :
  filter is_exit (host_emitted (initializeDatabase env w)) = []
  /\ filter is_host_sqs (host_emitted (initializeDatabase env w)) = [].
Proof.
  unfold initializeDatabase, test_query, pool_connect, getFreshToken,
    signer_getAuthToken, originalConnect, client_release.
  host_run. destruct (pool w); host_run; world; [auto|].
  destruct (pg_fault env (clock w)) as [e0|]; host_run; world;
    [destruct (signer_message e0); host_run; world; auto|].
  destruct (pg_fault env (S (clock w))) as [e1|]; host_run; world; auto.
Qed.

(** X26: [main] never raises.  When [initializeDatabase] raises, it
    exits the process with code 1, once, and the queue is never called;
    when [initializeDatabase] returns, [main] exits nowhere, whatever
    happens in the polling loop. *)
Theorem main_exits_only_when_initialisation_fails iterations w :
  let r := main env iterations w in
  host_result r = Normal tt
  /\ match host_result (initializeDatabase env w) with
     | Throw e =>
         filter is_exit (host_emitted r) = [ProcessExit 1]
         /\ filter is_host_sqs (host_emitted r) = []
     | Normal _ => filter is_exit (host_emitted r) = []
     end.
Proof.
  cbv zeta. unfold main.
  pose proof (initializeDatabase_quiet w) as [Hexit Hsqs].
  assert (Hloop : forall w',
             (exists stopped,
                host_result (service (startPolling env (processTenantMessage env)
                                        iterations) w') = Normal stopped)
             /\ filter is_exit
                  (host_emitted (service (startPolling env (processTenantMessage env)
                                            iterations) w')) = []).
  { intros w'. split; [|apply service_events].
    destruct (startPolling_returns env (processTenantMessage env) iterations w')
      as (stopped & Hret).
    exists stopped. unfold service.
    destruct (startPolling env (processTenantMessage env) iterations w')
      as [res w2 evs2].
    exact Hret. }
  set (init := initializeDatabase env) in *.
  set (loop := service (startPolling env (processTenantMessage env) iterations)) in *.
  host_run.
  destruct (init w) as [[[]|e] w1 evs1]; host_run;
    cbn [host_result host_emitted] in *.
  - destruct (Hloop w1) as ((stopped & Hret) & Hquiet).
    destruct (loop w1) as [res w2 evs2]. cbn [host_result host_emitted] in *.
    subst res. host_run. split; [reflexivity|].
    repeat (rewrite filter_app; cbn [filter is_exit]).
    rewrite Hexit, Hquiet. reflexivity.
  - split; [reflexivity|].
    repeat (rewrite filter_app; cbn [filter is_exit is_host_sqs is_host_log]).
    rewrite Hexit, Hsqs. split; reflexivity.
Qed.

(** X27: [shutdown] never raises and always leaves [isPolling] false.
    It waits 5 seconds, then closes the database, then exits: with code
    0 when closing returned, with code 1 when closing raised. *)
Theorem shutdown_outcome signal w :
  let r := shutdown env signal w in
  let closed := closeDatabase env (set_isPolling false w) in
  host_result r = Normal tt
  /\ isPolling (host_final r) = false
  /\ host_outbound (host_emitted r)
     = (Service (Sleep 5000) :: host_outbound (host_emitted closed)
        ++ [ProcessExit (match host_result closed with
                         | Normal _ => 0
                         | Throw _ => 1
                         end)])%list.
Proof.
  cbv zeta. unfold shutdown, closeDatabase, stopPolling. host_run. world.
  destruct (pool w); host_run; world; [|repeat split].
  destruct (pg_fault env (clock w)) as [e0|]; host_run; world; repeat split.
Qed.

End LifecycleFacts.



(* ================================================================== *)
(** ** Runs of the scenarios *)
(* ================================================================== *)

Import Scenario.


(** With a provider that reports FAILED once and ACTIVE at the next
    query, the poll returns the collection, and the handler commits the
    tenant as 'ready'; with a provider that reports FAILED at every
    query, the poll asks 60 times and raises 'did not become active',
    never 'Collection creation failed'. *)
Example failed_status_is_retried :
  (let r := waitForCollectionActive (failing_once 0) "accreda-acme-corp"
              default_maxAttempts (world fresh acme_text) in
   result r = Normal (acme_collection "ACTIVE")
   /\ outbound (emitted r)
      = [AossSend (BatchGetCollectionCommand ["accreda-acme-corp"]);
         Sleep 30000;
         AossSend (BatchGetCollectionCommand ["accreda-acme-corp"])])
  /\ (let r := processTenantMessage (failing_once 6) acme_event
                 (world fresh acme_text) in
      result r = Normal tt
      /\ map Tenant.opensearch_status (tenants (final r))
         = [Some "ready"; Some "initializing"])
  /\ (let r := waitForCollectionActive failing "accreda-acme-corp"
                 default_maxAttempts (world fresh acme_text) in
      result r = Throw (did_not_become_active 60)
      /\ length (filter is_status_query (emitted r)) = 60
      /\ length (filter is_sleep (emitted r)) = 59).
Proof. vm_compute. repeat split. Qed.

(** The first of 60 attempts, the provider reporting FAILED. *)
Lemma failed_status_is_not_terminal_witness :
  let r := pollAttempt failing "accreda-acme-corp" 60 1 (world fresh acme_text) in
  Collection.status (acme_collection "FAILED") = "FAILED"
  /\ result r = Normal None
  /\ outbound (emitted r)
     = [AossSend (BatchGetCollectionCommand ["accreda-acme-corp"]);
        Sleep 30000].
Proof.
  cbv zeta. split; [reflexivity|].
  apply (failed_status_is_not_terminal (H:=rt) failing "accreda-acme-corp" 60 1
           (acme_collection "FAILED") [] None (world fresh acme_text)).
  - discriminate.
  - reflexivity.
  - reflexivity.
Defined.

(** The first status query cannot reach the provider, the second is
    answered with ACTIVE: the poll returns the collection after two
    queries and one sleep. *)
Lemma waitForCollectionActive_bounded_witness :
  let r := waitForCollectionActive (unreachable_once 0) "accreda-acme-corp"
             default_maxAttempts (world fresh acme_text) in
  aoss_reply (unreachable_once 0) 0 (BatchGetCollectionCommand ["accreda-acme-corp"])
  = Throw unreachable
  /\ result r = Normal (acme_collection "ACTIVE")
  /\ length (filter is_status_query (emitted r)) = 2
  /\ length (filter is_sleep (emitted r)) = 1.
Proof.
  cbv zeta. split; [reflexivity|].
  destruct (waitForCollectionActive_bounded (H:=rt) (unreachable_once 0)
              "accreda-acme-corp" (world fresh acme_text))
    as (_ & _ & _ & Hretry & _).
  apply (Hretry 1 (acme_collection "ACTIVE")).
  - repeat constructor.
  - intros [|i] Hi; [reflexivity|]. apply Nat.succ_lt_mono in Hi. inversion Hi.
  - reflexivity.
Defined.


(** The replay of the specification's example: the row already shows
    'ready' and a collection reference. *)
Lemma ineligible_tenant_is_skipped_witness :
  let w := world ready acme_text in
  let r := processMessage healthy (processTenantMessage healthy)
             (delivery acme_text) w in
  ineligible (Some ready)
  /\ result r = Normal tt
  /\ filter is_aoss (emitted r) = []
  /\ filter is_write (emitted r) = []
  /\ tenants (final r) = tenants w
  /\ queue (final r) = [].
Proof.
  cbv zeta.
  assert (Hin : ineligible (Some ready)).
  { right. left. eexists. split; [reflexivity | discriminate]. }
  destruct (ineligible_tenant_is_skipped (H:=rt) healthy (delivery acme_text) acme_event
              (JStr acme_id) (Some ready) (world ready acme_text)
              ltac:(vm_compute; reflexivity) ltac:(vm_compute; reflexivity)
              ltac:(vm_compute; reflexivity) ltac:(vm_compute; reflexivity) Hin)
    as (_ & Hres & Haoss & Hwrite & Hrows & _ & Hqueue).
  specialize (Hqueue ltac:(vm_compute; reflexivity)).
  exact (conj Hin (conj Hres (conj Haoss (conj Hwrite (conj Hrows Hqueue))))).
Defined.

(** The provider reports FAILED at every status query. *)
Lemma failed_provisioning_is_marked_and_left_queued_witness :
  let w := world fresh acme_text in
  let r := processMessage failing (processTenantMessage failing)
             (delivery acme_text) w in
  eligible fresh
  /\ result (processTenantMessage failing acme_event w)
     = Throw (did_not_become_active 60)
  /\ result r = Normal tt
  /\ filter is_sqs (emitted r) = []
  /\ queue (final r) = queue w.
Proof.
  cbv zeta.
  assert (Helig : eligible fresh).
  { repeat split; [left; reflexivity | discriminate]. }
  assert (Hraised :
            result (createCollection failing (JStr acme_id) (Tenant.slug fresh)
                      (final (getTenant failing (JStr acme_id)
                                (world fresh acme_text))))
            = Throw (did_not_become_active 60)).
  { vm_compute. reflexivity. }
  destruct (failed_provisioning_is_marked_and_left_queued (H:=rt) failing
              (delivery acme_text) acme_event (JStr acme_id) fresh
              (did_not_become_active 60)
              (final (createCollection failing (JStr acme_id) "acme-corp"
                        (final (getTenant failing (JStr acme_id)
                                  (world fresh acme_text)))))
              (world fresh acme_text)
              ltac:(vm_compute; reflexivity) ltac:(vm_compute; reflexivity)
              ltac:(vm_compute; reflexivity) ltac:(vm_compute; reflexivity) Helig
              (or_introl (conj Hraised eq_refl)))
    as (_ & Hthrow & _ & _ & Hres & _ & Hsqs & Hqueue).
  exact (conj Helig (conj Hthrow (conj Hres (conj Hsqs Hqueue)))).
Defined.

(** A commit for an identifier that no row has, and one for Acme. *)
Lemma updateTenantOpenSearch_atomic_witness :
  let w := world fresh acme_text in
  txn w = None
  /\ result (updateTenantOpenSearch healthy (JStr "no-such-id") "arn" "ready" w)
     = Throw tenant_not_found_or_update_failed
  /\ tenants (final (updateTenantOpenSearch healthy (JStr acme_id) "arn" "ready" w))
     <> tenants w.
Proof.
  cbv zeta. split; [reflexivity|]. split.
  - destruct (updateTenantOpenSearch_atomic healthy (JStr "no-such-id") "arn"
                "ready" (world fresh acme_text) eq_refl) as (_ & _ & Hnone).
    destruct (Hnone ltac:(vm_compute; reflexivity)) as (_ & Hraise).
    apply Hraise; [reflexivity | intros; reflexivity].
  - vm_compute. discriminate.
Defined.

(** A delivery whose body is not JSON. *)
Lemma unparsable_message_stays_witness :
  let w := world fresh "not json" in
  let r := processMessage healthy (processTenantMessage healthy)
             (delivery "not json") w in
  result r = Normal tt /\ final r = w /\ outbound (emitted r) = []
  /\ queue (final r) = [delivery "not json"].
Proof.
  cbv zeta.
  assert (Hparse : exists e,
             JSON_parse (SqsMessage.Body (delivery "not json")) = Throw e).
  { eexists. vm_compute. reflexivity. }
  destruct (unparsable_message_stays (H:=rt) healthy (processTenantMessage healthy)
              (delivery "not json") (world fresh "not json") (or_introl Hparse))
    as (Hres & Hfinal & Hout).
  exact (conj Hres (conj Hfinal (conj Hout (f_equal queue Hfinal)))).
Defined.

(** C1, counterexample: the tenant of the event is 'ready', with its
    collection reference.  When the first call to PostgreSQL fails, the
    fetch raises, so the handler raises instead of returning, and the
    loop sends no delete: the message stays in the queue.  And when the
    queue refuses the delete, the handler has returned without
    provisioning, yet the message stays in the queue. *)
Lemma ready_tenant_event_left_queued :
  let w := world ready acme_text in
  hd_error (matching (num:=Z) (JStr acme_id) (tenants w)) = Some ready
  /\ Tenant.opensearch_status ready = Some "ready"
  /\ (let handled := processTenantMessage db_hiccup acme_event w in
      let r := processMessage db_hiccup (processTenantMessage db_hiccup)
                 (delivery acme_text) w in
      result (getTenant db_hiccup (JStr acme_id) w) = Throw timeout
      /\ result handled = Throw timeout
      /\ filter is_sqs (emitted r) = []
      /\ queue (final r) = [delivery acme_text])
  /\ (let handled := processTenantMessage queue_down acme_event w in
      let r := processMessage queue_down (processTenantMessage queue_down)
                 (delivery acme_text) w in
      result handled = Normal tt
      /\ filter is_sqs (emitted r) = [SqsSend (DeleteMessageCommand "receipt-1")]
      /\ queue (final r) = [delivery acme_text]).
Proof. vm_compute. repeat split. Qed.

(** The first call to PostgreSQL fails, so the fetch raises; the failure
    marking that follows is accepted and turns the tenant of the
    example, which was 'ready', into 'failed', its collection reference
    in place; validation turns such a row away from then on. *)
Lemma failed_fetch_marks_tenant_failed_witness :
  let w := world ready acme_text in
  let r := processTenantMessage db_hiccup acme_event w in
  map Tenant.opensearch_status (tenants w) = [Some "ready"; Some "initializing"]
  /\ result r = Throw timeout
  /\ filter is_write (emitted r)
     = [PgQuery (UpdateOpenSearchStatus "failed" (JStr acme_id))]
  /\ map Tenant.opensearch_status (tenants (final r))
     = [Some "failed"; Some "initializing"]
  /\ map Tenant.opensearch_arn (tenants (final r))
     = map Tenant.opensearch_arn (tenants w)
  /\ result (processTenantMessage healthy acme_event (final r)) = Normal tt
  /\ tenants (final (processTenantMessage healthy acme_event (final r)))
     = tenants (final r).
Proof.
  cbv zeta.
  destruct (failed_fetch_marks_tenant_failed (H:=rt) db_hiccup acme_event
              (JStr acme_id) timeout (world ready acme_text)
              eq_refl eq_refl ltac:(vm_compute; reflexivity)
              ltac:(vm_compute; reflexivity) ltac:(vm_compute; reflexivity)
              ltac:(vm_compute; reflexivity))
    as (Hres & Hwrites & Hrows & _).
  split; [reflexivity|]. split; [exact Hres|]. split; [exact Hwrites|].
  split; [rewrite Hrows; vm_compute; reflexivity|].
  split; [rewrite Hrows; vm_compute; reflexivity|].
  split; vm_compute; reflexivity.
Defined.

(** A tenant that passes validation and whose provisioning fails. *)
Lemma status_moves_to_ready_or_failed_witness :
  let w := world fresh acme_text in
  let r := processTenantMessage failing acme_event w in
  txn w = None
  /\ Forall2 status_step (tenants w) (tenants (final r))
  /\ exists tenant,
       result (getTenant failing (JStr acme_id) w) = Normal (Some tenant)
       /\ eligible tenant.
Proof.
  cbv zeta.
  destruct (status_moves_to_ready_or_failed (H:=rt) failing acme_event (JStr acme_id)
              (world fresh acme_text) eq_refl ltac:(vm_compute; reflexivity))
    as (Hstep & Hmark).
  split; [reflexivity|]. split; [exact Hstep|].
  remember (emitted (processTenantMessage failing acme_event
                       (world fresh acme_text))) as evs eqn:Hevs.
  assert (Hwrites :
            filter is_write evs
            = [PgQuery (UpdateOpenSearchStatus "failed" (JStr acme_id))]).
  { subst evs. vm_compute. reflexivity. }
  assert (Hin : In (PgQuery (UpdateOpenSearchStatus "failed" (JStr acme_id)))
                  (filter is_write evs)).
  { rewrite Hwrites. left. reflexivity. }
  apply filter_In in Hin. destruct Hin as [Hin _].
  destruct (Hmark _ _ Hin) as (_ & _ & _ & [(e & He)|Hcase]).
  - vm_compute in He. discriminate.
  - exact Hcase.
Defined.

(** The stored slug is acme-corp, the event says other-name. *)
Lemma collection_named_after_stored_slug_witness :
  let w := world fresh acme_text in
  let r := processTenantMessage healthy acme_event w in
  let r' := processTenantMessage healthy renamed_event w in
  Get renamed_event "tenant_slug" = Normal (JStr "other-name")
  /\ result r = result r'
  /\ final r = final r'
  /\ outbound (emitted r) = outbound (emitted r')
  /\ (forall name type description tags,
        In (AossSend (CreateCollectionCommand name type description tags))
           (emitted r') ->
        name = "accreda-acme-corp")
  /\ In (AossSend (CreateCollectionCommand "accreda-acme-corp" "SEARCH"
                     ("OpenSearch collection for tenant acme-corp (" ++ acme_id
                      ++ ") - configured for Bedrock knowledge base")
                     [("TenantId", JStr acme_id);
                      ("TenantSlug", JStr "acme-corp");
                      ("Service", JStr "Accreda");
                      ("ManagedBy", JStr "tenant-opensearch-service");
                      ("BedrockCompatible", JStr "true")]))
        (emitted r').
Proof.
  cbv zeta.
  destruct (collection_named_after_stored_slug (H:=rt) healthy acme_event
              renamed_event
              (JStr acme_id) (world fresh acme_text)
              ltac:(vm_compute; reflexivity) ltac:(vm_compute; reflexivity))
    as (Hres & Hfinal & Hout & _ & Hcreated).
  destruct (collection_named_after_stored_slug (H:=rt) healthy renamed_event
              acme_event
              (JStr acme_id) (world fresh acme_text)
              ltac:(vm_compute; reflexivity) ltac:(vm_compute; reflexivity))
    as (_ & _ & _ & Habout & _).
  assert (Helig : eligible fresh).
  { repeat split; [left; reflexivity | discriminate]. }
  destruct (Hcreated fresh acme_id ltac:(vm_compute; reflexivity) Helig eq_refl
              I I) as (_ & Hsent).
  split; [reflexivity|]. split; [exact Hres|]. split; [exact Hfinal|].
  split; [exact Hout|]. split; [|exact Hsent].
  intros name type description tags Hin.
  destruct (Habout _ Hin) as (tenant & Hfetch & Hname).
  vm_compute in Hfetch. injection Hfetch as <-. exact Hname.
Defined.

(** Everything already exists: the three creation calls are answered
    with ConflictException. *)
Lemma createCollection_conflict_witness :
  let r := createCollection already_created (JStr acme_id) "acme-corp"
             (world fresh acme_text) in
  JsError.name conflict = "ConflictException"
  /\ result r = Throw conflict.
Proof.
  cbv zeta. split; [reflexivity|].
  refine (proj1 (createCollection_conflict_raises already_created acme_id
                   "acme-corp" conflict (world fresh acme_text) eq_refl _ _)).
  - intros n [ | | | ]; intros; cbn; auto.
  - reflexivity.
Defined.

(** The queue holds the event of the example. *)
Lemma pollIteration_takes_oldest_witness :
  let w := world ready acme_text in
  let handled := processMessage healthy (processTenantMessage healthy)
                   (delivery acme_text) (set_clock 1 w) in
  let r := pollIteration healthy (processTenantMessage healthy) w in
  queue w = [delivery acme_text]
  /\ result r = Normal tt
  /\ final r = final handled
  /\ outbound (emitted r)
     = SqsSend (ReceiveMessageCommand 1 20 300) :: outbound (emitted handled).
Proof.
  cbv zeta. split; [reflexivity|].
  exact (pollIteration_takes_oldest (H:=rt) healthy (processTenantMessage healthy)
           (delivery acme_text) [] (world ready acme_text) eq_refl eq_refl).
Defined.

(** The event of the example with an empty timestamp. *)
Lemma processMessage_discards_witness :
  let w := world fresh untimed_text in
  let r := processMessage healthy (processTenantMessage healthy)
             (delivery untimed_text) w in
  result (validateMessage untimed_event w) = Normal false
  /\ result r = Normal tt
  /\ outbound (emitted r) = [SqsSend (DeleteMessageCommand "receipt-1")]
  /\ queue (final r) = [].
Proof.
  cbv zeta.
  assert (Hvalid : result (validateMessage untimed_event (world fresh untimed_text))
                   = Normal false) by (vm_compute; reflexivity).
  destruct (processMessage_discards (H:=rt) healthy (processTenantMessage healthy)
              (delivery untimed_text) untimed_event (world fresh untimed_text)
              ltac:(vm_compute; reflexivity) ltac:(discriminate)
              ltac:(discriminate) Hvalid)
    as (Hres & Hfinal & Hout).
  split; [exact Hvalid|]. split; [exact Hres|]. split.
  - rewrite Hout. vm_compute. reflexivity.
  - rewrite Hfinal. vm_compute. reflexivity.
Defined.

(** The tenant is already provisioned, and the queue refuses the
    delete. *)
Lemma failed_delete_keeps_message_witness :
  let w := world ready acme_text in
  let r := processMessage queue_down (processTenantMessage queue_down)
             (delivery acme_text) w in
  result (processTenantMessage queue_down acme_event w) = Normal tt
  /\ result r = Normal tt
  /\ queue (final r) = [delivery acme_text].
Proof.
  cbv zeta.
  assert (Hhandled : result (processTenantMessage queue_down acme_event
                               (world ready acme_text)) = Normal tt)
    by (vm_compute; reflexivity).
  destruct (failed_delete_keeps_message (H:=rt) queue_down
              (processTenantMessage queue_down) (delivery acme_text) acme_event
              throttled (world ready acme_text)
              ltac:(vm_compute; reflexivity) ltac:(vm_compute; reflexivity)
              Hhandled eq_refl)
    as (Hres & Hqueue & _).
  split; [exact Hhandled|]. split; [exact Hres|].
  rewrite Hqueue. vm_compute. reflexivity.
Defined.

(** The slug of the example. *)
Lemma collection_name_of_valid_slug_witness :
  regex_match slugRegex "acme-corp" = true
  /\ getCollectionName "acme-corp" = "accreda-acme-corp"
  /\ 11 <= String.length (getCollectionName "acme-corp") <= 72
  /\ all_in lower_alnum_dash (getCollectionName "acme-corp") = true.
Proof.
  split; [reflexivity|]. split; [reflexivity|].
  destruct (collection_name_of_valid_slug "acme-corp" eq_refl) as (Hlen & Hall & _).
  exact (conj Hlen Hall).
Defined.

(** The event of the example handled twice, the second time with
    another slug in the payload. *)
Lemma handled_event_is_not_provisioned_again_witness :
  let w := world fresh acme_text in
  let first := processTenantMessage healthy acme_event w in
  let again := processTenantMessage healthy renamed_event (final first) in
  result first = Normal tt
  /\ length (filter is_aoss (emitted first)) = 5
  /\ filter is_aoss (emitted again) = []
  /\ result again = Normal tt
  /\ filter is_write (emitted again) = []
  /\ tenants (final again) = tenants (final first).
Proof.
  cbv zeta.
  assert (Hfirst : result (processTenantMessage healthy acme_event
                             (world fresh acme_text)) = Normal tt)
    by (vm_compute; reflexivity).
  destruct (handled_event_is_not_provisioned_again (H:=rt) healthy healthy
              acme_event renamed_event (JStr acme_id) (world fresh acme_text)
              eq_refl ltac:(vm_compute; reflexivity) ltac:(vm_compute; reflexivity)
              Hfirst)
    as (Haoss & Hquiet).
  assert (Hagain : result (processTenantMessage healthy renamed_event
                             (final (processTenantMessage healthy acme_event
                                       (world fresh acme_text)))) = Normal tt)
    by (vm_compute; reflexivity).
  destruct (Hquiet Hagain) as (Hwrite & Hrows).
  split; [exact Hfirst|]. split; [vm_compute; reflexivity|].
  split; [exact Haoss|]. split; [exact Hagain|]. split; [exact Hwrite | exact Hrows].
Defined.

(** The provider reports FAILED at every status query. *)
Lemma failed_provisioning_can_be_retried_witness :
  let w := world fresh acme_text in
  let r := processTenantMessage failing acme_event w in
  eligible fresh
  /\ result r = Throw (did_not_become_active 60)
  /\ exists tenant',
       hd_error (matching (num:=Z) (JStr acme_id) (tenants (final r))) = Some tenant'
       /\ Tenant.opensearch_status tenant' = Some "failed"
       /\ eligible tenant'.
Proof.
  cbv zeta.
  assert (Helig : eligible fresh).
  { repeat split; [left; reflexivity | discriminate]. }
  assert (Hraised : result (processTenantMessage failing acme_event
                              (world fresh acme_text))
                    = Throw (did_not_become_active 60))
    by (vm_compute; reflexivity).
  destruct (failed_provisioning_can_be_retried (H:=rt) failing acme_event
              (JStr acme_id) fresh (did_not_become_active 60)
              (world fresh acme_text)
              eq_refl ltac:(vm_compute; reflexivity) ltac:(vm_compute; reflexivity)
              Helig Hraised)
    as (_ & tenant' & Hhd & Hstill & _).
  split; [exact Helig|]. split; [exact Hraised|].
  exists tenant'. split; [exact Hhd|]. split; [|exact Hstill].
  vm_compute in Hhd. injection Hhd as <-. reflexivity.
Defined.

(** The provider accepts every call and reports ACTIVE at once. *)
Lemma createCollection_sends_in_order_witness :
  let r := createCollection healthy (JStr acme_id) "acme-corp"
             (world fresh acme_text) in
  result r
  = Normal (Created.mk "arn:aws:aoss:us-east-1:625867133463:collection/abc"
              (Some "https://abc.us-east-1.aoss.amazonaws.com")
              "accreda-acme-corp" "ACTIVE")
  /\ exists description tags polls,
       outbound (emitted r)
       = (AossSend (encryptionCommand "accreda-acme-corp")
          :: AossSend (networkCommand "accreda-acme-corp")
          :: AossSend (CreateCollectionCommand "accreda-acme-corp" "SEARCH"
                         description tags)
          :: AossSend (accessCommand "accreda-acme-corp" acme_id) :: polls)%list.
Proof.
  cbv zeta.
  assert (Hres : result (createCollection healthy (JStr acme_id) "acme-corp"
                           (world fresh acme_text))
                 = Normal (Created.mk
                             "arn:aws:aoss:us-east-1:625867133463:collection/abc"
                             (Some "https://abc.us-east-1.aoss.amazonaws.com")
                             "accreda-acme-corp" "ACTIVE"))
    by (vm_compute; reflexivity).
  destruct (createCollection_sends_in_order (H:=rt) healthy (JStr acme_id)
              "acme-corp" _ (world fresh acme_text) Hres)
    as (_ & _ & description & tags & text & polls & Hout & Htext & _).
  split; [exact Hres|].
  cbn in Htext. injection Htext as <-.
  exists description, tags, polls. exact Hout.
Defined.

(** The provider refuses the encryption policy. *)
Lemma policy_failure_stops_creation_witness :
  let r := createCollection denied (JStr acme_id) "acme-corp"
             (world fresh acme_text) in
  JsError.name access_denied <> "ConflictException"
  /\ result r = Throw access_denied
  /\ outbound (emitted r) = [AossSend (encryptionCommand "accreda-acme-corp")].
Proof.
  cbv zeta.
  assert (Hname : JsError.name access_denied <> "ConflictException")
    by discriminate.
  split; [exact Hname|].
  exact (proj1 (policy_failure_stops_creation (H:=rt) denied (JStr acme_id)
                  "acme-corp" access_denied (world fresh acme_text) Hname)
               eq_refl).
Defined.

(** The run of the example: the commit carries the reference that the
    provider reported. *)
Lemma ready_only_after_active_witness :
  let w := world fresh acme_text in
  let r := processTenantMessage healthy acme_event w in
  filter is_write (emitted r)
  = [PgQuery (UpdateTenantOpenSearch
                "arn:aws:aoss:us-east-1:625867133463:collection/abc" "ready"
                (JStr acme_id))]
  /\ exists c,
       reported healthy "accreda-acme-corp" c
       /\ Collection.status c = "ACTIVE"
       /\ Collection.arn c = "arn:aws:aoss:us-east-1:625867133463:collection/abc".
Proof.
  cbv zeta.
  remember (emitted (processTenantMessage healthy acme_event
                       (world fresh acme_text))) as evs eqn:Hevs.
  assert (Hwrites :
            filter is_write evs
            = [PgQuery (UpdateTenantOpenSearch
                          "arn:aws:aoss:us-east-1:625867133463:collection/abc"
                          "ready" (JStr acme_id))]).
  { subst evs. vm_compute. reflexivity. }
  split; [exact Hwrites|].
  assert (Hin : In (PgQuery (UpdateTenantOpenSearch
                               "arn:aws:aoss:us-east-1:625867133463:collection/abc"
                               "ready" (JStr acme_id)))
                  (filter is_write evs)).
  { rewrite Hwrites. left. reflexivity. }
  apply filter_In in Hin. destruct Hin as [Hin _]. subst evs.
  destruct (ready_only_after_active (H:=rt) healthy acme_event (JStr acme_id) _ _ _
              (world fresh acme_text) ltac:(vm_compute; reflexivity) Hin)
    as (_ & _ & tenant & c & Hfetch & _ & Hrep & Hactive & Harn).
  vm_compute in Hfetch. injection Hfetch as <-.
  exists c. split; [exact Hrep|]. split; [exact Hactive|]. symmetry. exact Harn.
Defined.

(** The event of the example in a process whose pool was never
    initialised. *)
Lemma uninitialised_pool_fails_every_event_witness :
  let r := processTenantMessage healthy acme_event (cold fresh acme_text) in
  pool (cold fresh acme_text) = false
  /\ result r = Throw pool_not_initialized
  /\ final r = cold fresh acme_text
  /\ outbound (emitted r) = [].
Proof.
  cbv zeta. split; [reflexivity|].
  exact (uninitialised_pool_fails_every_event (H:=rt) healthy acme_event
           (JStr acme_id) (cold fresh acme_text) eq_refl
           ltac:(vm_compute; reflexivity)).
Defined.

(** An identifier that no row has, the tenant of the example, and a
    store whose first call fails. *)
Lemma getTenant_outcome_witness :
  let w := world fresh acme_text in
  result (getTenant healthy (JStr "no-such-id") w) = Normal None
  /\ result (getTenant healthy (JStr acme_id) w) = Normal (Some fresh)
  /\ result (getTenant db_hiccup (JStr acme_id) w) = Throw timeout.
Proof.
  cbv zeta.
  destruct (getTenant_outcome healthy (JStr "no-such-id")
              (world fresh acme_text) eq_refl eq_refl) as (_ & Hnone).
  destruct (getTenant_outcome healthy (JStr acme_id)
              (world fresh acme_text) eq_refl eq_refl) as (_ & Hsome).
  destruct (getTenant_outcome db_hiccup (JStr acme_id)
              (world fresh acme_text) eq_refl eq_refl) as (_ & Hfail).
  cbn in Hnone, Hsome, Hfail.
  exact (conj (proj1 Hnone) (conj (proj1 Hsome) (proj1 Hfail))).
Defined.

(** An identifier that no row has. *)
Lemma marking_unknown_tenant_reports_success_witness :
  let w := world fresh acme_text in
  let r := markTenantOpenSearchFailed healthy (JStr "no-such-id") "boom" w in
  result r = Normal tt
  /\ tenants (final r) = tenants w
  /\ In (Log Info "Tenant OpenSearch status marked as failed"
           [("tenantId", JStr "no-such-id")]) (emitted r).
Proof.
  cbv zeta.
  exact (marking_unknown_tenant_reports_success healthy (JStr "no-such-id")
           "boom" (world fresh acme_text) eq_refl eq_refl eq_refl eq_refl eq_refl).
Defined.
